(** * DocumentInsightAi: the in-memory store, the chat orchestrator and the
      upload handler

    A shallow embedding of [server/storage.ts] (class [MemStorage]), of the
    handlers of [POST /api/chat] and [POST /api/documents/upload] in
    [registerRoutes], of [server/utils/groqApi.ts] and of
    [server/utils/fileProcessing.ts].  The definitions come first, in the
    order of the sources; the facts about them and the properties of the
    store and of the two routes follow.

    Conventions.
    - A JavaScript [number] used as an identifier or counter is a [Z]; every
      counter of the store starts at 1 and is only ever incremented, far
      below 2^53 where [++] on a double is exact.
    - A [Date] is its [getTime()] value, a [Z] of milliseconds.
    - A JavaScript string is a [string]; template literals are [++].
    - A [Map<number, V>] is an association list in insertion order with the
      semantics of [Map.prototype.set/get/delete/values].
    - [new Date()], the HTTP client, the file system and the text extraction
      libraries are external: their answers come from an environment [Env],
      indexed by how many times each has been asked. *)

From Stdlib Require Import ZArith List String Ascii Bool Lia.
From Stdlib Require Import Permutation Sorted DecimalString.
Import ListNotations.

Open Scope string_scope.
Open Scope list_scope.
Open Scope Z_scope.

(* ------------------------------------------------------------------------- *)
(** ** JavaScript [Map<number, V>] *)

Module JsMap.
Section Defs.
Variable V : Type.

Definition t := list (Z * V).

Definition empty : t := [].

(** [Map.prototype.get]: [None] is [undefined]. *)
Fixpoint get (k : Z) (m : t) : option V :=
  match m with
  | [] => None
  | (k', v) :: m' => if k' =? k then Some v else get k m'
  end.

(** [Map.prototype.has] *)
Definition has (k : Z) (m : t) : bool :=
  match get k m with Some _ => true | None => false end.

(** [Map.prototype.set]: an existing key keeps its place in the iteration
    order, a new key goes last. *)
Fixpoint set (k : Z) (v : V) (m : t) : t :=
  match m with
  | [] => [(k, v)]
  | (k', v') :: m' =>
      if k' =? k then (k, v) :: m' else (k', v') :: set k v m'
  end.

Definition remove (k : Z) (m : t) : t :=
  filter (fun e => negb (fst e =? k)) m.

(** [Map.prototype.delete]: the result says whether the key was there. *)
Definition delete (k : Z) (m : t) : bool * t := (has k m, remove k m).

Definition keys (m : t) : list Z := map fst m.

(** [Array.from(m.values())], in insertion order. *)
Definition values (m : t) : list V := map snd m.
End Defs.
Arguments empty {V}.
Arguments get {V} k m.
Arguments has {V} k m.
Arguments set {V} k v m.
Arguments remove {V} k m.
Arguments delete {V} k m.
Arguments keys {V} m.
Arguments values {V} m.
End JsMap.

(* ------------------------------------------------------------------------- *)
(** ** [Array.prototype.sort] and [Array.prototype.find] *)

Section ArraySort.
Variable A : Type.
(** The comparator, as in JavaScript: negative when the first argument
    goes first. *)
Variable compareFn : A -> A -> Z.

Fixpoint sort_insert (x : A) (l : list A) : list A :=
  match l with
  | [] => [x]
  | y :: l' =>
      if compareFn x y <=? 0 then x :: y :: l' else y :: sort_insert x l'
  end.

(** The sort is stable (ECMAScript 2019): of two elements that compare
    equal, the one that came first stays first. *)
Fixpoint Array_sort (l : list A) : list A :=
  match l with
  | [] => []
  | x :: l' => sort_insert x (Array_sort l')
  end.
End ArraySort.
Arguments sort_insert {A} compareFn x l.
Arguments Array_sort {A} compareFn l.

Definition Array_find {A : Type} (p : A -> bool) (l : list A) : option A :=
  List.find p l.

(* ------------------------------------------------------------------------- *)
(** ** The data model ([shared/schema.ts]) *)

Module User.
Record t := mk { id : Z; username : string; password : string }.
End User.

Module InsertUser.
Record t := mk { username : string; password : string }.
End InsertUser.

Module Document.
Record t := mk {
  id : Z;
  name : string;
  originalName : string;
  mimeType : string;
  size : Z;
  content : string;
  uploadedAt : Z
}.
End Document.

Module InsertDocument.
Record t := mk {
  name : string;
  originalName : string;
  mimeType : string;
  size : Z;
  content : string
}.
End InsertDocument.

Module Session.
Record t := mk {
  id : Z;
  documentId : Z;
  name : string;
  createdAt : Z;
  lastMessageAt : Z
}.
End Session.

Module InsertSession.
Record t := mk { documentId : Z; name : string }.
End InsertSession.

(** The field [documentId] of a message holds the id of its session. *)
Module Message.
Record t := mk {
  id : Z;
  documentId : Z;
  role : string;
  content : string;
  timestamp : Z
}.
End Message.

Module InsertMessage.
Record t := mk { documentId : Z; role : string; content : string }.
End InsertMessage.

(* ------------------------------------------------------------------------- *)
(** ** The store's state ([class MemStorage]) *)

Record MemStorage := mkMemStorage {
  users : JsMap.t User.t;
  documents : JsMap.t Document.t;
  sessions : JsMap.t Session.t;
  messages : JsMap.t Message.t;
  userIdCounter : Z;
  documentIdCounter : Z;
  sessionIdCounter : Z;
  messageIdCounter : Z
}.

(** [constructor()] *)
Definition MemStorage_new : MemStorage :=
  mkMemStorage JsMap.empty JsMap.empty JsMap.empty JsMap.empty 1 1 1 1.

(* ------------------------------------------------------------------------- *)
(** ** Errors, the environment and the world *)

(** What a [throw] carries: a plain [Error], or the error of the HTTP client,
    which may hold the upstream response (status, body as JSON text). *)
Inductive JsError :=
| Error (message : string)
| AxiosError (message : string) (response : option (Z * string)).

Definition error_message (e : JsError) : string :=
  match e with Error m => m | AxiosError m _ => m end.

Inductive Outcome (A : Type) :=
| Returned (a : A)
| Threw (e : JsError).
Arguments Returned {A} a.
Arguments Threw {A} e.

(** A role-tagged message as sent to the completion API ([groqApi.ts]). *)
Module GroqMessage.
Record t := mk { role : string; content : string }.
End GroqMessage.

Record Env := mkEnv {
  (** the value of the n-th [new Date()] of the process *)
  wall_clock : nat -> Z;
  (** [process.env.GROQ_API_KEY || ''] *)
  GROQ_API_KEY : string;
  (** the n-th [axios.post]: the [choices[i].message.content] of
      [response.data] ([None] when [data] or [choices] is missing), or the
      rejection *)
  axios_post : nat -> list GroqMessage.t -> Outcome (option (list string));
  os_tmpdir : string;
  uuidv4 : nat -> string;
  path_extname : string -> string;
  path_join : string -> string -> string;
  toLowerCase : string -> string;
  (** whether the n-th file-system call fails *)
  fs_fault : nat -> bool;
  (** how [fs.readFile(_, 'utf8')] decodes bytes *)
  utf8_decode : list Byte.byte -> string;
  (** [pdf-parse]: the [text] of the parsed data *)
  pdf_parse : list Byte.byte -> Outcome string;
  (** [mammoth.extractRawText]: the [value] of the result *)
  mammoth_extractRawText : list Byte.byte -> Outcome string
}.

Record World := mkWorld {
  storage : MemStorage;
  (** how many times [new Date()] has run *)
  dates : nat;
  (** the message lists handed to [axios.post] so far, oldest first *)
  posts : list (list GroqMessage.t);
  (** the files on disk, by path *)
  files : list (string * list Byte.byte);
  fs_calls : nat;
  uuids : nat
}.

(** The process at start-up: [export const storage = new MemStorage()]. *)
Definition World_start : World := mkWorld MemStorage_new 0 [] [] 0 0.

Definition with_storage (w : World) (s : MemStorage) : World :=
  mkWorld s (dates w) (posts w) (files w) (fs_calls w) (uuids w).

(** *** The monad of a request: state and exceptions *)

Definition M (A : Type) : Type := World -> Outcome A * World.

Definition ret {A} (a : A) : M A := fun w => (Returned a, w).

Definition throw {A} (e : JsError) : M A := fun w => (Threw e, w).

Definition bind {A B} (m : M A) (k : A -> M B) : M B :=
  fun w =>
    match m w with
    | (Returned a, w') => k a w'
    | (Threw e, w') => (Threw e, w')
    end.

(** [try { m } catch (error) { h error }] *)
Definition try_catch {A} (m : M A) (h : JsError -> M A) : M A :=
  fun w =>
    match m w with
    | (Returned a, w') => (Returned a, w')
    | (Threw e, w') => h e w'
    end.

Notation "x <- m ;; k" := (bind m (fun x => k))
  (at level 61, m at next level, right associativity).
Notation "m ;;; k" := (bind m (fun _ => k))
  (at level 61, right associativity).

Definition get_storage : M MemStorage := fun w => (Returned (storage w), w).

Definition put_storage (s : MemStorage) : M unit :=
  fun w => (Returned tt, with_storage w s).

(* ------------------------------------------------------------------------- *)
(** ** The methods of [MemStorage] *)

Definition set_users (s : MemStorage) (m : JsMap.t User.t) (c : Z) :=
  mkMemStorage m (documents s) (sessions s) (messages s)
    c (documentIdCounter s) (sessionIdCounter s) (messageIdCounter s).

Definition set_documents (s : MemStorage) (m : JsMap.t Document.t) (c : Z) :=
  mkMemStorage (users s) m (sessions s) (messages s)
    (userIdCounter s) c (sessionIdCounter s) (messageIdCounter s).

Definition set_sessions (s : MemStorage) (m : JsMap.t Session.t) (c : Z) :=
  mkMemStorage (users s) (documents s) m (messages s)
    (userIdCounter s) (documentIdCounter s) c (messageIdCounter s).

Definition set_messages (s : MemStorage) (m : JsMap.t Message.t) (c : Z) :=
  mkMemStorage (users s) (documents s) (sessions s) m
    (userIdCounter s) (documentIdCounter s) (sessionIdCounter s) c.

Section Storage.
Variable env : Env.

(** [new Date()] *)
Definition new_Date : M Z :=
  fun w =>
    (Returned (wall_clock env (dates w)),
     mkWorld (storage w) (S (dates w)) (posts w) (files w)
       (fs_calls w) (uuids w)).

(** *** Users *)

Definition getUser (id : Z) : M (option User.t) :=
  s <- get_storage ;; ret (JsMap.get id (users s)).

Definition getUserByUsername (username : string) : M (option User.t) :=
  s <- get_storage ;;
  ret (Array_find (fun user => String.eqb (User.username user) username)
         (JsMap.values (users s))).

Definition createUser (insertUser : InsertUser.t) : M User.t :=
  s <- get_storage ;;
  let id := userIdCounter s in
  let user :=
    User.mk id (InsertUser.username insertUser)
      (InsertUser.password insertUser) in
  put_storage (set_users s (JsMap.set id user (users s)) (id + 1)) ;;;
  ret user.

(** *** Documents *)

Definition getDocuments : M (list Document.t) :=
  s <- get_storage ;;
  ret (Array_sort
         (fun a b => Document.uploadedAt b - Document.uploadedAt a)
         (JsMap.values (documents s))).

Definition getDocument (id : Z) : M (option Document.t) :=
  s <- get_storage ;; ret (JsMap.get id (documents s)).

Definition createDocument (insertDocument : InsertDocument.t)
  : M Document.t :=
  s <- get_storage ;;
  let id := documentIdCounter s in
  put_storage (set_documents s (documents s) (id + 1)) ;;;
  uploadedAt <- new_Date ;;
  let document :=
    Document.mk id
      (InsertDocument.name insertDocument)
      (InsertDocument.originalName insertDocument)
      (InsertDocument.mimeType insertDocument)
      (InsertDocument.size insertDocument)
      (InsertDocument.content insertDocument)
      uploadedAt in
  s <- get_storage ;;
  put_storage
    (set_documents s (JsMap.set id document (documents s))
       (documentIdCounter s)) ;;;
  ret document.

Definition deleteDocument (id : Z) : M bool :=
  s <- get_storage ;;
  let (existed, documents') := JsMap.delete id (documents s) in
  put_storage (set_documents s documents' (documentIdCounter s)) ;;;
  ret existed.

(** *** Sessions *)

Definition getSessions (documentId : Z) : M (list Session.t) :=
  s <- get_storage ;;
  ret (Array_sort
         (fun a b => Session.lastMessageAt b - Session.lastMessageAt a)
         (filter (fun session => Session.documentId session =? documentId)
            (JsMap.values (sessions s)))).

Definition getSession (id : Z) : M (option Session.t) :=
  s <- get_storage ;; ret (JsMap.get id (sessions s)).

Definition createSession (insertSession : InsertSession.t) : M Session.t :=
  s <- get_storage ;;
  let id := sessionIdCounter s in
  put_storage (set_sessions s (sessions s) (id + 1)) ;;;
  now <- new_Date ;;
  let session :=
    Session.mk id
      (InsertSession.documentId insertSession)
      (InsertSession.name insertSession)
      now now in
  s <- get_storage ;;
  put_storage
    (set_sessions s (JsMap.set id session (sessions s))
       (sessionIdCounter s)) ;;;
  ret session.

Definition updateSessionName (id : Z) (name : string)
  : M (option Session.t) :=
  s <- get_storage ;;
  match JsMap.get id (sessions s) with
  | None => ret None
  | Some session =>
      let updatedSession :=
        Session.mk (Session.id session) (Session.documentId session)
          name (Session.createdAt session)
          (Session.lastMessageAt session) in
      put_storage
        (set_sessions s (JsMap.set id updatedSession (sessions s))
           (sessionIdCounter s)) ;;;
      ret (Some updatedSession)
  end.

(** *** Messages *)

(** The expression [getMessages] returns, over the store [s]. *)
Definition history (sessionId : Z) (s : MemStorage) : list Message.t :=
  Array_sort
    (fun a b => Message.timestamp a - Message.timestamp b)
    (filter (fun message => Message.documentId message =? sessionId)
       (JsMap.values (messages s))).

Definition getMessages (sessionId : Z) : M (list Message.t) :=
  s <- get_storage ;; ret (history sessionId s).

Definition createMessage (insertMessage : InsertMessage.t) : M Message.t :=
  s <- get_storage ;;
  let id := messageIdCounter s in
  put_storage (set_messages s (messages s) (id + 1)) ;;;
  timestamp <- new_Date ;;
  let message :=
    Message.mk id
      (InsertMessage.documentId insertMessage)
      (InsertMessage.role insertMessage)
      (InsertMessage.content insertMessage)
      timestamp in
  s <- get_storage ;;
  put_storage
    (set_messages s (JsMap.set id message (messages s))
       (messageIdCounter s)) ;;;
  (* Update session's lastMessageAt *)
  s <- get_storage ;;
  match
    Array_find
      (fun x => Session.id x =? InsertMessage.documentId insertMessage)
      (JsMap.values (sessions s))
  with
  | Some session =>
      lastMessageAt <- new_Date ;;
      let updatedSession :=
        Session.mk (Session.id session) (Session.documentId session)
          (Session.name session) (Session.createdAt session)
          lastMessageAt in
      s <- get_storage ;;
      put_storage
        (set_sessions s
           (JsMap.set (Session.id session) updatedSession (sessions s))
           (sessionIdCounter s)) ;;;
      ret message
  | None => ret message
  end.
End Storage.

(* ------------------------------------------------------------------------- *)
(** ** The completion client ([server/utils/groqApi.ts]) *)

Definition Z_to_string (z : Z) : string := NilZero.string_of_int (Z.to_int z).

Section Groq.
Variable env : Env.

(** [axios.post(GROQ_API_URL, { model, messages, ... }, { headers })] *)
Definition axios_post_call (messages : list GroqMessage.t)
  : M (option (list string)) :=
  fun w =>
    (axios_post env (List.length (posts w)) messages,
     mkWorld (storage w) (dates w) (posts w ++ [messages]) (files w)
       (fs_calls w) (uuids w)).

Definition groqChatCompletion (messages : list GroqMessage.t) : M string :=
  if String.eqb (GROQ_API_KEY env) "" then
    throw (Error "GROQ_API_KEY environment variable is not set")
  else
    try_catch
      (choices <- axios_post_call messages ;;
       match choices with
       | Some (content :: _) => ret content
       | _ => throw (Error "Invalid response from GROQ API")
       end)
      (fun error =>
         match error with
         | AxiosError _ (Some (status, data)) =>
             throw (Error ("GROQ API error: " ++ Z_to_string status
                           ++ " - " ++ data)%string)
         | _ => throw (Error "Failed to get response from GROQ API")
         end).
End Groq.

(* ------------------------------------------------------------------------- *)
(** ** The chat route ([POST /api/chat] in [server/routes.ts]) *)

(** The values a field of a JSON request body can take; [JUndefined] is a
    missing field.  A number that is not an integer names no entity of the
    store and is handled like any other absent id, so numbers are [Z]. *)
Inductive Json :=
| JUndefined
| JNull
| JBool (b : bool)
| JNumber (n : Z)
| JString (s : string)
| JObject.

Module ChatBody.
Record t := mk { documentId : Json; message : Json; sessionId : Json }.
End ChatBody.

(** [z.infer<typeof chatSchema>] *)
Module ChatData.
Record t := mk { documentId : Z; message : string; sessionId : option Z }.
End ChatData.

(** [chatSchema.safeParse(req.body)]: [None] when [success] is false. *)
Definition chatSchema_safeParse (body : ChatBody.t) : option ChatData.t :=
  match ChatBody.documentId body, ChatBody.message body with
  | JNumber documentId, JString message =>
      match ChatBody.sessionId body with
      | JUndefined => Some (ChatData.mk documentId message None)
      | JNumber sessionId =>
          Some (ChatData.mk documentId message (Some sessionId))
      | _ => None
      end
  | _, _ => None
  end.

Inductive Body :=
| Message_ (message : string)
| MessageError (message : string) (error : string)
| InvalidRequestBody (message : string)
| ChatReply (session : Session.t) (userMessage aiMessage : Message.t)
| Uploaded (document : Document.t) (session : Session.t).

(** [res.status(status).json(json)] *)
Record Response := mkResponse { status : Z; json : Body }.

(** The truth value of [sessionId : number | undefined] in [if (sessionId)]. *)
Definition truthy (sessionId : option Z) : bool :=
  match sessionId with
  | Some n => negb (n =? 0)
  | None => false
  end.

Definition systemPrompt (content : string) : string :=
  ("You're an AI assistant specialized in helping users analyze documents. Refer to the document content below when answering questions. If you can't find relevant information in the document, be honest about it.

Document Content:
" ++ content ++ "

Answer the question based on the document content. Be clear, concise, and helpful.")%string.

Definition formattedMessages (document : Document.t)
    (sessionMessages : list Message.t) : list GroqMessage.t :=
  GroqMessage.mk "system" (systemPrompt (Document.content document))
  :: map (fun msg => GroqMessage.mk (Message.role msg) (Message.content msg))
       sessionMessages.

Section Chat.
Variable env : Env.

(** The handler from "Add user message" on, once [session] is bound. *)
Definition chat_in_session (document : Document.t) (message : string)
    (session : Session.t) : M Response :=
  userMessage <-
    createMessage env (InsertMessage.mk (Session.id session) "user" message) ;;
  sessionMessages <- getMessages (Session.id session) ;;
  responseContent <-
    groqChatCompletion env (formattedMessages document sessionMessages) ;;
  aiMessage <-
    createMessage env
      (InsertMessage.mk (Session.id session) "assistant" responseContent) ;;
  ret (mkResponse 200 (ChatReply session userMessage aiMessage)).

(** "Get or create session": the session the request goes on with, or
    the response that ends it. *)
Definition get_or_create_session (document : Document.t)
    (data : ChatData.t) : M (Response + Session.t) :=
  let documentId := ChatData.documentId data in
  let sessionId := ChatData.sessionId data in
  if truthy sessionId then
    session <-
      getSession (match sessionId with Some n => n | None => 0 end) ;;
    match session with
    | None => ret (inl (mkResponse 404 (Message_ "Session not found")))
    | Some session => ret (inr session)
    end
  else
    session <-
      createSession env
        (InsertSession.mk documentId
           ("Chat about " ++ Document.name document)%string) ;;
    ret (inr session).

Definition handleChat (body : ChatBody.t) : M Response :=
  try_catch
    (match chatSchema_safeParse body with
     | None =>
         ret (mkResponse 400 (InvalidRequestBody "Invalid request body"))
     | Some data =>
         (* Verify document exists *)
         document <- getDocument (ChatData.documentId data) ;;
         match document with
         | None => ret (mkResponse 404 (Message_ "Document not found"))
         | Some document =>
             resolved <- get_or_create_session document data ;;
             match resolved with
             | inl response => ret response
             | inr session =>
                 chat_in_session document (ChatData.message data) session
             end
         end
     end)
    (fun error =>
       ret (mkResponse 500
              (MessageError "Failed to process chat request"
                 (error_message error)))).
End Chat.

(* ------------------------------------------------------------------------- *)
(** ** Text extraction ([server/utils/fileProcessing.ts]) *)

(** [Express.Multer.File], as [multer.memoryStorage()] fills it. *)
Module MulterFile.
Record t := mk {
  originalname : string;
  mimetype : string;
  size : Z;
  buffer : list Byte.byte
}.
End MulterFile.

Fixpoint file_get (path : string) (fs : list (string * list Byte.byte))
  : option (list Byte.byte) :=
  match fs with
  | [] => None
  | (p, d) :: fs' => if String.eqb p path then Some d else file_get path fs'
  end.

Definition file_remove (path : string) (fs : list (string * list Byte.byte))
  : list (string * list Byte.byte) :=
  filter (fun e => negb (String.eqb (fst e) path)) fs.

Definition file_put (path : string) (data : list Byte.byte)
    (fs : list (string * list Byte.byte)) : list (string * list Byte.byte) :=
  (path, data) :: file_remove path fs.

Definition includes (l : list string) (s : string) : bool :=
  existsb (String.eqb s) l.

Section FileProcessing.
Variable env : Env.

(** One call into [fs]: it fails when the environment says so, and
    otherwise acts on the files. *)
Definition fs_call {A}
    (op : list (string * list Byte.byte)
          -> Outcome A * list (string * list Byte.byte)) : M A :=
  fun w =>
    if fs_fault env (fs_calls w) then
      (Threw (Error "EIO"),
       mkWorld (storage w) (dates w) (posts w) (files w)
         (S (fs_calls w)) (uuids w))
    else
      let (r, files') := op (files w) in
      (r, mkWorld (storage w) (dates w) (posts w) files'
            (S (fs_calls w)) (uuids w)).

Definition fs_writeFile (path : string) (data : list Byte.byte) : M unit :=
  fs_call (fun fs => (Returned tt, file_put path data fs)).

Definition fs_readFile (path : string) : M (list Byte.byte) :=
  fs_call (fun fs =>
    match file_get path fs with
    | Some d => (Returned d, fs)
    | None => (Threw (Error "ENOENT"), fs)
    end).

Definition fs_unlink (path : string) : M unit :=
  fs_call (fun fs =>
    match file_get path fs with
    | Some _ => (Returned tt, file_remove path fs)
    | None => (Threw (Error "ENOENT"), fs)
    end).

Definition uuid_call : M string :=
  fun w =>
    (Returned (uuidv4 env (uuids w)),
     mkWorld (storage w) (dates w) (posts w) (files w)
       (fs_calls w) (S (uuids w))).

Definition lift_outcome {A} (o : Outcome A) : M A := fun w => (o, w).

(** The local [pdfParse]: a parse error becomes a canned text. *)
Definition pdfParse (dataBuffer : list Byte.byte) : M string :=
  try_catch (lift_outcome (pdf_parse env dataBuffer))
    (fun _ => ret "Failed to parse PDF content. Please try another file.").

Definition processFile (file : MulterFile.t) : M string :=
  try_catch
    (let tempDir := os_tmpdir env in
     uuid <- uuid_call ;;
     let tempFilePath :=
       path_join env tempDir
         (uuid ++ path_extname env (MulterFile.originalname file))%string in
     fs_writeFile tempFilePath (MulterFile.buffer file) ;;;
     try_catch
       (let fileType := MulterFile.mimetype file in
        content <-
          (if String.eqb fileType "application/pdf" then
             dataBuffer <- fs_readFile tempFilePath ;;
             pdfParse dataBuffer
           else if String.eqb fileType "application/msword"
                   || String.eqb fileType
                        "application/vnd.openxmlformats-officedocument.wordprocessingml.document"
           then
             data <- fs_readFile tempFilePath ;;
             lift_outcome (mammoth_extractRawText env data)
           else if String.eqb fileType "text/plain" then
             data <- fs_readFile tempFilePath ;;
             ret (utf8_decode env data)
           else throw (Error "Unsupported file type")) ;;
        fs_unlink tempFilePath ;;;
        ret content)
       (fun error =>
          try_catch (fs_unlink tempFilePath) (fun _ => ret tt) ;;;
          throw error))
    (fun _ => throw (Error "Failed to process file")).
End FileProcessing.

(* ------------------------------------------------------------------------- *)
(** ** The upload route ([POST /api/documents/upload]) *)

Definition validFileTypes : list string :=
  ["application/pdf"; "application/msword";
   "application/vnd.openxmlformats-officedocument.wordprocessingml.document";
   "text/plain"].

(** [limits.fileSize] *)
Definition fileSize_limit : Z := 10 * 1024 * 1024.

Section Upload.
Variable env : Env.

(** [fileFilter]: whether the callback is called with [true]. *)
Definition fileFilter (file : MulterFile.t) : bool :=
  let fileExtension :=
    toLowerCase env (path_extname env (MulterFile.originalname file)) in
  let mimeType := MulterFile.mimetype file in
  (String.eqb fileExtension ".pdf" && String.eqb mimeType "application/pdf")
  || (includes [".doc"; ".docx"] fileExtension
      && includes
           ["application/msword";
            "application/vnd.openxmlformats-officedocument.wordprocessingml.document"]
           mimeType)
  || (String.eqb fileExtension ".txt" && String.eqb mimeType "text/plain").

(** [upload.single('file')]: the value of [req.file], or the error the
    middleware hands to Express instead of running the handler.  The filter
    runs on the part's headers, before its bytes are read; the size limit is
    hit as soon as the part has [limits.fileSize] bytes, so a file of
    exactly that size is refused as well. *)
Definition upload_single (part : option MulterFile.t)
  : M (option MulterFile.t) :=
  match part with
  | None => ret None
  | Some file =>
      if negb (fileFilter file) then
        throw (Error "Invalid file format. Please upload only PDF, DOC, or TXT files.")
      else if fileSize_limit <=? MulterFile.size file then
        throw (Error "File too large")
      else ret (Some file)
  end.

(** The handler from "Create document record" on, once [content] is
    bound. *)
Definition store_upload (file : MulterFile.t) (content : string)
  : M Response :=
  (* Create document record *)
  document <-
    createDocument env
      (InsertDocument.mk
         (MulterFile.originalname file)
         (MulterFile.originalname file)
         (MulterFile.mimetype file)
         (MulterFile.size file)
         content) ;;
  (* Create initial session for this document *)
  session <-
    createSession env
      (InsertSession.mk (Document.id document)
         ("Chat about " ++ Document.name document)%string) ;;
  (* Add initial system message *)
  createMessage env
    (InsertMessage.mk (Session.id session) "system"
       ("I've processed your " ++ Document.name document
        ++ " document. What would you like to know about it?")%string) ;;;
  ret (mkResponse 201 (Uploaded document session)).

Definition handleUpload (req_file : option MulterFile.t) : M Response :=
  try_catch
    (match req_file with
     | None => ret (mkResponse 400 (Message_ "No file uploaded"))
     | Some file =>
         (* Check if file type is valid *)
         if negb (includes validFileTypes (MulterFile.mimetype file)) then
           ret (mkResponse 400
                  (Message_ "Invalid file format. Please upload only PDF, DOC, or TXT files."))
         else
           (* Process file to extract content *)
           content <- processFile env file ;;
           if String.eqb content "" then
             ret (mkResponse 400 (Message_ "Failed to process file"))
           else store_upload file content
     end)
    (fun error =>
       ret (mkResponse 500
              (MessageError "Failed to upload document"
                 (error_message error)))).

(** The whole route: the middleware, then the handler. *)
Definition upload_route (part : option MulterFile.t) : M Response :=
  req_file <- upload_single part ;; handleUpload req_file.
End Upload.

(* ------------------------------------------------------------------------- *)
(** ** A concrete environment, to run the handlers *)

Module Demo.
(** The suffix of [s] from its last dot, if a dot occurs. *)
Fixpoint last_dot (s : string) : option string :=
  match s with
  | EmptyString => None
  | String c s' =>
      match last_dot s' with
      | Some e => Some e
      | None => if Ascii.eqb c "." then Some (String c s') else None
      end
  end.

(** [path.extname] on a file name without directories. *)
Definition extname (s : string) : string :=
  match s with
  | EmptyString => ""
  | String _ s' => match last_dot s' with Some e => e | None => "" end
  end.

Definition lower (c : ascii) : ascii :=
  let n := nat_of_ascii c in
  if (Nat.leb 65 n && Nat.leb n 90)%bool then ascii_of_nat (n + 32) else c.

Fixpoint lowercase (s : string) : string :=
  match s with
  | EmptyString => EmptyString
  | String c s' => String (lower c) (lowercase s')
  end.

(** A clock that advances by one millisecond at each reading, an API that
    always answers, a healthy disk. *)
Definition env : Env :=
  mkEnv
    (fun n => 1000 + Z.of_nat n)
    "key"
    (fun _ _ => Returned (Some ["A greeting."]))
    "/tmp"
    (fun n => ("uuid" ++ Z_to_string (Z.of_nat n))%string)
    extname
    (fun a b => (a ++ "/" ++ b)%string)
    lowercase
    (fun _ => false)
    string_of_list_byte
    (fun d => Returned (string_of_list_byte d))
    (fun d => Returned (string_of_list_byte d)).

(** The same, with an API that is down. *)
Definition env_down : Env :=
  mkEnv (wall_clock env) "key"
    (fun _ _ => Threw (AxiosError "Network Error" None))
    (os_tmpdir env) (uuidv4 env) (path_extname env) (path_join env)
    (toLowerCase env) (fs_fault env) (utf8_decode env) (pdf_parse env)
    (mammoth_extractRawText env).

Definition notes_txt : MulterFile.t :=
  MulterFile.mk "notes.txt" "text/plain" 11
    (list_byte_of_string "Hello world").

Definition empty_txt : MulterFile.t :=
  MulterFile.mk "empty.txt" "text/plain" 0 [].

Definition other_txt : MulterFile.t :=
  MulterFile.mk "other.txt" "text/plain" 7 (list_byte_of_string "Goodbye").

(** The world after [notes.txt] has been uploaded: document 1, session 1
    and its system message 1. *)
Definition after_upload : World :=
  Eval vm_compute in snd (upload_route env (Some notes_txt) World_start).


Definition document1 : Document.t :=
  Document.mk 1 "notes.txt" "notes.txt" "text/plain" 11 "Hello world" 1000.


(** Session 1 as the store holds it after the upload. *)
Definition session1 : Session.t :=
  Session.mk 1 1 "Chat about notes.txt" 1001 1003.

Definition ask (documentId : Z) (sessionId : Json) : ChatBody.t :=
  ChatBody.mk (JNumber documentId) (JString "What is this?") sessionId.

(** The answer to a chat request, and a response that is none when the
    handler throws. *)
Definition answer (o : Outcome Response * World) : Response :=
  match fst o with
  | Returned r => r
  | Threw e => mkResponse 0 (Message_ (error_message e))
  end.

(** Asking about document 1 in session 1 after the upload. *)
Definition response1 : Response :=
  Eval vm_compute in
    answer (handleChat env (ask 1 (JNumber 1)) after_upload).

Definition after_chat1 : World :=
  Eval vm_compute in
    snd (handleChat env (ask 1 (JNumber 1)) after_upload).


Definition asked (documentId : Z) (sessionId : option Z) : ChatData.t :=
  ChatData.mk documentId "What is this?" sessionId.

(** Asking about document 1 without a session id after the upload. *)
Definition response_new : Response :=
  Eval vm_compute in
    answer (handleChat env (ask 1 JUndefined) after_upload).

Definition after_chat_new : World :=
  Eval vm_compute in
    snd (handleChat env (ask 1 JUndefined) after_upload).

(** The same request while the API is down. *)
Definition response_new_failed : Response :=
  Eval vm_compute in
    answer (handleChat env_down (ask 1 JUndefined) after_upload).

Definition after_failed_chat_new : World :=
  Eval vm_compute in
    snd (handleChat env_down (ask 1 JUndefined) after_upload).
End Demo.


(* ------------------------------------------------------------------------- *)
(** ** The invariant of the store *)

(** A map keyed by the id of its values: every entry sits under the id of
    its value, ids lie in [1 .. counter - 1], and no key occurs twice. *)
Definition keyed {V : Type} (id : V -> Z) (m : JsMap.t V) (counter : Z)
  : Prop :=
  Forall (fun e => fst e = id (snd e) /\ 1 <= fst e < counter) m
  /\ NoDup (JsMap.keys m).

(** The clock never runs backwards. *)
Definition clock_monotone (env : Env) : Prop :=
  forall n, wall_clock env n <= wall_clock env (S n).

(** Every map is keyed by id below its counter, and no stored time lies
    ahead of the clock. *)
Record store_inv (env : Env) (w : World) : Prop := mk_store_inv {
  inv_users :
    keyed User.id (users (storage w)) (userIdCounter (storage w));
  inv_documents :
    keyed Document.id (documents (storage w))
      (documentIdCounter (storage w));
  inv_sessions :
    keyed Session.id (sessions (storage w)) (sessionIdCounter (storage w));
  inv_messages :
    keyed Message.id (messages (storage w)) (messageIdCounter (storage w));
  inv_counters :
    1 <= userIdCounter (storage w) /\ 1 <= documentIdCounter (storage w)
    /\ 1 <= sessionIdCounter (storage w) /\ 1 <= messageIdCounter (storage w);
  inv_timestamp :
    Forall (fun m => Message.timestamp m <= wall_clock env (dates w))
      (JsMap.values (messages (storage w)));
  inv_lastMessageAt :
    Forall (fun x => Session.lastMessageAt x <= wall_clock env (dates w))
      (JsMap.values (sessions (storage w)))
}.

(** The part of [store_inv] that does not speak of the clock. *)
Record keys_inv (w : World) : Prop := mk_keys_inv {
  keys_users :
    keyed User.id (users (storage w)) (userIdCounter (storage w));
  keys_documents :
    keyed Document.id (documents (storage w))
      (documentIdCounter (storage w));
  keys_sessions :
    keyed Session.id (sessions (storage w)) (sessionIdCounter (storage w));
  keys_messages :
    keyed Message.id (messages (storage w)) (messageIdCounter (storage w));
  keys_counters :
    1 <= userIdCounter (storage w) /\ 1 <= documentIdCounter (storage w)
    /\ 1 <= sessionIdCounter (storage w) /\ 1 <= messageIdCounter (storage w)
}.

(** The session with its [lastMessageAt] replaced. *)
Definition touch (session : Session.t) (lastMessageAt : Z) : Session.t :=
  Session.mk (Session.id session) (Session.documentId session)
    (Session.name session) (Session.createdAt session) lastMessageAt.

(** The world after [n] more readings of the clock, with store [s]. *)
Definition later (w : World) (n : nat) (s : MemStorage) : World :=
  mkWorld s (n + dates w) (posts w) (files w) (fs_calls w) (uuids w).


(* ------------------------------------------------------------------------- *)
(** ** Sequences of operations on the store *)

Inductive Kind := KUser | KDocument | KSession | KMessage.

Definition Kind_eqb (a b : Kind) : bool :=
  match a, b with
  | KUser, KUser | KDocument, KDocument
  | KSession, KSession | KMessage, KMessage => true
  | _, _ => false
  end.

(** The counter the next identifier of a kind is taken from. *)
Definition counter (kind : Kind) (w : World) : Z :=
  match kind with
  | KUser => userIdCounter (storage w)
  | KDocument => documentIdCounter (storage w)
  | KSession => sessionIdCounter (storage w)
  | KMessage => messageIdCounter (storage w)
  end.

(** A call of a method of [IStorage] that writes. *)
Inductive Op :=
| CreateUser (insertUser : InsertUser.t)
| CreateDocument (insertDocument : InsertDocument.t)
| DeleteDocument (id : Z)
| CreateSession (insertSession : InsertSession.t)
| UpdateSessionName (id : Z) (name : string)
| CreateMessage (insertMessage : InsertMessage.t).

(** Performing one call; the result is the kind and identifier of the entity
    it created, if it created one. *)
Definition perform (env : Env) (op : Op) : M (option (Kind * Z)) :=
  match op with
  | CreateUser insertUser =>
      user <- createUser insertUser ;; ret (Some (KUser, User.id user))
  | CreateDocument insertDocument =>
      document <- createDocument env insertDocument ;;
      ret (Some (KDocument, Document.id document))
  | DeleteDocument id => deleteDocument id ;;; ret None
  | CreateSession insertSession =>
      session <- createSession env insertSession ;;
      ret (Some (KSession, Session.id session))
  | UpdateSessionName id name => updateSessionName id name ;;; ret None
  | CreateMessage insertMessage =>
      message <- createMessage env insertMessage ;;
      ret (Some (KMessage, Message.id message))
  end.

(** Performing a sequence of calls: the identifiers assigned, in order of
    creation, and the final world. *)
Fixpoint run (env : Env) (ops : list Op) (w : World)
  : list (Kind * Z) * World :=
  match ops with
  | [] => ([], w)
  | op :: ops' =>
      let (r, w') := perform env op w in
      let (log, w'') := run env ops' w' in
      (match r with Returned (Some a) => a :: log | _ => log end, w'')
  end.

(** The identifiers of one kind in a log. *)
Definition assigned (kind : Kind) (log : list (Kind * Z)) : list Z :=
  map snd (filter (fun a => Kind_eqb (fst a) kind) log).

(* ------------------------------------------------------------------------- *)
(** ** Names for what the theorems speak about *)

(** The message [createMessage(insertMessage)] builds in world [w]. *)
Definition message_of (env : Env) (insertMessage : InsertMessage.t)
    (w : World) : Message.t :=
  Message.mk (messageIdCounter (storage w))
    (InsertMessage.documentId insertMessage)
    (InsertMessage.role insertMessage)
    (InsertMessage.content insertMessage)
    (wall_clock env (dates w)).

(** A computation that touches neither the store, nor the clock, nor the
    API. *)
Definition frames {A} (m : M A) : Prop :=
  forall w,
    storage (snd (m w)) = storage w /\ dates (snd (m w)) = dates w
    /\ posts (snd (m w)) = posts w.


(** What an upload answered with 201 has added to the store of [w]: one
    document, one session of that document and one system message of that
    session, each as the last entry of its map, and nothing else. *)
Definition upload_stored (w w' : World) (document : Document.t)
    (session : Session.t) : Prop :=
  exists message lastMessageAt,
    documents (storage w')
    = documents (storage w) ++ [(Document.id document, document)]
    /\ Session.documentId session = Document.id document
    /\ sessions (storage w')
       = sessions (storage w)
         ++ [(Session.id session, touch session lastMessageAt)]
    /\ messages (storage w')
       = messages (storage w) ++ [(Message.id message, message)]
    /\ Message.role message = "system"
    /\ Message.documentId message = Session.id session
    /\ users (storage w') = users (storage w).

(** A computation that keeps the invariant of the store. *)
Definition preserves (env : Env) {A} (m : M A) : Prop :=
  forall w, store_inv env w -> store_inv env (snd (m w)).

(** A computation that keeps the keys of the store in order, whatever the
    clock reads. *)
Definition keeps_keys {A} (m : M A) : Prop :=
  forall w, keys_inv w -> keys_inv (snd (m w)).

(** What the server is asked to do: a chat request, an upload, or a call of
    a method of the store (as the other routes make them). *)
Inductive Request :=
| PostChat (body : ChatBody.t)
| PostUpload (part : option MulterFile.t)
| Call (op : Op).

Definition serve (env : Env) (request : Request) (w : World) : World :=
  match request with
  | PostChat body => snd (handleChat env body w)
  | PostUpload part => snd (upload_route env part w)
  | Call op => snd (perform env op w)
  end.

Definition serve_all (env : Env) (requests : list Request) (w : World)
  : World :=
  fold_left (fun w request => serve env request w) requests w.

(* ------------------------------------------------------------------------- *)
(** ** The other routes of [registerRoutes]

    A route parameter reaches its handler through [parseInt(req.params.id)],
    which yields an integer or [NaN]: the parameter is an [option Z], [None]
    being [NaN]. *)

Inductive Payload :=
| Health
| Documents (documents : list Document.t)
| TheDocument (document : Document.t)
| Sessions (sessions : list Session.t)
| TheSession (session : Session.t)
| Messages (messages : list Message.t)
| Notice (message : string)
| Failure (message : string) (error : string).

(** [res.status(code).json(payload)] *)
Record Reply := mkReply { code : Z; payload : Payload }.

(** [GET /api/health] *)
Definition get_health : M Reply := ret (mkReply 200 Health).

(** [GET /api/documents] *)
Definition get_documents : M Reply :=
  try_catch
    (documents <- getDocuments ;; ret (mkReply 200 (Documents documents)))
    (fun error =>
       ret (mkReply 500
              (Failure "Failed to retrieve documents" (error_message error)))).

(** [GET /api/documents/:id] *)
Definition get_document (id : option Z) : M Reply :=
  try_catch
    (match id with
     | None => ret (mkReply 400 (Notice "Invalid document ID"))
     | Some id =>
         document <- getDocument id ;;
         match document with
         | None => ret (mkReply 404 (Notice "Document not found"))
         | Some document => ret (mkReply 200 (TheDocument document))
         end
     end)
    (fun error =>
       ret (mkReply 500
              (Failure "Failed to retrieve document" (error_message error)))).

(** [DELETE /api/documents/:id] *)
Definition delete_document (id : option Z) : M Reply :=
  try_catch
    (match id with
     | None => ret (mkReply 400 (Notice "Invalid document ID"))
     | Some id =>
         document <- getDocument id ;;
         match document with
         | None => ret (mkReply 404 (Notice "Document not found"))
         | Some _ =>
             deleteDocument id ;;;
             ret (mkReply 200 (Notice "Document deleted successfully"))
         end
     end)
    (fun error =>
       ret (mkReply 500
              (Failure "Failed to delete document" (error_message error)))).

(** [GET /api/documents/:id/sessions] *)
Definition get_document_sessions (id : option Z) : M Reply :=
  try_catch
    (match id with
     | None => ret (mkReply 400 (Notice "Invalid document ID"))
     | Some id =>
         document <- getDocument id ;;
         match document with
         | None => ret (mkReply 404 (Notice "Document not found"))
         | Some _ =>
             sessions <- getSessions id ;;
             ret (mkReply 200 (Sessions sessions))
         end
     end)
    (fun error =>
       ret (mkReply 500
              (Failure "Failed to retrieve sessions" (error_message error)))).

(** The greeting every new session starts with. *)
Definition greeting (document : Document.t) : string :=
  ("I've processed your " ++ Document.name document
   ++ " document. What would you like to know about it?")%string.

(** [POST /api/documents/:id/sessions] *)
Definition post_document_sessions (env : Env) (id : option Z) : M Reply :=
  try_catch
    (match id with
     | None => ret (mkReply 400 (Notice "Invalid document ID"))
     | Some id =>
         document <- getDocument id ;;
         match document with
         | None => ret (mkReply 404 (Notice "Document not found"))
         | Some document =>
             session <-
               createSession env
                 (InsertSession.mk id
                    ("Chat about " ++ Document.name document)%string) ;;
             (* Add initial system message *)
             createMessage env
               (InsertMessage.mk (Session.id session) "system"
                  (greeting document)) ;;;
             ret (mkReply 201 (TheSession session))
         end
     end)
    (fun error =>
       ret (mkReply 500
              (Failure "Failed to create session" (error_message error)))).

(** [GET /api/sessions/:id/messages] *)
Definition get_session_messages (id : option Z) : M Reply :=
  try_catch
    (match id with
     | None => ret (mkReply 400 (Notice "Invalid session ID"))
     | Some id =>
         session <- getSession id ;;
         match session with
         | None => ret (mkReply 404 (Notice "Session not found"))
         | Some _ =>
             messages <- getMessages id ;;
             ret (mkReply 200 (Messages messages))
         end
     end)
    (fun error =>
       ret (mkReply 500
              (Failure "Failed to retrieve messages" (error_message error)))).

(** A request to one of the routes. *)
Inductive Route :=
| GetHealth
| GetDocuments
| GetDocument (id : option Z)
| Upload (part : option MulterFile.t)
| DeleteDocumentById (id : option Z)
| GetSessions (id : option Z)
| PostSession (id : option Z)
| GetMessages (id : option Z)
| Chat (body : ChatBody.t).

(** The world after a request has been handled. *)
Definition route (env : Env) (r : Route) (w : World) : World :=
  match r with
  | GetHealth => snd (get_health w)
  | GetDocuments => snd (get_documents w)
  | GetDocument id => snd (get_document id w)
  | Upload part => snd (upload_route env part w)
  | DeleteDocumentById id => snd (delete_document id w)
  | GetSessions id => snd (get_document_sessions id w)
  | PostSession id => snd (post_document_sessions env id w)
  | GetMessages id => snd (get_session_messages id w)
  | Chat body => snd (handleChat env body w)
  end.

Definition routes (env : Env) (rs : list Route) (w : World) : World :=
  fold_left (fun w r => route env r w) rs w.

(** What the routes keep beyond [store_inv]: every message belongs to a
    stored session, and every session to a document identifier that has
    been handed out. *)
Record refs_inv (w : World) : Prop := mk_refs_inv {
  refs_messages :
    Forall
      (fun m => JsMap.has (Message.documentId m) (sessions (storage w)) = true)
      (JsMap.values (messages (storage w)));
  refs_sessions :
    Forall
      (fun x =>
         1 <= Session.documentId x < documentIdCounter (storage w))
      (JsMap.values (sessions (storage w)))
}.

(** The messages are stored in the order of their timestamps. *)
Definition chronological (w : World) : Prop :=
  StronglySorted (fun a b => Message.timestamp a <= Message.timestamp b)
    (JsMap.values (messages (storage w))).

(** Everything the routes keep. *)
Definition route_inv (env : Env) (w : World) : Prop :=
  store_inv env w /\ refs_inv w /\ chronological w.

(* ------------------------------------------------------------------------- *)
(** ** More concrete inputs *)

Module Sample.
Definition alice : InsertUser.t := InsertUser.mk "alice" "secret".

(** A second registration under the same name. *)
Definition alice_again : InsertUser.t := InsertUser.mk "alice" "other".

(** The world after [alice] has been created. *)
Definition with_alice : World :=
  Eval vm_compute in snd (createUser alice World_start).




(** [Demo.env] with a clock that is set back by 100 ms after its fourth
    reading. *)
Definition env_clock_back : Env :=
  mkEnv
    (fun n => if (n <? 4)%nat then 1000 + Z.of_nat n else 900 + Z.of_nat n)
    "key" (axios_post Demo.env)
    (os_tmpdir Demo.env) (uuidv4 Demo.env) (path_extname Demo.env)
    (path_join Demo.env) (toLowerCase Demo.env) (fs_fault Demo.env)
    (utf8_decode Demo.env) (pdf_parse Demo.env)
    (mammoth_extractRawText Demo.env).

(** [Demo.env] with a disk on which every call fails. *)
Definition env_disk_full : Env :=
  mkEnv (wall_clock Demo.env) "key" (axios_post Demo.env)
    (os_tmpdir Demo.env) (uuidv4 Demo.env) (path_extname Demo.env)
    (path_join Demo.env) (toLowerCase Demo.env) (fun _ => true)
    (utf8_decode Demo.env) (pdf_parse Demo.env)
    (mammoth_extractRawText Demo.env).
End Sample.

(** The path of the temporary file [processFile] writes in world [w]. *)
Definition tempFilePath (env : Env) (file : MulterFile.t) (w : World)
  : string :=
  path_join env (os_tmpdir env)
    (uuidv4 env (uuids w)
     ++ path_extname env (MulterFile.originalname file))%string.


(** Some requests in a row: two uploads, a chat in session 1, the deletion
    of document 1, a new session for document 2. *)
Definition Sample_requests : list Route :=
  [Upload (Some Demo.notes_txt); Upload (Some Demo.other_txt);
   Chat (Demo.ask 1 (JNumber 1)); DeleteDocumentById (Some 1);
   PostSession (Some 2)].

Definition Sample_world : World :=
  Eval vm_compute in routes Demo.env Sample_requests World_start.
(* ------------------------------------------------------------------------- *)
(** ** Facts about [JsMap] *)

Section JsMapFacts.
Variable V : Type.
Implicit Types (m : JsMap.t V) (k : Z) (v : V).

Lemma get_set_eq k v m : JsMap.get k (JsMap.set k v m) = Some v.
Proof.
  induction m as [|[k' v'] m IH]; simpl.
  - now rewrite Z.eqb_refl.
  - destruct (k' =? k) eqn:E; simpl.
    + now rewrite Z.eqb_refl.
    + now rewrite E.
Qed.

Lemma get_set_neq k j v m :
  k <> j -> JsMap.get j (JsMap.set k v m) = JsMap.get j m.
Proof.
  intros Hkj. induction m as [|[k' v'] m IH]; simpl.
  - destruct (k =? j) eqn:E; [apply Z.eqb_eq in E; contradiction | easy].
  - destruct (k' =? k) eqn:E; simpl.
    + apply Z.eqb_eq in E; subst k'.
      destruct (k =? j) eqn:E'; [apply Z.eqb_eq in E'; contradiction | easy].
    + now rewrite IH.
Qed.

Lemma get_None_keys k m : JsMap.get k m = None <-> ~ In k (JsMap.keys m).
Proof.
  induction m as [|[k' v'] m IH]; simpl.
  - tauto.
  - destruct (k' =? k) eqn:E.
    + apply Z.eqb_eq in E. split; [discriminate | tauto].
    + apply Z.eqb_neq in E. rewrite IH. tauto.
Qed.

Lemma get_Some_In k v m : JsMap.get k m = Some v -> In (k, v) m.
Proof.
  induction m as [|[k' v'] m IH]; simpl; [discriminate|].
  destruct (k' =? k) eqn:E.
  - apply Z.eqb_eq in E. intros [= ->]. left. now subst.
  - auto.
Qed.

(** A new key goes last. *)
Lemma set_fresh k v m :
  JsMap.get k m = None -> JsMap.set k v m = m ++ [(k, v)].
Proof.
  induction m as [|[k' v'] m IH]; simpl; [easy|].
  destruct (k' =? k); [discriminate|]. intros H. now rewrite IH.
Qed.

(** An existing key keeps its place. *)
Lemma keys_set_present k v v0 m :
  JsMap.get k m = Some v0 -> JsMap.keys (JsMap.set k v m) = JsMap.keys m.
Proof.
  induction m as [|[k' v'] m IH]; simpl; [discriminate|].
  destruct (k' =? k) eqn:E; simpl.
  - apply Z.eqb_eq in E. now subst.
  - intros H. now rewrite IH.
Qed.


Lemma get_remove_eq k m : JsMap.get k (JsMap.remove k m) = None.
Proof.
  induction m as [|[k' v'] m IH]; simpl; [easy|].
  destruct (k' =? k) eqn:E; simpl; [easy|]. now rewrite E.
Qed.

Lemma get_remove_neq k j m :
  k <> j -> JsMap.get j (JsMap.remove k m) = JsMap.get j m.
Proof.
  intros Hkj. induction m as [|[k' v'] m IH]; simpl; [easy|].
  destruct (k' =? k) eqn:E; simpl.
  - apply Z.eqb_eq in E. subst k'.
    destruct (k =? j) eqn:E'; [apply Z.eqb_eq in E'; contradiction | easy].
  - now rewrite IH.
Qed.


(** *** Maps keyed by the id of their values *)
Variable id : V -> Z.
Local Abbreviation keyed := (keyed id).

Lemma keyed_empty : keyed JsMap.empty 1.
Proof. split; constructor. Qed.

Lemma keyed_get m c k v :
  keyed m c -> JsMap.get k m = Some v -> id v = k /\ 1 <= k < c.
Proof.
  intros [HF _] Hg. apply get_Some_In in Hg.
  rewrite Forall_forall in HF. specialize (HF _ Hg). simpl in HF.
  intuition congruence.
Qed.

Lemma keyed_fresh m c j : keyed m c -> c <= j -> JsMap.get j m = None.
Proof.
  intros [HF _] Hj. apply get_None_keys. intros Hin.
  apply in_map_iff in Hin as [[k v] [Hk Hin]]. simpl in Hk. subst k.
  rewrite Forall_forall in HF. specialize (HF _ Hin). simpl in HF. lia.
Qed.


Lemma keyed_set_fresh m c v :
  keyed m c -> id v = c -> 1 <= c -> keyed (JsMap.set c v m) (c + 1).
Proof.
  intros Hk Hid Hc.
  assert (Hg : JsMap.get c m = None) by (eapply keyed_fresh; eauto; lia).
  rewrite (set_fresh _ _ _ Hg). destruct Hk as [HF HN]. split.
  - apply Forall_app. split.
    + eapply Forall_impl; [|exact HF]. simpl. intros e He. lia.
    + constructor; [simpl; lia | constructor].
  - unfold JsMap.keys. rewrite map_app. simpl.
    apply NoDup_app; [exact HN | repeat constructor; simpl; tauto |].
    intros x Hx [<-|[]]. now apply get_None_keys in Hg.
Qed.

Lemma keyed_set_present m c k v v0 :
  keyed m c -> JsMap.get k m = Some v0 -> id v = k ->
  keyed (JsMap.set k v m) c.
Proof.
  intros Hk Hg Hid. pose proof (keyed_get m c k v0 Hk Hg) as [_ Hr].
  destruct Hk as [HF HN]. split.
  - clear HN. induction m as [|[k' v'] m IH]; simpl in *; [discriminate|].
    inversion_clear HF as [|? ? He HF'].
    destruct (k' =? k) eqn:E.
    + constructor; [simpl; lia | exact HF'].
    + constructor; [exact He | auto].
  - now rewrite (keys_set_present k v v0 m Hg).
Qed.

Lemma keyed_remove m c k : keyed m c -> keyed (JsMap.remove k m) c.
Proof.
  intros [HF HN]. split.
  - unfold JsMap.remove. apply Forall_forall. intros e He.
    apply filter_In in He as [He _].
    rewrite Forall_forall in HF. auto.
  - clear HF. induction m as [|[k' v'] m IH]; simpl in *; [constructor|].
    inversion HN as [|? ? Hn HN']; subst.
    destruct (k' =? k); simpl; [auto|].
    constructor; [|auto]. intros Hin. apply Hn.
    apply in_map_iff in Hin as [e [He Hin]].
    apply filter_In in Hin as [Hin _].
    apply in_map_iff. eauto.
Qed.

(** Looking a value up by its id field finds the entry under that key. *)
Lemma find_keyed m c k :
  keyed m c ->
  Array_find (fun x => id x =? k) (JsMap.values m) = JsMap.get k m.
Proof.
  intros [HF _]. induction m as [|[k' v'] m IH]; simpl; [easy|].
  inversion HF as [|? ? He HF']; subst. simpl in He.
  destruct He as [He _]. rewrite <- He.
  destruct (k' =? k); [easy | auto].
Qed.
End JsMapFacts.

(* ------------------------------------------------------------------------- *)
(** ** Facts about [Array_sort] with a comparator [(a, b) => key a - key b] *)

Section SortFacts.
Variable A : Type.
Variable key : A -> Z.

Local Abbreviation ascending := (fun a b : A => key a - key b).
Local Abbreviation le_key := (fun a b : A => key a <= key b).

Lemma sort_insert_perm (cmp : A -> A -> Z) x l :
  Permutation (sort_insert cmp x l) (x :: l).
Proof.
  induction l as [|y l IH]; simpl; [reflexivity|].
  destruct (cmp x y <=? 0); [reflexivity|].
  rewrite IH. apply perm_swap.
Qed.

Lemma Array_sort_perm (cmp : A -> A -> Z) l :
  Permutation (Array_sort cmp l) l.
Proof.
  induction l as [|x l IH]; simpl; [reflexivity|].
  rewrite sort_insert_perm. now constructor.
Qed.

Lemma sort_insert_HdRel x y l :
  le_key y x -> HdRel le_key y l -> HdRel le_key y (sort_insert ascending x l).
Proof.
  intros Hyx Hl. destruct l as [|z l]; simpl.
  - now constructor.
  - destruct (key x - key z <=? 0); constructor; [exact Hyx|].
    now inversion Hl.
Qed.

Lemma sort_insert_sorted x l :
  Sorted le_key l -> Sorted le_key (sort_insert ascending x l).
Proof.
  induction 1 as [|y l Hs IH Hh]; simpl.
  - repeat constructor.
  - destruct (key x - key y <=? 0) eqn:E.
    + constructor; [now constructor|]. constructor.
      apply Z.leb_le in E. lia.
    + constructor; [exact IH|]. apply sort_insert_HdRel; [|exact Hh].
      apply Z.leb_gt in E. lia.
Qed.

Lemma Array_sort_sorted l : Sorted le_key (Array_sort ascending l).
Proof.
  induction l as [|x l IH]; simpl; [constructor|].
  now apply sort_insert_sorted.
Qed.

Lemma Array_sort_strongly_sorted l :
  StronglySorted le_key (Array_sort ascending l).
Proof.
  apply Sorted_StronglySorted; [|apply Array_sort_sorted].
  intros a b c Hab Hbc. simpl in *. lia.
Qed.

(** An element that is not older than any other and was inserted last
    comes out last. *)
Lemma sort_insert_app_last x y l :
  key y <= key x ->
  sort_insert ascending y (l ++ [x]) = sort_insert ascending y l ++ [x].
Proof.
  intros Hyx. induction l as [|z l IH]; simpl.
  - destruct (key y - key x <=? 0) eqn:E; [easy|].
    apply Z.leb_gt in E. lia.
  - destruct (key y - key z <=? 0); [easy|]. now rewrite IH.
Qed.

Lemma Array_sort_app_last x l :
  Forall (fun y => key y <= key x) l ->
  Array_sort ascending (l ++ [x]) = Array_sort ascending l ++ [x].
Proof.
  induction 1 as [|y l Hy Hl IH]; simpl; [easy|].
  rewrite IH. now apply sort_insert_app_last.
Qed.
End SortFacts.

Lemma clock_monotone_le env n m :
  clock_monotone env -> (n <= m)%nat -> wall_clock env n <= wall_clock env m.
Proof.
  intros Hc. induction 1 as [|m Hle IH]; [lia|].
  specialize (Hc m). lia.
Qed.

Lemma store_inv_start env : store_inv env World_start.
Proof.
  constructor; simpl; try apply keyed_empty; try constructor; lia.
Qed.

(* ------------------------------------------------------------------------- *)
(** ** What the methods of the store do to a world that satisfies the
       invariant *)

Section StorageRuns.
Variable env : Env.

Lemma createSession_run insertSession w :
  store_inv env w ->
  let s := storage w in
  let now := wall_clock env (dates w) in
  let session :=
    Session.mk (sessionIdCounter s)
      (InsertSession.documentId insertSession)
      (InsertSession.name insertSession) now now in
  createSession env insertSession w =
    (Returned session,
     later w 1
       (set_sessions s (sessions s ++ [(sessionIdCounter s, session)])
          (sessionIdCounter s + 1))).
Proof.
  intros Hinv. pose proof (inv_sessions _ _ Hinv) as Hk.
  pose proof (keyed_fresh _ _ _ _ _ Hk (Z.le_refl _)) as Hfresh.
  destruct w as [s d p f c u]. destruct s. simpl in *.
  unfold createSession, bind, get_storage, put_storage, new_Date, ret,
    with_storage, later, set_sessions. simpl.
  now rewrite (set_fresh _ _ _ _ Hfresh).
Qed.

Lemma createMessage_run insertMessage w :
  store_inv env w ->
  let s := storage w in
  let message :=
    Message.mk (messageIdCounter s)
      (InsertMessage.documentId insertMessage)
      (InsertMessage.role insertMessage)
      (InsertMessage.content insertMessage)
      (wall_clock env (dates w)) in
  let s1 :=
    set_messages s (messages s ++ [(messageIdCounter s, message)])
      (messageIdCounter s + 1) in
  createMessage env insertMessage w =
    (Returned message,
     match JsMap.get (InsertMessage.documentId insertMessage) (sessions s) with
     | Some session =>
         later w 2
           (set_sessions s1
              (JsMap.set (InsertMessage.documentId insertMessage)
                 (touch session (wall_clock env (S (dates w))))
                 (sessions s))
              (sessionIdCounter s))
     | None => later w 1 s1
     end).
Proof.
  intros Hinv. pose proof (inv_sessions _ _ Hinv) as Hks.
  pose proof (inv_messages _ _ Hinv) as Hkm.
  pose proof (keyed_fresh _ _ _ _ _ Hkm (Z.le_refl _)) as Hfresh.
  pose proof (find_keyed _ Session.id _ _
                (InsertMessage.documentId insertMessage) Hks) as Hfind.
  destruct w as [s d p f c u]. destruct s. simpl in *.
  unfold createMessage, bind, get_storage, put_storage, new_Date, ret,
    with_storage, later, set_sessions, set_messages. simpl.
  rewrite Hfind, (set_fresh _ _ _ _ Hfresh).
  destruct (JsMap.get (InsertMessage.documentId insertMessage) sessions0)
    as [session|] eqn:Hg; simpl; [|reflexivity].
  unfold touch. destruct (keyed_get _ _ _ _ _ _ Hks Hg) as [-> _].
  reflexivity.
Qed.
End StorageRuns.

(* ------------------------------------------------------------------------- *)
(** ** The invariant is preserved *)

Lemma Forall_values_set {V} (P : V -> Prop) k v (m : JsMap.t V) :
  Forall P (JsMap.values m) -> P v -> Forall P (JsMap.values (JsMap.set k v m)).
Proof.
  intros HF Hv. induction m as [|[k' v'] m IH]; simpl in *.
  - now constructor.
  - inversion_clear HF as [|? ? Hv' HF'].
    destruct (k' =? k); simpl; constructor; auto.
Qed.

Lemma Forall_values_app {V} (P : V -> Prop) k v (m : JsMap.t V) :
  Forall P (JsMap.values m) -> P v -> Forall P (JsMap.values (m ++ [(k, v)])).
Proof.
  intros HF Hv. unfold JsMap.values. rewrite map_app. apply Forall_app.
  split; [exact HF | now constructor].
Qed.

Lemma Forall_le_later {A} (f : A -> Z) env n m (l : list A) :
  clock_monotone env -> (n <= m)%nat ->
  Forall (fun x => f x <= wall_clock env n) l ->
  Forall (fun x => f x <= wall_clock env m) l.
Proof.
  intros Hc Hnm. apply Forall_impl. intros x Hx.
  pose proof (clock_monotone_le env n m Hc Hnm). lia.
Qed.

Section Preservation.
Variable env : Env.
Hypothesis Hclock : clock_monotone env.

Ltac still_behind :=
  match goal with
  | H : Forall (fun x => _ <= wall_clock env ?n) ?l
    |- Forall (fun x => _ <= wall_clock env _) ?l =>
      apply (Forall_le_later _ env n); [exact Hclock | simpl; lia | exact H]
  end.

Lemma createUser_inv insertUser w :
  store_inv env w -> store_inv env (snd (createUser insertUser w)).
Proof.
  intros [Hu Hd Hs Hm Hc Ht Hl]. constructor; simpl; try assumption.
  - apply keyed_set_fresh; [exact Hu | reflexivity | lia].
  - lia.
Qed.

Lemma createDocument_inv insertDocument w :
  store_inv env w -> store_inv env (snd (createDocument env insertDocument w)).
Proof.
  intros [Hu Hd Hs Hm Hc Ht Hl]. constructor; simpl; try assumption.
  - apply keyed_set_fresh; [exact Hd | reflexivity | lia].
  - lia.
  - still_behind.
  - still_behind.
Qed.

Lemma deleteDocument_inv id w :
  store_inv env w -> store_inv env (snd (deleteDocument id w)).
Proof.
  intros [Hu Hd Hs Hm Hc Ht Hl]. constructor; simpl; try assumption.
  now apply keyed_remove.
Qed.

Lemma createSession_inv insertSession w :
  store_inv env w -> store_inv env (snd (createSession env insertSession w)).
Proof.
  intros Hinv. rewrite (createSession_run env insertSession w Hinv).
  destruct Hinv as [Hu Hd Hs Hm Hc Ht Hl]. constructor; simpl; try assumption.
  - rewrite <- set_fresh
      by (eapply keyed_fresh; [exact Hs | apply Z.le_refl]).
    apply keyed_set_fresh; [exact Hs | reflexivity | lia].
  - lia.
  - still_behind.
  - apply Forall_values_app; [still_behind|].
    simpl. apply Hclock.
Qed.

Lemma updateSessionName_inv id name w :
  store_inv env w -> store_inv env (snd (updateSessionName id name w)).
Proof.
  intros Hinv. pose proof Hinv as [Hu Hd Hs Hm Hc Ht Hl].
  unfold updateSessionName, bind, get_storage. simpl.
  destruct (JsMap.get id (sessions (storage w))) as [session|] eqn:Hg;
    simpl; [|exact Hinv].
  constructor; simpl; try assumption.
  - eapply keyed_set_present; [exact Hs | exact Hg |].
    simpl. now destruct (keyed_get _ _ _ _ _ _ Hs Hg).
  - apply Forall_values_set; [exact Hl|]. simpl.
    rewrite Forall_forall in Hl. apply Hl.
    apply in_map_iff. exists (id, session). split; [easy|].
    now apply get_Some_In.
Qed.

Lemma createMessage_inv insertMessage w :
  store_inv env w -> store_inv env (snd (createMessage env insertMessage w)).
Proof.
  intros Hinv. rewrite (createMessage_run env insertMessage w Hinv).
  destruct Hinv as [Hu Hd Hs Hm Hc Ht Hl]. simpl.
  assert (Hm' :
    keyed Message.id
      (messages (storage w)
       ++ [(messageIdCounter (storage w),
            Message.mk (messageIdCounter (storage w))
              (InsertMessage.documentId insertMessage)
              (InsertMessage.role insertMessage)
              (InsertMessage.content insertMessage)
              (wall_clock env (dates w)))])
      (messageIdCounter (storage w) + 1)).
  { rewrite <- set_fresh
      by (eapply keyed_fresh; [exact Hm | apply Z.le_refl]).
    apply keyed_set_fresh; [exact Hm | reflexivity | lia]. }
  destruct (JsMap.get (InsertMessage.documentId insertMessage)
              (sessions (storage w))) as [session|] eqn:Hg;
    constructor; simpl; try assumption; try lia.
  - eapply keyed_set_present; [exact Hs | exact Hg |].
    simpl. now destruct (keyed_get _ _ _ _ _ _ Hs Hg).
  - apply Forall_values_app;
      [still_behind|].
    simpl. apply (clock_monotone_le env _ _ Hclock). lia.
  - apply Forall_values_set;
      [still_behind|].
    simpl. apply Hclock.
  - apply Forall_values_app; [still_behind|].
    simpl. apply Hclock.
  - still_behind.
Qed.
End Preservation.

(* ------------------------------------------------------------------------- *)
(** ** Sequences of operations *)

Lemma snd_bind_ret {A B} (m : M A) (f : A -> B) w :
  snd (bind m (fun x => ret (f x)) w) = snd (m w).
Proof. unfold bind, ret. now destruct (m w) as [[a|e] w']. Qed.

Lemma perform_inv env op w :
  clock_monotone env -> store_inv env w ->
  store_inv env (snd (perform env op w)).
Proof.
  intros Hc Hinv. destruct op; unfold perform; rewrite snd_bind_ret.
  - now apply createUser_inv.
  - now apply createDocument_inv.
  - now apply deleteDocument_inv.
  - now apply createSession_inv.
  - now apply updateSessionName_inv.
  - now apply createMessage_inv.
Qed.

Lemma run_inv env ops w :
  clock_monotone env -> store_inv env w -> store_inv env (snd (run env ops w)).
Proof.
  intros Hc. revert w. induction ops as [|op ops IH]; intros w Hinv; simpl.
  - exact Hinv.
  - pose proof (perform_inv env op w Hc Hinv) as H1.
    destruct (perform env op w) as [r w1]. simpl in H1.
    specialize (IH w1 H1). now destruct (run env ops w1).
Qed.

(** Every world a sequence of store operations leads to from start-up
    satisfies the invariant. *)
Lemma reachable_inv env ops :
  clock_monotone env -> store_inv env (snd (run env ops World_start)).
Proof. intros Hc. apply run_inv; [exact Hc | apply store_inv_start]. Qed.

Lemma Kind_eqb_eq a b : Kind_eqb a b = true <-> a = b.
Proof. destruct a, b; simpl; split; intros H; congruence. Qed.

(** A creating call takes the counter of its kind as the identifier and
    moves that counter one up; nothing else moves a counter. *)
Lemma perform_counter env op w :
  match perform env op w with
  | (Returned (Some (k, i)), w') =>
      i = counter k w /\ counter k w' = i + 1
      /\ forall k', k' <> k -> counter k' w' = counter k' w
  | (Returned None, w') => forall k, counter k w' = counter k w
  | (Threw _, _) => False
  end.
Proof.
  destruct op; unfold perform, bind; simpl.
  - repeat split. intros [] H; simpl; congruence.
  - repeat split. intros [] H; simpl; congruence.
  - intros []; reflexivity.
  - repeat split. intros [] H; simpl; congruence.
  - unfold updateSessionName, bind, get_storage. simpl.
    destruct (JsMap.get id (sessions (storage w))); simpl;
      intros []; reflexivity.
  - unfold createMessage, bind, get_storage. simpl.
    destruct (Array_find _ _); simpl;
      (repeat split; intros [] H; simpl; congruence).
Qed.

Lemma run_assigned env kind ops : forall w,
  counter kind w <= counter kind (snd (run env ops w))
  /\ Forall (fun i => counter kind w <= i < counter kind (snd (run env ops w)))
       (assigned kind (fst (run env ops w)))
  /\ StronglySorted Z.lt (assigned kind (fst (run env ops w))).
Proof.
  induction ops as [|op ops IH]; intros w; simpl.
  - repeat split; try constructor. lia.
  - pose proof (perform_counter env op w) as Hp.
    destruct (perform env op w) as [r w1].
    specialize (IH w1). destruct (run env ops w1) as [log w2]. simpl in *.
    destruct IH as (Hle & Hall & Hsorted).
    destruct r as [[[k i]|]|e]; [| |contradiction].
    + destruct Hp as (Hi & Hnext & Hother).
      unfold assigned in *. simpl.
      destruct (Kind_eqb k kind) eqn:E; simpl.
      * apply Kind_eqb_eq in E. subst k. repeat split; [lia| |].
        -- constructor; [lia|].
           eapply Forall_impl; [|exact Hall]. simpl. intros j Hj. lia.
        -- constructor; [exact Hsorted|].
           eapply Forall_impl; [|exact Hall]. simpl. intros j Hj. lia.
      * assert (Hk : kind <> k).
        { intros ->. destruct k; discriminate. }
        rewrite (Hother kind Hk) in *. repeat split; assumption.
    + rewrite (Hp kind) in *. repeat split; assumption.
Qed.

(* ------------------------------------------------------------------------- *)
(** ** The store *)

(** C6. Along every sequence of creations, deletions and renamings from
    start-up, the identifiers handed out within one kind of entity are
    positive, strictly increasing in the order of creation, and pairwise
    distinct: none is handed out twice, whatever was deleted in between. *)
Theorem identifiers_never_reused env ops kind :
  let ids := assigned kind (fst (run env ops World_start)) in
  Forall (fun i => 1 <= i) ids /\ StronglySorted Z.lt ids /\ NoDup ids.
Proof.
  destruct (run_assigned env kind ops World_start) as (_ & Hall & Hsorted).
  simpl. repeat split.
  - eapply Forall_impl; [|exact Hall]. simpl. intros i Hi.
    destruct kind; simpl in Hi; lia.
  - exact Hsorted.
  - clear Hall. induction Hsorted as [|i l Hs IH Hi]; constructor; [|exact IH].
    intros Hin. rewrite Forall_forall in Hi. specialize (Hi i Hin). lia.
Qed.

(** C7. [deleteDocument(id)] answers [true] exactly when a document was
    stored under [id]; afterwards none is, every other document is as
    before, and the users, the sessions, the messages and all four counters
    are untouched. *)
Theorem deleteDocument_no_cascade id w :
  exists w',
    deleteDocument id w
    = (Returned (JsMap.has id (documents (storage w))), w')
    /\ (JsMap.has id (documents (storage w)) = true
        <-> exists document,
              JsMap.get id (documents (storage w)) = Some document)
    /\ JsMap.get id (documents (storage w')) = None
    /\ (forall j, j <> id ->
          JsMap.get j (documents (storage w'))
          = JsMap.get j (documents (storage w)))
    /\ sessions (storage w') = sessions (storage w)
    /\ messages (storage w') = messages (storage w)
    /\ users (storage w') = users (storage w)
    /\ (forall kind, counter kind w' = counter kind w).
Proof.
  eexists. split; [reflexivity|]. simpl. repeat split.
  - unfold JsMap.has.
    destruct (JsMap.get id (documents (storage w))) as [d|];
      [eauto | discriminate].
  - unfold JsMap.has. intros [d ->]. reflexivity.
  - apply get_remove_eq.
  - intros j Hj. now apply get_remove_neq.
Qed.

(** C10. [updateSessionName(id, name)] on a stored session answers that
    session with only its name replaced, stores it under the same key at the
    same place, and leaves every other session, the other maps and the
    counters alone; on an absent id it answers [undefined] and the world is
    unchanged. *)
Theorem updateSessionName_frame id name w :
  match JsMap.get id (sessions (storage w)) with
  | Some session =>
      let updated :=
        Session.mk (Session.id session) (Session.documentId session) name
          (Session.createdAt session) (Session.lastMessageAt session) in
      exists w',
        updateSessionName id name w = (Returned (Some updated), w')
        /\ JsMap.get id (sessions (storage w')) = Some updated
        /\ (forall j, j <> id ->
              JsMap.get j (sessions (storage w'))
              = JsMap.get j (sessions (storage w)))
        /\ JsMap.keys (sessions (storage w'))
           = JsMap.keys (sessions (storage w))
        /\ users (storage w') = users (storage w)
        /\ documents (storage w') = documents (storage w)
        /\ messages (storage w') = messages (storage w)
        /\ (forall kind, counter kind w' = counter kind w)
  | None => updateSessionName id name w = (Returned None, w)
  end.
Proof.
  destruct (JsMap.get id (sessions (storage w))) as [session|] eqn:Hg.
  - eexists. split.
    + unfold updateSessionName, bind, get_storage. rewrite Hg. reflexivity.
    + simpl. repeat split.
      * apply get_set_eq.
      * intros j Hj. now apply get_set_neq.
      * eapply keys_set_present. exact Hg.
  - unfold updateSessionName, bind, get_storage. now rewrite Hg.
Qed.

(* ------------------------------------------------------------------------- *)
(** ** [getMessages] and [createMessage] *)

Lemma getMessages_history sessionId w :
  getMessages sessionId w = (Returned (history sessionId (storage w)), w).
Proof. reflexivity. Qed.

Lemma history_perm sessionId s :
  Permutation (history sessionId s)
    (filter (fun message => Message.documentId message =? sessionId)
       (JsMap.values (messages s))).
Proof. apply Array_sort_perm. Qed.

Lemma history_sorted sessionId s :
  StronglySorted (fun a b => Message.timestamp a <= Message.timestamp b)
    (history sessionId s).
Proof. apply (Array_sort_strongly_sorted _ Message.timestamp). Qed.

(** Appending a message that is not older than the stored ones appends it to
    the history of its session and leaves the other histories alone. *)
Lemma history_app sessionId s message c :
  Forall (fun x => Message.timestamp x <= Message.timestamp message)
    (JsMap.values (messages s)) ->
  history sessionId
    (set_messages s (messages s ++ [(Message.id message, message)]) c)
  = if Message.documentId message =? sessionId
    then history sessionId s ++ [message]
    else history sessionId s.
Proof.
  intros Hle. unfold history. simpl. unfold JsMap.values.
  rewrite map_app, filter_app. simpl.
  destruct (Message.documentId message =? sessionId).
  - apply (Array_sort_app_last _ Message.timestamp).
    apply Forall_forall. intros x Hx. apply filter_In in Hx as [Hx _].
    rewrite Forall_forall in Hle. now apply Hle.
  - now rewrite app_nil_r.
Qed.

Section CreateMessage.
Variable env : Env.
Variable insertMessage : InsertMessage.t.
Variable w : World.
Hypothesis Hinv : store_inv env w.

Local Abbreviation w' := (snd (createMessage env insertMessage w)).
Local Abbreviation sid := (InsertMessage.documentId insertMessage).

Lemma createMessage_fst :
  fst (createMessage env insertMessage w)
  = Returned (message_of env insertMessage w).
Proof. now rewrite (createMessage_run env insertMessage w Hinv). Qed.

Lemma createMessage_messages :
  messages (storage w')
  = messages (storage w)
    ++ [(messageIdCounter (storage w), message_of env insertMessage w)]
  /\ messageIdCounter (storage w') = messageIdCounter (storage w) + 1.
Proof.
  rewrite (createMessage_run env insertMessage w Hinv). simpl.
  now destruct (JsMap.get sid (sessions (storage w))).
Qed.

Lemma createMessage_frame :
  users (storage w') = users (storage w)
  /\ documents (storage w') = documents (storage w)
  /\ userIdCounter (storage w') = userIdCounter (storage w)
  /\ documentIdCounter (storage w') = documentIdCounter (storage w)
  /\ sessionIdCounter (storage w') = sessionIdCounter (storage w)
  /\ posts w' = posts w /\ files w' = files w
  /\ (dates w <= dates w')%nat.
Proof.
  rewrite (createMessage_run env insertMessage w Hinv). simpl.
  destruct (JsMap.get sid (sessions (storage w))); simpl;
    repeat split; lia.
Qed.

(** The session the message refers to gets a new [lastMessageAt]; without
    such a session the sessions are left as they are. *)
Lemma createMessage_sessions :
  match JsMap.get sid (sessions (storage w)) with
  | Some session =>
      sessions (storage w')
      = JsMap.set sid (touch session (wall_clock env (S (dates w))))
          (sessions (storage w))
      /\ dates w' = S (S (dates w))
  | None =>
      sessions (storage w') = sessions (storage w) /\ dates w' = S (dates w)
  end.
Proof.
  rewrite (createMessage_run env insertMessage w Hinv). simpl.
  now destruct (JsMap.get sid (sessions (storage w))).
Qed.

Lemma createMessage_session_keys :
  JsMap.keys (sessions (storage w')) = JsMap.keys (sessions (storage w)).
Proof.
  pose proof createMessage_sessions as H.
  destruct (JsMap.get sid (sessions (storage w))) as [session|] eqn:Hg.
  - destruct H as [-> _]. eapply keys_set_present. exact Hg.
  - now destruct H as [-> _].
Qed.

Lemma createMessage_history sessionId :
  history sessionId (storage w')
  = if sid =? sessionId
    then history sessionId (storage w) ++ [message_of env insertMessage w]
    else history sessionId (storage w).
Proof.
  pose proof (inv_timestamp _ _ Hinv) as Ht.
  pose proof
    (history_app sessionId (storage w)
       (message_of env insertMessage w)
       (messageIdCounter (storage w) + 1) Ht) as H.
  simpl in H. rewrite <- H.
  rewrite (createMessage_run env insertMessage w Hinv). simpl.
  now destruct (JsMap.get sid (sessions (storage w))).
Qed.
End CreateMessage.

(* ------------------------------------------------------------------------- *)
(** ** The completion client *)

(** The invariant speaks of the store and the clock only. *)
Lemma store_inv_ext env w w' :
  storage w' = storage w -> dates w' = dates w ->
  store_inv env w -> store_inv env w'.
Proof.
  intros Hs Hd [Hu Hdoc Hse Hm Hc Ht Hl].
  constructor; rewrite ?Hs, ?Hd; assumption.
Qed.

(** The client touches neither the store nor the clock and sends at most one
    request. *)
Lemma groqChatCompletion_frame env messages w :
  let w' := snd (groqChatCompletion env messages w) in
  storage w' = storage w /\ dates w' = dates w
  /\ (posts w' = posts w \/ posts w' = posts w ++ [messages]).
Proof.
  unfold groqChatCompletion.
  destruct (String.eqb (GROQ_API_KEY env) ""); simpl; [auto|].
  unfold try_catch, bind, axios_post_call, throw, ret. simpl.
  destruct (axios_post env (List.length (posts w)) messages)
    as [[[|content rest]|]|[m|m [[status data]|]]]; simpl; auto.
Qed.

(** A reply is the first choice of the answer to the one request sent. *)
Lemma groqChatCompletion_returned env messages w reply w' :
  groqChatCompletion env messages w = (Returned reply, w') ->
  posts w' = posts w ++ [messages]
  /\ exists rest,
       axios_post env (List.length (posts w)) messages
       = Returned (Some (reply :: rest)).
Proof.
  unfold groqChatCompletion.
  destruct (String.eqb (GROQ_API_KEY env) ""); simpl;
    [unfold throw; discriminate|].
  unfold try_catch, bind, axios_post_call, throw, ret. simpl.
  destruct (axios_post env (List.length (posts w)) messages)
    as [[[|content rest]|]|[m|m [[status data]|]]]; simpl;
    try discriminate.
  intros [= <- <-]. simpl. eauto.
Qed.

(* ------------------------------------------------------------------------- *)
(** ** The chat route, step by step *)

Section ChatSteps.
Variable env : Env.
Hypothesis Hclock : clock_monotone env.

(** From "Add user message" on: the user message is stored, the history with
    it is sent, and the reply, if one comes, is stored as well. *)
Lemma chat_in_session_run document message session w0 :
  store_inv env w0 ->
  let insertUser := InsertMessage.mk (Session.id session) "user" message in
  let u := message_of env insertUser w0 in
  let w1 := snd (createMessage env insertUser w0) in
  let sent :=
    formattedMessages document
      (history (Session.id session) (storage w0) ++ [u]) in
  chat_in_session env document message session w0 =
    match groqChatCompletion env sent w1 with
    | (Returned reply, w2) =>
        let insertAi :=
          InsertMessage.mk (Session.id session) "assistant" reply in
        (Returned
           (mkResponse 200
              (ChatReply session u (message_of env insertAi w2))),
         snd (createMessage env insertAi w2))
    | (Threw e, w2) => (Threw e, w2)
    end.
Proof.
  intros Hinv insertUser u w1 sent.
  pose proof (createMessage_fst env insertUser w0 Hinv) as Hfst.
  pose proof (createMessage_history env insertUser w0 Hinv
                (Session.id session)) as Hh.
  pose proof (createMessage_inv env Hclock insertUser w0 Hinv) as Hinv1.
  simpl in Hh. rewrite Z.eqb_refl in Hh.
  unfold chat_in_session, bind. fold insertUser.
  destruct (createMessage env insertUser w0) as [r w1'] eqn:Hrun.
  simpl in Hfst. subst r. simpl in Hh, Hinv1.
  rewrite getMessages_history, Hh.
  subst w1 sent u. simpl.
  pose proof (groqChatCompletion_frame env
                (formattedMessages document
                   (history (Session.id session) (storage w0)
                    ++ [message_of env insertUser w0])) w1')
    as (Hs & Hd & _).
  destruct (groqChatCompletion env _ w1') as [[reply|e] w2]; [|reflexivity].
  simpl in Hs, Hd.
  pose proof (store_inv_ext env w1' w2 Hs Hd Hinv1) as Hinv2.
  pose proof (createMessage_fst env
                (InsertMessage.mk (Session.id session) "assistant" reply)
                w2 Hinv2) as Hfst2.
  destruct (createMessage env _ w2) as [r2 w3]. simpl in Hfst2. subst r2.
  reflexivity.
Qed.

(** "Get or create session" when the given id is not falsy. *)
Lemma get_or_create_session_given document data sid w :
  ChatData.sessionId data = Some sid -> sid <> 0 ->
  get_or_create_session env document data w =
    (Returned
       match JsMap.get sid (sessions (storage w)) with
       | Some session => inr session
       | None => inl (mkResponse 404 (Message_ "Session not found"))
       end, w).
Proof.
  intros Hs Hz. unfold get_or_create_session. rewrite Hs. simpl.
  apply Z.eqb_neq in Hz. rewrite Hz. simpl.
  unfold bind, getSession, get_storage, ret. simpl.
  now destruct (JsMap.get sid (sessions (storage w))).
Qed.

(** "Get or create session" when the id is missing or falsy. *)
Lemma get_or_create_session_new document data w :
  truthy (ChatData.sessionId data) = false ->
  store_inv env w ->
  let session :=
    Session.mk (sessionIdCounter (storage w)) (ChatData.documentId data)
      ("Chat about " ++ Document.name document)%string
      (wall_clock env (dates w)) (wall_clock env (dates w)) in
  get_or_create_session env document data w =
    (Returned (inr session),
     later w 1
       (set_sessions (storage w)
          (sessions (storage w) ++ [(sessionIdCounter (storage w), session)])
          (sessionIdCounter (storage w) + 1))).
Proof.
  intros Hf Hinv. unfold get_or_create_session. rewrite Hf.
  unfold bind. rewrite (createSession_run env _ w Hinv). reflexivity.
Qed.

Lemma handleChat_run body data document w :
  chatSchema_safeParse body = Some data ->
  JsMap.get (ChatData.documentId data) (documents (storage w))
  = Some document ->
  handleChat env body w =
    match get_or_create_session env document data w with
    | (Returned (inl response), w0) => (Returned response, w0)
    | (Returned (inr session), w0) =>
        match
          chat_in_session env document (ChatData.message data) session w0
        with
        | (Returned response, w') => (Returned response, w')
        | (Threw error, w') =>
            (Returned
               (mkResponse 500
                  (MessageError "Failed to process chat request"
                     (error_message error))), w')
        end
    | (Threw error, w0) =>
        (Returned
           (mkResponse 500
              (MessageError "Failed to process chat request"
                 (error_message error))), w0)
    end.
Proof.
  intros Hp Hd. unfold handleChat, try_catch. rewrite Hp.
  unfold bind at 1. unfold getDocument, bind at 1, get_storage, ret at 1.
  simpl. rewrite Hd. unfold bind.
  destruct (get_or_create_session env document data w)
    as [[[response|session]|e] w0]; reflexivity.
Qed.
End ChatSteps.

Section ChatReplied.
Variable env : Env.
Hypothesis Hclock : clock_monotone env.
Variables (document : Document.t) (message : string) (session : Session.t).
Variable w0 : World.
Hypothesis Hinv : store_inv env w0.
Hypothesis Hstored :
  JsMap.get (Session.id session) (sessions (storage w0)) = Some session.

Local Abbreviation sid := (Session.id session).
Local Abbreviation insertUser := (InsertMessage.mk sid "user" message).
Local Abbreviation u := (message_of env insertUser w0).
Local Abbreviation w1 := (snd (createMessage env insertUser w0)).
Local Abbreviation sent :=
  (formattedMessages document (history sid (storage w0) ++ [u])).

(** The world once the user message is stored. *)
Lemma chat_user_stored :
  store_inv env w1
  /\ messages (storage w1) = messages (storage w0) ++ [(Message.id u, u)]
  /\ history sid (storage w1) = history sid (storage w0) ++ [u]
  /\ sessions (storage w1)
     = JsMap.set sid (touch session (wall_clock env (S (dates w0))))
         (sessions (storage w0))
  /\ dates w1 = S (S (dates w0))
  /\ posts w1 = posts w0
  /\ documents (storage w1) = documents (storage w0)
  /\ sessionIdCounter (storage w1) = sessionIdCounter (storage w0).
Proof.
  pose proof (createMessage_inv env Hclock insertUser w0 Hinv) as H1.
  pose proof (createMessage_messages env insertUser w0 Hinv) as [H2 _].
  pose proof (createMessage_history env insertUser w0 Hinv sid) as H3.
  pose proof (createMessage_sessions env insertUser w0 Hinv) as H4.
  pose proof (createMessage_frame env insertUser w0 Hinv)
    as (_ & H5 & _ & _ & H6 & H7 & _).
  simpl in H3, H4. rewrite Z.eqb_refl in H3. rewrite Hstored in H4.
  destruct H4 as [H4 H4'].
  exact (conj H1 (conj H2 (conj H3 (conj H4 (conj H4'
           (conj H7 (conj H5 H6))))))).
Qed.

Variables (reply : string) (w2 : World).
Hypothesis Hreply : groqChatCompletion env sent w1 = (Returned reply, w2).

Local Abbreviation insertAi := (InsertMessage.mk sid "assistant" reply).
Local Abbreviation a := (message_of env insertAi w2).
Local Abbreviation w3 := (snd (createMessage env insertAi w2)).

Lemma chat_reply_received :
  storage w2 = storage w1 /\ dates w2 = dates w1
  /\ posts w2 = posts w0 ++ [sent] /\ store_inv env w2.
Proof.
  destruct chat_user_stored as (H1 & _ & _ & _ & _ & Hp & _).
  pose proof (groqChatCompletion_frame env sent w1) as (Hs & Hd & _).
  pose proof (groqChatCompletion_returned env sent w1 reply w2 Hreply)
    as [Hposts _].
  rewrite Hreply in Hs, Hd. simpl in Hs, Hd.
  split; [exact Hs|]. split; [exact Hd|]. split.
  - now rewrite Hposts, Hp.
  - exact (store_inv_ext env w1 w2 Hs Hd H1).
Qed.

(** The whole exchange: what is answered and what the store holds then. *)
Lemma chat_in_session_replied :
  chat_in_session env document message session w0
  = (Returned (mkResponse 200 (ChatReply session u a)), w3)
  /\ history sid (storage w3) = history sid (storage w0) ++ [u; a]
  /\ messages (storage w3)
     = messages (storage w0) ++ [(Message.id u, u); (Message.id a, a)]
  /\ JsMap.keys (sessions (storage w3)) = JsMap.keys (sessions (storage w0))
  /\ sessionIdCounter (storage w3) = sessionIdCounter (storage w0)
  /\ documents (storage w3) = documents (storage w0)
  /\ posts w3 = posts w0 ++ [sent]
  /\ JsMap.get sid (sessions (storage w3))
     = Some (touch session (wall_clock env (3 + dates w0)))
  /\ Message.timestamp a = wall_clock env (2 + dates w0).
Proof.
  destruct chat_user_stored
    as (H1 & Hm1 & Hh1 & Hs1 & Hd1 & Hp1 & Hdoc1 & Hc1).
  destruct chat_reply_received as (Hs2 & Hd2 & Hp2 & H2).
  pose proof (createMessage_messages env insertAi w2 H2) as [Hm3 _].
  pose proof (createMessage_history env insertAi w2 H2 sid) as Hh3.
  pose proof (createMessage_sessions env insertAi w2 H2) as Hs3.
  pose proof (createMessage_session_keys env insertAi w2 H2) as Hk3.
  pose proof (createMessage_frame env insertAi w2 H2)
    as (_ & Hdoc3 & _ & _ & Hc3 & Hp3 & _).
  simpl in Hh3, Hs3. rewrite Z.eqb_refl in Hh3.
  assert (Hg2 : JsMap.get sid (sessions (storage w2))
                = Some (touch session (wall_clock env (S (dates w0))))).
  { rewrite Hs2, Hs1. apply get_set_eq. }
  rewrite Hg2 in Hs3. destruct Hs3 as [Hs3 Hd3].
  split; [|repeat split].
  - rewrite (chat_in_session_run env Hclock document message session w0 Hinv).
    simpl. now rewrite Hreply.
  - rewrite Hh3, Hs2, Hh1, <- app_assoc. reflexivity.
  - change (messageIdCounter (storage w2)) with (Message.id a) in Hm3.
    rewrite Hm3, Hs2, Hm1, <- app_assoc. reflexivity.
  - rewrite Hk3, Hs2, Hs1. eapply keys_set_present. exact Hstored.
  - now rewrite Hc3, Hs2.
  - now rewrite Hdoc3, Hs2.
  - now rewrite Hp3.
  - rewrite Hs3, get_set_eq, Hd2, Hd1. reflexivity.
  - simpl. now rewrite Hd2, Hd1.
Qed.
End ChatReplied.

(** What "Get or create session" leaves behind when it yields a session:
    the session is in the store, nothing else of the store has changed, and
    either the given id named it or it was added as the one new entry. *)
Lemma get_or_create_session_resolved env document data w session w0 :
  clock_monotone env -> store_inv env w ->
  get_or_create_session env document data w = (Returned (inr session), w0) ->
  store_inv env w0
  /\ JsMap.get (Session.id session) (sessions (storage w0)) = Some session
  /\ messages (storage w0) = messages (storage w)
  /\ documents (storage w0) = documents (storage w)
  /\ posts w0 = posts w
  /\ ((exists sid,
         ChatData.sessionId data = Some sid /\ sid <> 0
         /\ Session.id session = sid /\ w0 = w)
      \/ (truthy (ChatData.sessionId data) = false
          /\ JsMap.get (Session.id session) (sessions (storage w)) = None
          /\ sessions (storage w0)
             = sessions (storage w) ++ [(Session.id session, session)]
          /\ sessionIdCounter (storage w0) = sessionIdCounter (storage w) + 1
          /\ Session.documentId session = ChatData.documentId data
          /\ Session.name session
             = ("Chat about " ++ Document.name document)%string)).
Proof.
  intros Hclock Hinv Hrun.
  destruct (truthy (ChatData.sessionId data)) eqn:Ht.
  - destruct (ChatData.sessionId data) as [sid|] eqn:Hs; [|discriminate].
    simpl in Ht. apply negb_true_iff, Z.eqb_neq in Ht.
    rewrite (get_or_create_session_given env document data sid w Hs Ht)
      in Hrun.
    destruct (JsMap.get sid (sessions (storage w))) as [found|] eqn:Hg;
      [|discriminate].
    injection Hrun as -> ->.
    destruct (keyed_get _ _ _ _ _ _ (inv_sessions _ _ Hinv) Hg) as [Hid _].
    split; [exact Hinv|]. rewrite Hid.
    split; [exact Hg|]. do 3 (split; [reflexivity|]).
    left. exists sid. auto.
  - rewrite (get_or_create_session_new env document data w Ht Hinv) in Hrun.
    pose proof (createSession_inv env Hclock
                  (InsertSession.mk (ChatData.documentId data)
                     ("Chat about " ++ Document.name document)%string)
                  w Hinv) as Hinv0.
    rewrite (createSession_run env _ w Hinv) in Hinv0. simpl in Hinv0.
    pose proof (keyed_fresh _ _ _ _ _ (inv_sessions _ _ Hinv)
                  (Z.le_refl _)) as Hfresh.
    injection Hrun as <- <-. simpl.
    split; [exact Hinv0|]. split.
    + rewrite <- (set_fresh _ _ _ _ Hfresh). apply get_set_eq.
    + do 3 (split; [reflexivity|]). right. auto 10.
Qed.

(* ------------------------------------------------------------------------- *)
(** ** The chat route *)








(* ------------------------------------------------------------------------- *)
(** ** The upload route *)

Lemma frames_ret {A} (a : A) : frames (ret a).
Proof. intros w. now simpl. Qed.

Lemma frames_throw {A} e : frames (@throw A e).
Proof. intros w. now simpl. Qed.

Lemma frames_lift_outcome {A} (o : Outcome A) : frames (lift_outcome o).
Proof. intros w. now simpl. Qed.

Lemma frames_bind {A B} (m : M A) (k : A -> M B) :
  frames m -> (forall a, frames (k a)) -> frames (bind m k).
Proof.
  intros Hm Hk w. unfold bind. specialize (Hm w).
  destruct (m w) as [[a|e] w1]; simpl in *; [|exact Hm].
  destruct (Hk a w1) as (H1 & H2 & H3). destruct Hm as (H4 & H5 & H6).
  repeat split; congruence.
Qed.

Lemma frames_try_catch {A} (m : M A) (h : JsError -> M A) :
  frames m -> (forall e, frames (h e)) -> frames (try_catch m h).
Proof.
  intros Hm Hh w. unfold try_catch. specialize (Hm w).
  destruct (m w) as [[a|e] w1]; simpl in *; [exact Hm|].
  destruct (Hh e w1) as (H1 & H2 & H3). destruct Hm as (H4 & H5 & H6).
  repeat split; congruence.
Qed.

Lemma frames_fs_call env {A} op : frames (@fs_call env A op).
Proof.
  intros w. unfold fs_call.
  destruct (fs_fault env (fs_calls w)); [now simpl|].
  now destruct (op (files w)).
Qed.

Lemma frames_uuid_call env : frames (uuid_call env).
Proof. intros w. now simpl. Qed.

Lemma frames_processFile env file : frames (processFile env file).
Proof.
  unfold processFile, pdfParse, fs_writeFile, fs_readFile, fs_unlink.
  repeat first
    [ apply frames_try_catch | apply frames_bind | apply frames_fs_call
    | apply frames_uuid_call | apply frames_ret | apply frames_throw
    | apply frames_lift_outcome | progress cbv zeta
    | match goal with
      | |- frames (if ?c then _ else _) => destruct c
      | |- forall _, frames _ => intro
      end ].
Qed.


(** A plain-text file on a disk without faults: the content is the decoded
    buffer. *)
Lemma processFile_txt env file w :
  MulterFile.mimetype file = "text/plain" ->
  (forall n, fs_fault env n = false) ->
  fst (processFile env file w)
  = Returned (utf8_decode env (MulterFile.buffer file)).
Proof.
  intros Hmime Hfs.
  unfold processFile, try_catch, bind, uuid_call, fs_writeFile, fs_readFile,
    fs_unlink, fs_call, ret. simpl.
  rewrite !Hfs, Hmime. simpl.
  repeat (rewrite ?Hfs, ?String.eqb_refl; simpl).
  reflexivity.
Qed.

Lemma createDocument_run env insertDocument w :
  store_inv env w ->
  let s := storage w in
  let document :=
    Document.mk (documentIdCounter s)
      (InsertDocument.name insertDocument)
      (InsertDocument.originalName insertDocument)
      (InsertDocument.mimeType insertDocument)
      (InsertDocument.size insertDocument)
      (InsertDocument.content insertDocument)
      (wall_clock env (dates w)) in
  createDocument env insertDocument w =
    (Returned document,
     later w 1
       (set_documents s (documents s ++ [(documentIdCounter s, document)])
          (documentIdCounter s + 1))).
Proof.
  intros Hinv. pose proof (inv_documents _ _ Hinv) as Hk.
  pose proof (keyed_fresh _ _ _ _ _ Hk (Z.le_refl _)) as Hfresh.
  destruct w as [s d p f c u]. destruct s. simpl in *.
  unfold createDocument, bind, get_storage, put_storage, new_Date, ret,
    with_storage, later, set_documents. simpl.
  now rewrite (set_fresh _ _ _ _ Hfresh).
Qed.

Lemma set_app_last {V} k (v v' : V) (m : JsMap.t V) :
  JsMap.get k m = None ->
  JsMap.get k (m ++ [(k, v)]) = Some v
  /\ JsMap.set k v' (m ++ [(k, v)]) = m ++ [(k, v')].
Proof.
  induction m as [|[k0 v0] m IH]; simpl.
  - rewrite Z.eqb_refl. auto.
  - destruct (k0 =? k); [discriminate|]. intros H.
    destruct (IH H) as [H1 H2]. now rewrite H1, H2.
Qed.


(* ------------------------------------------------------------------------- *)
(** ** Every world the server can be in satisfies the invariant *)

Section Preserves.
Variable env : Env.
Hypothesis Hclock : clock_monotone env.

Lemma preserves_ret {A} (a : A) : preserves env (ret a).
Proof. intros w H. exact H. Qed.

Lemma preserves_throw {A} e : preserves env (@throw A e).
Proof. intros w H. exact H. Qed.

Lemma preserves_bind {A B} (m : M A) (k : A -> M B) :
  preserves env m -> (forall a, preserves env (k a)) ->
  preserves env (bind m k).
Proof.
  intros Hm Hk w H. unfold bind. specialize (Hm w H).
  destruct (m w) as [[a|e] w1]; simpl in *; [now apply Hk | exact Hm].
Qed.

Lemma preserves_try_catch {A} (m : M A) (h : JsError -> M A) :
  preserves env m -> (forall e, preserves env (h e)) ->
  preserves env (try_catch m h).
Proof.
  intros Hm Hh w H. unfold try_catch. specialize (Hm w H).
  destruct (m w) as [[a|e] w1]; simpl in *; [exact Hm | now apply Hh].
Qed.

Lemma preserves_frames {A} (m : M A) : frames m -> preserves env m.
Proof.
  intros Hf w H. destruct (Hf w) as (Hs & Hd & _).
  exact (store_inv_ext env w _ Hs Hd H).
Qed.

Lemma preserves_groqChatCompletion messages :
  preserves env (groqChatCompletion env messages).
Proof.
  intros w H.
  destruct (groqChatCompletion_frame env messages w) as (Hs & Hd & _).
  exact (store_inv_ext env w _ Hs Hd H).
Qed.

Lemma preserves_createDocument insertDocument :
  preserves env (createDocument env insertDocument).
Proof. intros w H. now apply createDocument_inv. Qed.

Lemma preserves_createSession insertSession :
  preserves env (createSession env insertSession).
Proof. intros w H. now apply createSession_inv. Qed.

Lemma preserves_createMessage insertMessage :
  preserves env (createMessage env insertMessage).
Proof. intros w H. now apply createMessage_inv. Qed.

Lemma preserves_getDocument id : preserves env (getDocument id).
Proof. intros w H. exact H. Qed.

Lemma preserves_getSession id : preserves env (getSession id).
Proof. intros w H. exact H. Qed.

Lemma preserves_getMessages sessionId : preserves env (getMessages sessionId).
Proof. intros w H. exact H. Qed.

Ltac keeps :=
  repeat first
    [ apply preserves_createDocument | apply preserves_createSession
    | apply preserves_createMessage | apply preserves_getDocument
    | apply preserves_getSession | apply preserves_getMessages
    | apply preserves_groqChatCompletion
    | (apply preserves_frames; apply frames_processFile)
    | apply preserves_ret | apply preserves_throw
    | apply preserves_try_catch | apply preserves_bind
    | progress cbv zeta
    | match goal with
      | |- preserves _ (if ?c then _ else _) => destruct c
      | |- preserves _ (match ?c with _ => _ end) => destruct c
      | |- forall _, preserves _ _ => intro
      end ].

Lemma preserves_handleChat body : preserves env (handleChat env body).
Proof.
  unfold handleChat, get_or_create_session, chat_in_session. keeps.
Qed.

Lemma preserves_upload_route part : preserves env (upload_route env part).
Proof.
  unfold upload_route, upload_single, handleUpload, store_upload. keeps.
Qed.

Lemma serve_inv request w :
  store_inv env w -> store_inv env (serve env request w).
Proof.
  destruct request; simpl.
  - apply preserves_handleChat.
  - apply preserves_upload_route.
  - now apply perform_inv.
Qed.

(** From start-up on, whatever is served, the invariant holds. *)
Lemma served_inv requests :
  store_inv env (serve_all env requests World_start).
Proof.
  unfold serve_all. generalize (store_inv_start env).
  generalize World_start.
  induction requests as [|request requests IH]; intros w H; simpl.
  - exact H.
  - apply IH. now apply serve_inv.
Qed.
End Preserves.

(* ------------------------------------------------------------------------- *)
(** ** The handlers at work on the concrete environment *)

Lemma Demo_clock : clock_monotone Demo.env.
Proof.
  intros n. change (1000 + Z.of_nat n <= 1000 + Z.of_nat (S n)). lia.
Qed.


Ltac concrete_inv :=
  constructor; simpl; repeat constructor; simpl; try lia; try tauto.

Lemma Demo_after_upload_inv env :
  wall_clock env = wall_clock Demo.env -> store_inv env Demo.after_upload.
Proof. intros H. constructor; rewrite ?H; concrete_inv. Qed.


(** C2, at the input where the code departs from it: the request names
    document 1 and gives [sessionId: 0].  No session 0 is stored, yet the
    handler does not look it up and does not answer 404: it answers 200 and
    has created the new session 2. *)
Theorem handleChat_sessionId_zero_creates_session :
  chatSchema_safeParse (Demo.ask 1 (JNumber 0))
  = Some (Demo.asked 1 (Some 0))
  /\ JsMap.get 0 (sessions (storage Demo.after_upload)) = None
  /\ exists session u a w',
       handleChat Demo.env (Demo.ask 1 (JNumber 0)) Demo.after_upload
       = (Returned (mkResponse 200 (ChatReply session u a)), w')
       /\ Session.id session = 2
       /\ JsMap.keys (sessions (storage Demo.after_upload)) = [1]
       /\ JsMap.keys (sessions (storage w')) = [1; 2].
Proof.
  split; [reflexivity|]. split; [reflexivity|].
  do 4 eexists. split; [vm_compute; reflexivity|].
  repeat split.
Qed.

(** For an id that is given and is not 0 the handler does look the session
    up: an absent one is answered with 404 and nothing changes. *)
Lemma handleChat_session_not_found env body data document sid w :
  chatSchema_safeParse body = Some data ->
  JsMap.get (ChatData.documentId data) (documents (storage w))
  = Some document ->
  ChatData.sessionId data = Some sid -> sid <> 0 ->
  JsMap.get sid (sessions (storage w)) = None ->
  handleChat env body w
  = (Returned (mkResponse 404 (Message_ "Session not found")), w).
Proof.
  intros Hp Hd Hs Hnz Hg.
  rewrite (handleChat_run env body data document w Hp Hd).
  rewrite (get_or_create_session_given env document data sid w Hs Hnz).
  now rewrite Hg.
Qed.


(** C5 fails on an empty file: [empty.txt] passes the filter, is of an
    accepted type and its size is the length of its buffer, and the route
    answers 400 and stores nothing. *)
Lemma upload_empty_txt_rejected :
  fileFilter Demo.env Demo.empty_txt = true
  /\ includes validFileTypes (MulterFile.mimetype Demo.empty_txt) = true
  /\ MulterFile.size Demo.empty_txt
     = Z.of_nat (List.length (MulterFile.buffer Demo.empty_txt))
  /\ fst (upload_route Demo.env (Some Demo.empty_txt) World_start)
     = Returned (mkResponse 400 (Message_ "Failed to process file"))
  /\ storage (snd (upload_route Demo.env (Some Demo.empty_txt) World_start))
     = MemStorage_new.
Proof. repeat split. Qed.



(* ------------------------------------------------------------------------- *)
(** ** More about sorting *)

Lemma Array_sort_ext {A} (c1 c2 : A -> A -> Z) l :
  (forall x y, c1 x y = c2 x y) -> Array_sort c1 l = Array_sort c2 l.
Proof.
  intros Hc. induction l as [|x l IH]; simpl; [reflexivity|].
  rewrite IH. generalize (Array_sort c2 l). intros s.
  induction s as [|y s IHs]; simpl; [reflexivity|].
  now rewrite Hc, IHs.
Qed.

Lemma StronglySorted_impl {A} (R S : A -> A -> Prop) l :
  (forall x y, R x y -> S x y) -> StronglySorted R l -> StronglySorted S l.
Proof.
  intros HRS. induction 1 as [|x l Hs IH Hx]; constructor; [exact IH|].
  eapply Forall_impl; [|exact Hx]. intros y. apply HRS.
Qed.

(** With the comparator [(a, b) => key b - key a] the result is in
    descending order. *)
Lemma Array_sort_descending {A} (key : A -> Z) l :
  StronglySorted (fun a b => key b <= key a)
    (Array_sort (fun a b => key b - key a) l).
Proof.
  rewrite (Array_sort_ext (fun a b => key b - key a)
             (fun a b => (fun x => - key x) a - (fun x => - key x) b))
    by (intros; lia).
  eapply StronglySorted_impl;
    [|apply (Array_sort_strongly_sorted A (fun x => - key x))].
  simpl. intros x y H. lia.
Qed.

Lemma StronglySorted_filter {A} (R : A -> A -> Prop) p l :
  StronglySorted R l -> StronglySorted R (filter p l).
Proof.
  induction 1 as [|x l Hs IH Hx]; simpl; [constructor|].
  destruct (p x); [|exact IH]. constructor; [exact IH|].
  apply Forall_forall. intros y Hy. apply filter_In in Hy as [Hy _].
  rewrite Forall_forall in Hx. auto.
Qed.

Lemma StronglySorted_app_last {A} (R : A -> A -> Prop) l x :
  StronglySorted R l -> Forall (fun y => R y x) l ->
  StronglySorted R (l ++ [x]).
Proof.
  induction 1 as [|y l Hs IH Hy]; intros Hx; simpl.
  - repeat constructor.
  - inversion_clear Hx as [|? ? Hyx Hx']. constructor; [auto|].
    apply Forall_app. split; [exact Hy | now constructor].
Qed.

(** Sorting a list that is in ascending order already changes nothing. *)
Lemma Array_sort_sorted_id {A} (key : A -> Z) l :
  StronglySorted (fun a b => key a <= key b) l ->
  Array_sort (fun a b => key a - key b) l = l.
Proof.
  induction 1 as [|x l Hs IH Hx]; simpl; [reflexivity|].
  rewrite IH. destruct Hx as [|y l Hxy Hx]; simpl; [reflexivity|].
  destruct (key x - key y <=? 0) eqn:E; [reflexivity|].
  apply Z.leb_gt in E. lia.
Qed.

(* ------------------------------------------------------------------------- *)
(** ** The store: listings and round trips *)

(** X1. [getDocuments()] answers the stored documents, each once, the most
    recently uploaded first, and leaves the world as it is. *)
Theorem getDocuments_newest_first w :
  exists l,
    getDocuments w = (Returned l, w)
    /\ Permutation l (JsMap.values (documents (storage w)))
    /\ StronglySorted
         (fun a b => Document.uploadedAt b <= Document.uploadedAt a) l.
Proof.
  eexists. split; [reflexivity|]. split.
  - apply Array_sort_perm.
  - apply (Array_sort_descending Document.uploadedAt).
Qed.

(** X2. [getSessions(documentId)] answers exactly the stored sessions of that
    document, each once, the one with the latest message first. *)
Theorem getSessions_latest_first documentId w :
  exists l,
    getSessions documentId w = (Returned l, w)
    /\ Permutation l
         (filter (fun session => Session.documentId session =? documentId)
            (JsMap.values (sessions (storage w))))
    /\ StronglySorted
         (fun a b => Session.lastMessageAt b <= Session.lastMessageAt a) l.
Proof.
  eexists. split; [reflexivity|]. split.
  - apply Array_sort_perm.
  - apply (Array_sort_descending Session.lastMessageAt).
Qed.

Lemma In_values_set {V} k (v : V) (m : JsMap.t V) :
  In v (JsMap.values (JsMap.set k v m)).
Proof.
  induction m as [|[k' v'] m IH]; simpl; [now left|].
  destruct (k' =? k); simpl; auto.
Qed.

(** X3. [createDocument] then [getDocument]: the document is stored under the
    identifier taken from the counter, with the fields of the draft and the
    clock reading as upload time; it is what [getDocument] answers for that
    identifier, and the answer for every other identifier is as before. *)
Theorem createDocument_then_getDocument env insertDocument w :
  exists document w',
    createDocument env insertDocument w = (Returned document, w')
    /\ document
       = Document.mk (documentIdCounter (storage w))
           (InsertDocument.name insertDocument)
           (InsertDocument.originalName insertDocument)
           (InsertDocument.mimeType insertDocument)
           (InsertDocument.size insertDocument)
           (InsertDocument.content insertDocument)
           (wall_clock env (dates w))
    /\ getDocument (Document.id document) w' = (Returned (Some document), w')
    /\ (forall j,
          j <> Document.id document ->
          getDocument j w'
          = (Returned (JsMap.get j (documents (storage w))), w'))
    /\ documentIdCounter (storage w') = documentIdCounter (storage w) + 1
    /\ sessions (storage w') = sessions (storage w)
    /\ messages (storage w') = messages (storage w).
Proof.
  do 2 eexists.
  split; [unfold createDocument, bind, get_storage, put_storage, new_Date,
            ret; simpl; reflexivity|].
  split; [reflexivity|].
  unfold getDocument, bind, get_storage, ret. simpl.
  split; [now rewrite get_set_eq|]. split; [|auto].
  intros j Hj. rewrite get_set_neq by congruence. reflexivity.
Qed.

(** X4. [createSession] then [getSession] and [getSessions]: the new session has
    the counter's identifier and one clock reading as both [createdAt] and
    [lastMessageAt]; [getSession] answers it, [getSessions] of its document
    lists it, and every other identifier is answered as before. *)
Theorem createSession_then_getSession env insertSession w :
  exists session w' listed,
    createSession env insertSession w = (Returned session, w')
    /\ session
       = Session.mk (sessionIdCounter (storage w))
           (InsertSession.documentId insertSession)
           (InsertSession.name insertSession)
           (wall_clock env (dates w)) (wall_clock env (dates w))
    /\ getSession (Session.id session) w' = (Returned (Some session), w')
    /\ (forall j,
          j <> Session.id session ->
          getSession j w'
          = (Returned (JsMap.get j (sessions (storage w))), w'))
    /\ getSessions (InsertSession.documentId insertSession) w'
       = (Returned listed, w')
    /\ In session listed.
Proof.
  do 3 eexists.
  split; [unfold createSession, bind, get_storage, put_storage, new_Date,
            ret; simpl; reflexivity|].
  split; [reflexivity|].
  unfold getSession, getSessions, bind, get_storage, ret. simpl.
  split; [now rewrite get_set_eq|]. split.
  - intros j Hj. rewrite get_set_neq by congruence. reflexivity.
  - split; [reflexivity|].
    eapply Permutation_in; [symmetry; apply Array_sort_perm|].
    apply filter_In. split; [apply In_values_set|].
    simpl. apply Z.eqb_refl.
Qed.

Lemma values_app_last {V} k (v : V) (m : JsMap.t V) :
  JsMap.values (m ++ [(k, v)]) = JsMap.values m ++ [v].
Proof. unfold JsMap.values. now rewrite map_app. Qed.

Lemma find_app_last {A} (p : A -> bool) l x :
  List.find p (l ++ [x])
  = match List.find p l with
    | Some y => Some y
    | None => if p x then Some x else None
    end.
Proof.
  induction l as [|y l IH]; simpl; [reflexivity|].
  destruct (p y); [reflexivity | exact IH].
Qed.

(** X5. [createUser] never refuses a user name that is taken: the new user is
    stored under a fresh identifier and [getUser] answers it, while
    [getUserByUsername] keeps answering the user that had the name first;
    only a name nobody had is answered with the new user. *)
Theorem createUser_keeps_first_username insertUser w :
  keyed User.id (users (storage w)) (userIdCounter (storage w)) ->
  exists user w',
    createUser insertUser w = (Returned user, w')
    /\ user
       = User.mk (userIdCounter (storage w))
           (InsertUser.username insertUser) (InsertUser.password insertUser)
    /\ getUser (User.id user) w' = (Returned (Some user), w')
    /\ (forall name first,
          getUserByUsername name w = (Returned (Some first), w) ->
          getUserByUsername name w' = (Returned (Some first), w'))
    /\ (getUserByUsername (InsertUser.username insertUser) w
        = (Returned None, w) ->
        getUserByUsername (InsertUser.username insertUser) w'
        = (Returned (Some user), w')).
Proof.
  intros Hk.
  pose proof (keyed_fresh _ _ _ _ _ Hk (Z.le_refl _)) as Hfresh.
  do 2 eexists.
  split; [unfold createUser, bind, get_storage, put_storage, ret; simpl;
          reflexivity|].
  split; [reflexivity|].
  unfold getUser, getUserByUsername, bind, get_storage, ret, Array_find.
  simpl. rewrite (set_fresh _ _ _ _ Hfresh).
  split; [|split].
  - rewrite <- (set_fresh _ _ _ _ Hfresh). now rewrite get_set_eq.
  - intros name first [= H].
    now rewrite values_app_last, find_app_last, H.
  - intros [= H]. rewrite values_app_last, find_app_last, H.
    simpl. now rewrite String.eqb_refl.
Qed.

(** With [alice] stored, a second [alice] is created as user 2 and the name
    still leads to user 1. *)
Lemma createUser_keeps_first_username_witness :
  exists user w',
    createUser Sample.alice_again Sample.with_alice = (Returned user, w')
    /\ User.id user = 2
    /\ getUserByUsername "alice" w'
       = (Returned (Some (User.mk 1 "alice" "secret")), w').
Proof.
  destruct (createUser_keeps_first_username Sample.alice_again
              Sample.with_alice)
    as (user & w' & Hrun & Hu & _ & Hfirst & _).
  - split; simpl; repeat constructor; simpl; try lia; tauto.
  - exists user, w'. split; [exact Hrun|]. split; [now rewrite Hu|].
    apply Hfirst. reflexivity.
Defined.

(* ------------------------------------------------------------------------- *)
(** ** The completion client: replies and errors *)

(** X7. [groqChatCompletion] returns a reply exactly when the API key is set and
    the answer to its request has at least one choice; the reply is then the
    content of the first choice. *)
Theorem groqChatCompletion_reply_iff env messages w reply :
  (exists w', groqChatCompletion env messages w = (Returned reply, w'))
  <-> (GROQ_API_KEY env <> ""
       /\ exists rest,
            axios_post env (List.length (posts w)) messages
            = Returned (Some (reply :: rest))).
Proof.
  unfold groqChatCompletion, try_catch, bind, axios_post_call, throw, ret.
  destruct (String.eqb (GROQ_API_KEY env) "") eqn:Hkey; simpl.
  - apply String.eqb_eq in Hkey. split.
    + intros [w' H]. discriminate.
    + intros [H _]. contradiction.
  - apply String.eqb_neq in Hkey.
    destruct (axios_post env (List.length (posts w)) messages)
      as [[[|content rest]|]|[m|m [[status data]|]]]; simpl;
      (split;
       [ intros [w' H]; try discriminate
       | intros [_ [rest' H]]; try discriminate ]).
    + injection H as <- _. eauto.
    + injection H as <- _. eauto.
Qed.

(** X8. Whatever goes wrong, the caller of [groqChatCompletion] sees an [Error]
    with one of three messages: the key is missing (and then no request was
    sent and the world is as before), the API answered with an error status,
    or anything else.  An answer without choices comes under "anything
    else": the message "Invalid response from GROQ API" is never seen. *)
Theorem groqChatCompletion_errors env messages w e w' :
  groqChatCompletion env messages w = (Threw e, w') ->
  (e = Error "GROQ_API_KEY environment variable is not set"
   /\ GROQ_API_KEY env = "" /\ w' = w)
  \/ (posts w' = posts w ++ [messages]
      /\ ((exists m status data,
             axios_post env (List.length (posts w)) messages
             = Threw (AxiosError m (Some (status, data)))
             /\ e = Error ("GROQ API error: " ++ Z_to_string status
                           ++ " - " ++ data)%string)
          \/ e = Error "Failed to get response from GROQ API")).
Proof.
  unfold groqChatCompletion, try_catch, bind, axios_post_call, throw, ret.
  destruct (String.eqb (GROQ_API_KEY env) "") eqn:Hkey; simpl.
  - apply String.eqb_eq in Hkey. intros [= <- <-]. left. auto.
  - destruct (axios_post env (List.length (posts w)) messages)
      as [[[|content rest]|]|[m|m [[status data]|]]] eqn:Hpost; simpl;
      intros [= <- <-]; right; (split; [reflexivity|]); eauto 10.
Qed.

(** With the API down the error is "Failed to get response from GROQ API",
    after one request. *)
Lemma groqChatCompletion_errors_witness :
  exists w',
    groqChatCompletion Demo.env_down [] Demo.after_upload
    = (Threw (Error "Failed to get response from GROQ API"), w')
    /\ posts w' = [[]].
Proof.
  eexists. split; [reflexivity|].
  destruct (groqChatCompletion_errors Demo.env_down [] Demo.after_upload
              _ _ eq_refl)
    as [(H & _) | (H & _)]; [discriminate | exact H].
Defined.

(* ------------------------------------------------------------------------- *)
(** ** Text extraction: errors and the temporary file *)

Lemma processFile_throws_only env file w e w' :
  processFile env file w = (Threw e, w') ->
  e = Error "Failed to process file".
Proof.
  unfold processFile. unfold try_catch at 1.
  match goal with |- context [match ?m w with _ => _ end] =>
    destruct (m w) as [[content|e0] w1] end.
  - discriminate.
  - unfold throw. now intros [= <- _].
Qed.

Lemma file_get_remove_eq path fs : file_get path (file_remove path fs) = None.
Proof.
  induction fs as [|[p d] fs IH]; simpl; [reflexivity|].
  destruct (String.eqb p path) eqn:E; simpl; [exact IH|]. now rewrite E.
Qed.

Lemma file_get_remove_neq path p fs :
  p <> path -> file_get p (file_remove path fs) = file_get p fs.
Proof.
  intros Hp. induction fs as [|[q d] fs IH]; simpl; [reflexivity|].
  destruct (String.eqb q path) eqn:E; simpl.
  - apply String.eqb_eq in E. subst q.
    destruct (String.eqb path p) eqn:E'; [|exact IH].
    apply String.eqb_eq in E'. congruence.
  - now rewrite IH.
Qed.

Lemma file_remove_put path data fs :
  file_remove path (file_put path data fs) = file_remove path fs.
Proof.
  unfold file_put. simpl. rewrite String.eqb_refl. simpl.
  unfold file_remove. induction fs as [|[p d] fs IH]; simpl; [reflexivity|].
  destruct (String.eqb p path) eqn:E; simpl; [exact IH|].
  now rewrite E, IH.
Qed.

Lemma file_get_put path data fs :
  file_get path (file_put path data fs) = Some data.
Proof. unfold file_put. simpl. now rewrite String.eqb_refl. Qed.

(** The extraction proper only reads: whatever the type of the file and
    whatever the parsers answer, it leaves the files as they are. *)
Lemma extraction_keeps_files env (fileType path : string) w :
  files
    (snd
       ((if String.eqb fileType "application/pdf" then
           dataBuffer <- fs_readFile env path ;; pdfParse env dataBuffer
         else if String.eqb fileType "application/msword"
                 || String.eqb fileType
                      "application/vnd.openxmlformats-officedocument.wordprocessingml.document"
         then
           data <- fs_readFile env path ;;
           lift_outcome (mammoth_extractRawText env data)
         else if String.eqb fileType "text/plain" then
           data <- fs_readFile env path ;; ret (utf8_decode env data)
         else throw (Error "Unsupported file type")) w))
  = files w.
Proof.
  assert (Hread : forall w0,
            files (snd (fs_readFile env path w0)) = files w0).
  { intros w0. unfold fs_readFile, fs_call.
    destruct (fs_fault env (fs_calls w0)); [reflexivity|].
    now destruct (file_get path (files w0)). }
  destruct (String.eqb fileType "application/pdf");
    [|destruct (_ || _); [|destruct (String.eqb fileType "text/plain")]];
    unfold bind, pdfParse, try_catch, lift_outcome, ret, throw;
    try reflexivity;
    specialize (Hread w);
    destruct (fs_readFile env path w) as [[d|e] w1]; simpl in *;
    try exact Hread.
  all: first [ now destruct (pdf_parse env d)
             | now destruct (mammoth_extractRawText env d) ].
Qed.

(** On a disk without faults, the files [processFile] leaves behind are the
    ones it found, less the temporary path. *)
Lemma processFile_files env file w :
  (forall n, fs_fault env n = false) ->
  files (snd (processFile env file w))
  = file_remove (tempFilePath env file w) (files w).
Proof.
  intros Hfs. unfold tempFilePath, processFile.
  set (path := path_join env (os_tmpdir env) _).
  unfold try_catch at 1. unfold bind at 1. unfold uuid_call at 1.
  unfold bind at 1. unfold fs_writeFile, fs_call at 1. simpl.
  rewrite Hfs. fold path.
  set (w2 := mkWorld _ _ _ (file_put path _ _) _ _).
  assert (Hput : files w2 = file_put path (MulterFile.buffer file) (files w))
    by reflexivity.
  assert (Hget : file_get path (files w2) = Some (MulterFile.buffer file))
    by apply file_get_put.
  rewrite <- (file_remove_put path (MulterFile.buffer file) (files w)).
  rewrite <- Hput. clearbody w2. cbv zeta.
  unfold try_catch at 1. unfold bind at 1.
  pose proof (extraction_keeps_files env (MulterFile.mimetype file) path w2)
    as Hkeep.
  match type of Hkeep with files (snd (?m w2)) = _ =>
    destruct (m w2) as [[content|e] w3] end; simpl in Hkeep.
  - unfold bind, fs_unlink, fs_call. rewrite Hfs, Hkeep, Hget. simpl.
    reflexivity.
  - unfold bind, try_catch, fs_unlink, fs_call.
    rewrite Hfs, Hkeep, Hget. simpl. reflexivity.
Qed.

(** X10. On a disk without faults [processFile] cleans up after itself, whether
    it returns or throws: afterwards no file is left at the temporary path
    and every other file is as it was. *)
Theorem processFile_removes_temp_file env file w :
  (forall n, fs_fault env n = false) ->
  let w' := snd (processFile env file w) in
  file_get (tempFilePath env file w) (files w') = None
  /\ forall path,
       path <> tempFilePath env file w ->
       file_get path (files w') = file_get path (files w).
Proof.
  intros Hfs w'. subst w'. rewrite (processFile_files env file w Hfs).
  split; [apply file_get_remove_eq|].
  intros path Hp. now apply file_get_remove_neq.
Qed.

(** [notes.txt] processed next to a file that was there before: the
    temporary file is gone, the other file is still there. *)
Lemma processFile_removes_temp_file_witness :
  let w := mkWorld MemStorage_new 0 [] [("/tmp/keep.txt", [])] 0 0 in
  let w' := snd (processFile Demo.env Demo.notes_txt w) in
  file_get "/tmp/uuid0.txt" (files w') = None
  /\ file_get "/tmp/keep.txt" (files w') = Some [].
Proof.
  intros w w'.
  destruct (processFile_removes_temp_file Demo.env Demo.notes_txt w
              (fun _ => eq_refl)) as [Hgone Hkept].
  split; [exact Hgone|].
  apply (Hkept "/tmp/keep.txt"). discriminate.
Defined.




(* ------------------------------------------------------------------------- *)
(** ** The upload middleware *)

Lemma includes_eq l s : includes l s = true -> In s l.
Proof.
  unfold includes. rewrite existsb_exists.
  intros [x [Hin Heq]]. apply String.eqb_eq in Heq. now subst.
Qed.

(** X12. A file the filter lets through has one of the types in
    [validFileTypes], so the handler's own check of the type never refuses
    a file that got past the filter; and its extension goes with its type. *)
Theorem fileFilter_implies_valid_type env file :
  fileFilter env file = true ->
  let extension :=
    toLowerCase env (path_extname env (MulterFile.originalname file)) in
  includes validFileTypes (MulterFile.mimetype file) = true
  /\ (MulterFile.mimetype file = "application/pdf" <-> extension = ".pdf")
  /\ (MulterFile.mimetype file = "text/plain" <-> extension = ".txt").
Proof.
  intros H extension. unfold fileFilter in H. fold extension in H.
  apply orb_true_iff in H as [H | H];
    [apply orb_true_iff in H as [H | H]|];
    apply andb_true_iff in H as [He Hm].
  - apply String.eqb_eq in He, Hm. rewrite He, Hm.
    split; [reflexivity|]. split; split; intros; try reflexivity;
      discriminate.
  - apply includes_eq in He, Hm. simpl in He, Hm.
    destruct He as [<- | [<- | []]], Hm as [<- | [<- | []]];
      (split; [reflexivity|]); split; split; intros; discriminate.
  - apply String.eqb_eq in He, Hm. rewrite He, Hm.
    split; [reflexivity|]. split; split; intros; try reflexivity;
      discriminate.
Qed.

Lemma fileFilter_implies_valid_type_witness :
  includes validFileTypes (MulterFile.mimetype Demo.notes_txt) = true.
Proof.
  exact (proj1 (fileFilter_implies_valid_type Demo.env Demo.notes_txt
                  eq_refl)).
Defined.

(* ------------------------------------------------------------------------- *)
(** ** The chat route: refusals *)

(** X14. A chat request that is refused has changed nothing: a body that does
    not fit the schema is answered with 400, an unknown document with 404,
    and, for a known document, an unknown session id other than 0 with 404;
    each time the world is exactly as before.  The document is checked
    before the session. *)
Theorem handleChat_refusals_change_nothing env body w :
  match chatSchema_safeParse body with
  | None =>
      handleChat env body w
      = (Returned (mkResponse 400 (InvalidRequestBody "Invalid request body")),
         w)
  | Some data =>
      match JsMap.get (ChatData.documentId data) (documents (storage w)) with
      | None =>
          handleChat env body w
          = (Returned (mkResponse 404 (Message_ "Document not found")), w)
      | Some _ =>
          forall sid,
            ChatData.sessionId data = Some sid -> sid <> 0 ->
            JsMap.get sid (sessions (storage w)) = None ->
            handleChat env body w
            = (Returned (mkResponse 404 (Message_ "Session not found")), w)
      end
  end.
Proof.
  destruct (chatSchema_safeParse body) as [data|] eqn:Hp.
  - destruct (JsMap.get (ChatData.documentId data) (documents (storage w)))
      as [document|] eqn:Hd.
    + intros sid Hs Hnz Hg.
      exact (handleChat_session_not_found env body data document sid w
               Hp Hd Hs Hnz Hg).
    + unfold handleChat, try_catch, bind, getDocument, get_storage, ret.
      rewrite Hp. simpl. now rewrite Hd.
  - unfold handleChat, try_catch, ret. now rewrite Hp.
Qed.



(* ------------------------------------------------------------------------- *)
(** ** The routes with an id in the path: refusals *)

(** X16. Each of the four routes under [/api/documents/:id] answers 400 when the
    id is not a number and 404 when no document is stored under it, and has
    then changed nothing; the same holds for [/api/sessions/:id/messages]
    and the sessions. *)
Theorem id_routes_refusals_change_nothing env w :
  Forall
    (fun handler : option Z -> M Reply =>
       handler None w
       = (Returned (mkReply 400 (Notice "Invalid document ID")), w)
       /\ forall id,
            JsMap.get id (documents (storage w)) = None ->
            handler (Some id) w
            = (Returned (mkReply 404 (Notice "Document not found")), w))
    [get_document; delete_document; get_document_sessions;
     post_document_sessions env]
  /\ get_session_messages None w
     = (Returned (mkReply 400 (Notice "Invalid session ID")), w)
  /\ forall id,
       JsMap.get id (sessions (storage w)) = None ->
       get_session_messages (Some id) w
       = (Returned (mkReply 404 (Notice "Session not found")), w).
Proof.
  split; [repeat constructor|split; [reflexivity|]].
  all: intros id Hg;
    unfold get_document, delete_document, get_document_sessions,
      post_document_sessions, get_session_messages, try_catch, bind,
      getDocument, getSession, get_storage, ret; simpl; now rewrite Hg.
Qed.

(* ------------------------------------------------------------------------- *)
(** ** What the routes keep *)

Lemma has_get {V} k (m : JsMap.t V) :
  JsMap.has k m = true <-> exists v, JsMap.get k m = Some v.
Proof.
  unfold JsMap.has. destruct (JsMap.get k m) as [v|]; split.
  - eauto.
  - reflexivity.
  - discriminate.
  - intros [v H]. discriminate.
Qed.

Lemma has_set_mono {V} j k (v : V) (m : JsMap.t V) :
  JsMap.has j m = true -> JsMap.has j (JsMap.set k v m) = true.
Proof.
  intros H. destruct (Z.eq_dec k j) as [->|Hkj].
  - unfold JsMap.has. now rewrite get_set_eq.
  - unfold JsMap.has in *. now rewrite get_set_neq.
Qed.

Lemma has_app_mono {V} j (m l : JsMap.t V) :
  JsMap.has j m = true -> JsMap.has j (m ++ l) = true.
Proof.
  unfold JsMap.has. induction m as [|[k v] m IH]; simpl; [discriminate|].
  destruct (k =? j); auto.
Qed.

Lemma route_inv_start env : route_inv env World_start.
Proof.
  split; [apply store_inv_start|]. split; [|constructor].
  constructor; constructor.
Qed.

Lemma route_inv_ext env w w' :
  storage w' = storage w -> dates w' = dates w ->
  route_inv env w -> route_inv env w'.
Proof.
  intros Hs Hd (H1 & [H2 H3] & H4). split; [|split].
  - exact (store_inv_ext env w w' Hs Hd H1).
  - constructor; rewrite Hs; assumption.
  - unfold chronological. now rewrite Hs.
Qed.

Section RoutesKeep.
Variable env : Env.
Hypothesis Hclock : clock_monotone env.

Lemma createDocument_keeps insertDocument w :
  route_inv env w ->
  route_inv env (snd (createDocument env insertDocument w))
  /\ forall document,
       fst (createDocument env insertDocument w) = Returned document ->
       1 <= Document.id document
            < documentIdCounter
                (storage (snd (createDocument env insertDocument w))).
Proof.
  intros (Hinv & [Hrm Hrs] & Hch).
  pose proof (createDocument_inv env Hclock insertDocument w Hinv) as Hinv'.
  pose proof (inv_counters _ _ Hinv) as (_ & Hc & _).
  rewrite (createDocument_run env insertDocument w Hinv) in *. simpl in *.
  split; [split; [exact Hinv'|split]|].
  - constructor; simpl; [exact Hrm|].
    eapply Forall_impl; [|exact Hrs]. simpl. intros x Hx. lia.
  - exact Hch.
  - intros document [= <-]. simpl. lia.
Qed.

Lemma deleteDocument_keeps id w :
  route_inv env w -> route_inv env (snd (deleteDocument id w)).
Proof.
  intros (Hinv & [Hrm Hrs] & Hch). split; [|split].
  - now apply deleteDocument_inv.
  - constructor; assumption.
  - exact Hch.
Qed.

Lemma createSession_keeps insertSession w :
  route_inv env w ->
  1 <= InsertSession.documentId insertSession
       < documentIdCounter (storage w) ->
  route_inv env (snd (createSession env insertSession w))
  /\ forall session,
       fst (createSession env insertSession w) = Returned session ->
       InsertSession.documentId insertSession = Session.documentId session
       /\ JsMap.has (Session.id session)
            (sessions (storage (snd (createSession env insertSession w))))
          = true.
Proof.
  intros (Hinv & [Hrm Hrs] & Hch) Hdoc.
  pose proof (createSession_inv env Hclock insertSession w Hinv) as Hinv'.
  pose proof (keyed_fresh _ _ _ _ _ (inv_sessions _ _ Hinv) (Z.le_refl _))
    as Hfresh.
  rewrite (createSession_run env insertSession w Hinv) in *. simpl in *.
  split; [split; [exact Hinv'|split]|].
  - constructor; simpl.
    + eapply Forall_impl; [|exact Hrm]. simpl. intros m.
      apply has_app_mono.
    + apply Forall_values_app; [exact Hrs | exact Hdoc].
  - exact Hch.
  - intros session [= <-]. simpl. split; [reflexivity|].
    apply has_get. eexists.
    exact (proj1 (set_app_last _ _ (Session.mk 0 0 "" 0 0) _ Hfresh)).
Qed.

Lemma createMessage_keeps insertMessage w :
  route_inv env w ->
  JsMap.has (InsertMessage.documentId insertMessage) (sessions (storage w))
  = true ->
  route_inv env (snd (createMessage env insertMessage w))
  /\ forall k,
       JsMap.has k (sessions (storage w)) = true ->
       JsMap.has k
         (sessions (storage (snd (createMessage env insertMessage w))))
       = true.
Proof.
  intros (Hinv & [Hrm Hrs] & Hch) Hhas.
  pose proof (createMessage_inv env Hclock insertMessage w Hinv) as Hinv'.
  pose proof (inv_timestamp _ _ Hinv) as Ht.
  apply has_get in Hhas as [session Hg].
  rewrite (createMessage_run env insertMessage w Hinv) in *.
  rewrite Hg in *. simpl in *.
  assert (Hmono : forall k,
            JsMap.has k (sessions (storage w)) = true ->
            JsMap.has k
              (JsMap.set (InsertMessage.documentId insertMessage)
                 (touch session (wall_clock env (S (dates w))))
                 (sessions (storage w))) = true)
    by (intros k; apply has_set_mono).
  split; [split; [exact Hinv'|split]|exact Hmono].
  - constructor; simpl.
    + apply Forall_values_app.
      * eapply Forall_impl; [|exact Hrm]. simpl. intros m. apply Hmono.
      * simpl. unfold JsMap.has. now rewrite get_set_eq.
    + apply Forall_values_set; [exact Hrs|]. simpl.
      rewrite Forall_forall in Hrs. apply Hrs.
      apply in_map_iff.
      exists (InsertMessage.documentId insertMessage, session).
      split; [reflexivity | now apply get_Some_In].
  - unfold chronological. simpl. rewrite values_app_last.
    apply StronglySorted_app_last; [exact Hch | exact Ht].
Qed.

(** Sequencing, with what the first step hands to the second. *)
Lemma route_bind {A B} (m : M A) (k : A -> M B) (Q : A -> World -> Prop) w :
  route_inv env (snd (m w)) ->
  (forall a, fst (m w) = Returned a -> Q a (snd (m w))) ->
  (forall a w1, route_inv env w1 -> Q a w1 -> route_inv env (snd (k a w1))) ->
  route_inv env (snd (bind m k w)).
Proof.
  intros Hm HQ Hk. unfold bind.
  destruct (m w) as [[a|e] w1]; simpl in *; [|exact Hm].
  apply Hk; [exact Hm | now apply HQ].
Qed.

Lemma route_try_catch {A} (m : M A) (response : JsError -> A) w :
  route_inv env (snd (m w)) ->
  route_inv env (snd (try_catch m (fun error => ret (response error)) w)).
Proof.
  unfold try_catch. now destruct (m w) as [[a|e] w1].
Qed.
End RoutesKeep.

Section RouteHandlersKeep.
Variable env : Env.
Hypothesis Hclock : clock_monotone env.

Lemma store_upload_keeps file content w :
  route_inv env w -> route_inv env (snd (store_upload env file content w)).
Proof.
  intros H. unfold store_upload.
  match goal with |- context [createDocument env ?i] =>
    destruct (createDocument_keeps env Hclock i w H) as [H1 HQ1] end.
  eapply route_bind
    with (Q := fun document w1 =>
                 1 <= Document.id document < documentIdCounter (storage w1));
    [exact H1 | exact HQ1 |].
  intros document w1 Hw1 Hid.
  match goal with |- context [createSession env ?i] =>
    destruct (createSession_keeps env Hclock i w1 Hw1 Hid) as [H2 HQ2] end.
  eapply route_bind
    with (Q := fun session w2 =>
                 JsMap.has (Session.id session) (sessions (storage w2))
                 = true);
    [exact H2 | intros s Hs; exact (proj2 (HQ2 s Hs)) |].
  intros session w2 Hw2 Hhas.
  match goal with |- context [createMessage env ?i] =>
    destruct (createMessage_keeps env Hclock i w2 Hw2 Hhas) as [H3 _] end.
  eapply route_bind with (Q := fun _ _ => True);
    [exact H3 | trivial | intros; assumption].
Qed.

Lemma upload_route_keeps part w :
  route_inv env w -> route_inv env (snd (upload_route env part w)).
Proof.
  intros H. unfold upload_route, bind.
  assert (Hh : forall req_file,
            route_inv env (snd (handleUpload env req_file w))).
  { intros req_file. unfold handleUpload. apply route_try_catch.
    destruct req_file as [file|]; [|exact H].
    destruct (negb (includes validFileTypes (MulterFile.mimetype file)));
      [exact H|].
    pose proof (frames_processFile env file w) as (Hs & Hd & _).
    apply route_bind with (Q := fun _ _ => True);
      [exact (route_inv_ext env w _ Hs Hd H) | trivial |].
    intros content w1 Hw1 _.
    destruct (String.eqb content ""); [exact Hw1|].
    now apply store_upload_keeps. }
  unfold upload_single, throw, ret. destruct part as [file|]; [|apply Hh].
  destruct (negb (fileFilter env file)); [exact H|].
  destruct (fileSize_limit <=? MulterFile.size file); [exact H | apply Hh].
Qed.

Lemma get_or_create_session_keeps document data w :
  route_inv env w ->
  JsMap.get (ChatData.documentId data) (documents (storage w))
  = Some document ->
  route_inv env (snd (get_or_create_session env document data w))
  /\ forall session,
       fst (get_or_create_session env document data w)
       = Returned (inr session) ->
       JsMap.has (Session.id session)
         (sessions (storage (snd (get_or_create_session env document data w))))
       = true.
Proof.
  intros H Hd. pose proof H as (Hinv & _).
  unfold get_or_create_session.
  destruct (truthy (ChatData.sessionId data)).
  - unfold bind, getSession, get_storage, ret. simpl.
    destruct (JsMap.get _ (sessions (storage w))) as [found|] eqn:Hg;
      simpl; (split; [exact H|]); intros session [= Hs].
    subst found.
    destruct (keyed_get _ _ _ _ _ _ (inv_sessions _ _ Hinv) Hg) as [-> _].
    apply has_get. eauto.
  - destruct (keyed_get _ _ _ _ _ _ (inv_documents _ _ Hinv) Hd)
      as [_ Hrange].
    match goal with |- context [createSession env ?i] =>
      destruct (createSession_keeps env Hclock i w H Hrange) as [H1 HQ1];
      rewrite (snd_bind_ret (createSession env i) inr);
      unfold bind, ret;
      destruct (createSession env i w) as [[s|e] w1]
    end; simpl in *; (split; [exact H1|]); intros session [= Hs].
    subst s. exact (proj2 (HQ1 session eq_refl)).
Qed.

Lemma chat_in_session_keeps document message session w :
  route_inv env w ->
  JsMap.has (Session.id session) (sessions (storage w)) = true ->
  route_inv env (snd (chat_in_session env document message session w)).
Proof.
  intros H Hhas. unfold chat_in_session.
  set (Q := fun (_ : Message.t) w1 =>
              JsMap.has (Session.id session) (sessions (storage w1)) = true).
  match goal with |- context [createMessage env ?i] =>
    destruct (createMessage_keeps env Hclock i w H Hhas) as [H1 Hk1] end.
  apply route_bind with (Q := Q); [exact H1 | intros; now apply Hk1 |].
  intros u w1 Hw1 Hq1.
  apply route_bind
    with (Q := fun (_ : list Message.t) w2 =>
                 JsMap.has (Session.id session) (sessions (storage w2))
                 = true);
    [exact Hw1 | intros; exact Hq1 |].
  intros sessionMessages w2 Hw2 Hq2.
  match goal with |- context [groqChatCompletion env ?msgs] =>
    pose proof (groqChatCompletion_frame env msgs w2) as (Hs & Hd & _) end.
  apply route_bind
    with (Q := fun (_ : string) w3 =>
                 JsMap.has (Session.id session) (sessions (storage w3))
                 = true);
    [exact (route_inv_ext env w2 _ Hs Hd Hw2)
    | intros; now rewrite Hs |].
  intros reply w3 Hw3 Hq3.
  match goal with |- context [createMessage env ?i] =>
    destruct (createMessage_keeps env Hclock i w3 Hw3 Hq3) as [H4 _] end.
  apply route_bind with (Q := fun _ _ => True);
    [exact H4 | trivial | intros; assumption].
Qed.

Lemma handleChat_keeps body w :
  route_inv env w -> route_inv env (snd (handleChat env body w)).
Proof.
  intros H. unfold handleChat. apply route_try_catch.
  destruct (chatSchema_safeParse body) as [data|]; [|exact H].
  unfold bind at 1. unfold getDocument, bind at 1, get_storage, ret at 1.
  simpl.
  destruct (JsMap.get (ChatData.documentId data) (documents (storage w)))
    as [document|] eqn:Hd; [|exact H].
  destruct (get_or_create_session_keeps document data w H Hd) as [H1 HQ1].
  apply route_bind
    with (Q := fun resolved w1 =>
                 match resolved with
                 | inl _ => True
                 | inr session =>
                     JsMap.has (Session.id session) (sessions (storage w1))
                     = true
                 end);
    [exact H1 | |].
  - intros [response|session] Hr; [trivial | now apply HQ1].
  - intros [response|session] w1 Hw1 Hq; [exact Hw1|].
    now apply chat_in_session_keeps.
Qed.

Lemma post_document_sessions_keeps id w :
  route_inv env w -> route_inv env (snd (post_document_sessions env id w)).
Proof.
  intros H. pose proof H as (Hinv & _).
  unfold post_document_sessions. apply route_try_catch.
  destruct id as [id|]; [|exact H].
  unfold bind at 1. unfold getDocument, bind at 1, get_storage, ret at 1.
  simpl.
  destruct (JsMap.get id (documents (storage w))) as [document|] eqn:Hd;
    [|exact H].
  destruct (keyed_get _ _ _ _ _ _ (inv_documents _ _ Hinv) Hd) as [_ Hrange].
  match goal with |- context [createSession env ?i] =>
    destruct (createSession_keeps env Hclock i w H Hrange) as [H1 HQ1] end.
  eapply route_bind
    with (Q := fun session w1 =>
                 JsMap.has (Session.id session) (sessions (storage w1))
                 = true);
    [exact H1 | intros s Hs; exact (proj2 (HQ1 s Hs)) |].
  intros session w1 Hw1 Hhas.
  match goal with |- context [createMessage env ?i] =>
    destruct (createMessage_keeps env Hclock i w1 Hw1 Hhas) as [H2 _] end.
  eapply route_bind with (Q := fun _ _ => True);
    [exact H2 | trivial | intros; assumption].
Qed.

Lemma delete_document_keeps id w :
  route_inv env w -> route_inv env (snd (delete_document id w)).
Proof.
  intros H. unfold delete_document. apply route_try_catch.
  destruct id as [id|]; [|exact H].
  unfold bind at 1. unfold getDocument, bind at 1, get_storage, ret at 1.
  simpl.
  destruct (JsMap.get id (documents (storage w))); [|exact H].
  rewrite (snd_bind_ret (deleteDocument id)
             (fun _ => mkReply 200 (Notice "Document deleted successfully"))).
  now apply deleteDocument_keeps.
Qed.

(** The routes that only read leave the world as it is. *)
Lemma reading_routes_change_nothing id w :
  snd (get_health w) = w /\ snd (get_documents w) = w
  /\ snd (get_document id w) = w /\ snd (get_document_sessions id w) = w
  /\ snd (get_session_messages id w) = w.
Proof.
  unfold get_health, get_documents, get_document, get_document_sessions,
    get_session_messages, try_catch, bind, getDocuments, getDocument,
    getSessions, getSession, getMessages, get_storage, ret.
  destruct id as [id|]; simpl; repeat split;
    try (destruct (JsMap.get id (documents (storage w))); reflexivity);
    try (destruct (JsMap.get id (sessions (storage w))); reflexivity).
Qed.

Lemma route_keeps r w : route_inv env w -> route_inv env (route env r w).
Proof.
  intros H.
  destruct r as [| |id|part|id|id|id|id|body]; simpl;
    try (destruct (reading_routes_change_nothing id w)
           as (H1 & H2 & H3 & H4 & H5); rewrite ?H3, ?H4, ?H5; exact H).
  - exact H.
  - exact H.
  - now apply upload_route_keeps.
  - now apply delete_document_keeps.
  - now apply post_document_sessions_keeps.
  - now apply handleChat_keeps.
Qed.

Lemma routes_keep rs w :
  route_inv env w -> route_inv env (routes env rs w).
Proof.
  unfold routes. revert w.
  induction rs as [|r rs IH]; intros w H; simpl; [exact H|].
  apply IH. now apply route_keeps.
Qed.
End RouteHandlersKeep.

(* ------------------------------------------------------------------------- *)
(** ** Every world the routes lead to *)



(** X18. Under a clock that does not run backwards, whatever requests the routes
    have handled since start-up, every stored message belongs to a stored
    session (sessions are never removed), and every stored session names a
    document identifier that has been handed out, though that document may
    have been deleted since. *)
Theorem routes_keep_references env rs :
  clock_monotone env ->
  let w := routes env rs World_start in
  (forall m,
     In m (JsMap.values (messages (storage w))) ->
     exists session,
       JsMap.get (Message.documentId m) (sessions (storage w))
       = Some session
       /\ Session.id session = Message.documentId m)
  /\ (forall x,
        In x (JsMap.values (sessions (storage w))) ->
        1 <= Session.documentId x < documentIdCounter (storage w)).
Proof.
  intros Hclock w.
  destruct (routes_keep env Hclock rs World_start (route_inv_start env))
    as (Hinv & [Hrm Hrs] & _).
  fold w in Hinv, Hrm, Hrs. split.
  - intros m Hm. rewrite Forall_forall in Hrm.
    apply Hrm, has_get in Hm as [session Hg]. exists session.
    split; [exact Hg|].
    now destruct (keyed_get _ _ _ _ _ _ (inv_sessions _ _ Hinv) Hg).
  - intros x Hx. rewrite Forall_forall in Hrs. now apply Hrs.
Qed.

(** After document 1 has been deleted, the messages of its session 1 are
    still there, and session 1 is still stored. *)
Lemma routes_keep_references_witness :
  JsMap.get 1 (documents (storage Sample_world)) = None
  /\ forall m,
       In m (JsMap.values (messages (storage Sample_world))) ->
       exists session,
         JsMap.get (Message.documentId m) (sessions (storage Sample_world))
         = Some session
         /\ Session.id session = Message.documentId m.
Proof.
  split; [reflexivity|].
  exact (proj1 (routes_keep_references Demo.env Sample_requests Demo_clock)).
Defined.

(** X19. Under a clock that does not run backwards, whatever requests the routes
    have handled, [getMessages] answers the messages of a session in the
    order in which they were created: the sort by timestamp changes
    nothing. *)
Theorem routes_messages_in_creation_order env rs sessionId :
  clock_monotone env ->
  let w := routes env rs World_start in
  getMessages sessionId w
  = (Returned
       (filter (fun message => Message.documentId message =? sessionId)
          (JsMap.values (messages (storage w)))),
     w).
Proof.
  intros Hclock w.
  destruct (routes_keep env Hclock rs World_start (route_inv_start env))
    as (_ & _ & Hch).
  fold w in Hch. rewrite getMessages_history. unfold history.
  rewrite (Array_sort_sorted_id Message.timestamp); [reflexivity|].
  now apply StronglySorted_filter.
Qed.

Lemma routes_messages_in_creation_order_witness :
  exists system user assistant,
    getMessages 1 Sample_world
    = (Returned [system; user; assistant], Sample_world)
    /\ Message.id system = 1 /\ Message.id user = 3
    /\ Message.id assistant = 4.
Proof.
  pose proof (routes_messages_in_creation_order Demo.env Sample_requests 1
                Demo_clock) as H.
  change (routes Demo.env Sample_requests World_start) with Sample_world in H.
  cbv zeta in H. do 3 eexists.
  split; [rewrite H; reflexivity|]. repeat split.
Defined.

(* ------------------------------------------------------------------------- *)
(** ** Uploads and new sessions start a conversation *)








(* ------------------------------------------------------------------------- *)
(** ** Deleting a document *)

(** X22. [DELETE /api/documents/:id] on a stored document answers 200 and removes
    the document only.  Its sessions and messages stay in the store and can
    still be read through [/api/sessions/:id/messages], but the sessions of
    the document can no longer be listed and no chat request naming the
    document is accepted: both are answered with 404. *)
Theorem delete_document_orphans_sessions env id document w :
  JsMap.get id (documents (storage w)) = Some document ->
  exists w',
    delete_document (Some id) w
    = (Returned (mkReply 200 (Notice "Document deleted successfully")), w')
    /\ get_document (Some id) w'
       = (Returned (mkReply 404 (Notice "Document not found")), w')
    /\ get_document_sessions (Some id) w'
       = (Returned (mkReply 404 (Notice "Document not found")), w')
    /\ sessions (storage w') = sessions (storage w)
    /\ messages (storage w') = messages (storage w)
    /\ (forall sid,
          fst (get_session_messages sid w') = fst (get_session_messages sid w))
    /\ (forall body data,
          chatSchema_safeParse body = Some data ->
          ChatData.documentId data = id ->
          handleChat env body w'
          = (Returned (mkResponse 404 (Message_ "Document not found")), w')).
Proof.
  intros Hd. eexists. split.
  { unfold delete_document, try_catch, bind, getDocument, deleteDocument,
      get_storage, put_storage, ret. simpl. rewrite Hd. reflexivity. }
  simpl.
  assert (Hgone : JsMap.get id (JsMap.remove id (documents (storage w)))
                  = None) by apply get_remove_eq.
  split; [|split; [|split; [|split; [|split]]]]; try reflexivity.
  - unfold get_document, try_catch, bind, getDocument, get_storage, ret.
    simpl. now rewrite Hgone.
  - unfold get_document_sessions, try_catch, bind, getDocument, get_storage,
      ret.
    simpl. now rewrite Hgone.
  - intros [sid|]; [|reflexivity].
    unfold get_session_messages, try_catch, bind, getSession, getMessages,
      get_storage, ret.
    simpl. now destruct (JsMap.get sid (sessions (storage w))).
  - intros body data Hp Hid.
    unfold handleChat, try_catch, bind, getDocument, get_storage, ret.
    rewrite Hp. simpl. rewrite Hid. now rewrite Hgone.
Qed.

(** Document 1 deleted after the upload: session 1 still answers its
    greeting. *)
Lemma delete_document_orphans_sessions_witness :
  exists w',
    delete_document (Some 1) Demo.after_upload
    = (Returned (mkReply 200 (Notice "Document deleted successfully")), w')
    /\ get_document_sessions (Some 1) w'
       = (Returned (mkReply 404 (Notice "Document not found")), w')
    /\ fst (get_session_messages (Some 1) w')
       = fst (get_session_messages (Some 1) Demo.after_upload).
Proof.
  destruct (delete_document_orphans_sessions Demo.env 1 Demo.document1
              Demo.after_upload eq_refl)
    as (w' & Hrun & _ & Hlist & _ & _ & Hread & _).
  exists w'. auto.
Defined.

(* ------------------------------------------------------------------------- *)
(** ** What the store does not check *)




(* ------------------------------------------------------------------------- *)
(** ** The store without the clock

    The keys of the four maps and the counters do not depend on what the
    clock reads: what follows holds under any clock, also one that is set
    back while the server runs. *)

Lemma store_inv_keys env w : store_inv env w -> keys_inv w.
Proof. intros [Hu Hd Hs Hm Hc _ _]. now constructor. Qed.

Lemma keys_inv_start : keys_inv World_start.
Proof. exact (store_inv_keys Demo.env _ (store_inv_start Demo.env)). Qed.

Lemma keys_inv_ext w w' : storage w' = storage w -> keys_inv w -> keys_inv w'.
Proof. intros Hs [Hu Hd Hse Hm Hc]. constructor; rewrite Hs; assumption. Qed.

Section KeysRuns.
Variable env : Env.

Lemma createDocument_run_keys insertDocument w :
  keys_inv w ->
  let s := storage w in
  let document :=
    Document.mk (documentIdCounter s)
      (InsertDocument.name insertDocument)
      (InsertDocument.originalName insertDocument)
      (InsertDocument.mimeType insertDocument)
      (InsertDocument.size insertDocument)
      (InsertDocument.content insertDocument)
      (wall_clock env (dates w)) in
  createDocument env insertDocument w =
    (Returned document,
     later w 1
       (set_documents s (documents s ++ [(documentIdCounter s, document)])
          (documentIdCounter s + 1))).
Proof.
  intros Hinv. pose proof (keys_documents _ Hinv) as Hk.
  pose proof (keyed_fresh _ _ _ _ _ Hk (Z.le_refl _)) as Hfresh.
  destruct w as [s d p f c u]. destruct s. simpl in *.
  unfold createDocument, bind, get_storage, put_storage, new_Date, ret,
    with_storage, later, set_documents. simpl.
  now rewrite (set_fresh _ _ _ _ Hfresh).
Qed.

Lemma createSession_run_keys insertSession w :
  keys_inv w ->
  let s := storage w in
  let now := wall_clock env (dates w) in
  let session :=
    Session.mk (sessionIdCounter s)
      (InsertSession.documentId insertSession)
      (InsertSession.name insertSession) now now in
  createSession env insertSession w =
    (Returned session,
     later w 1
       (set_sessions s (sessions s ++ [(sessionIdCounter s, session)])
          (sessionIdCounter s + 1))).
Proof.
  intros Hinv. pose proof (keys_sessions _ Hinv) as Hk.
  pose proof (keyed_fresh _ _ _ _ _ Hk (Z.le_refl _)) as Hfresh.
  destruct w as [s d p f c u]. destruct s. simpl in *.
  unfold createSession, bind, get_storage, put_storage, new_Date, ret,
    with_storage, later, set_sessions. simpl.
  now rewrite (set_fresh _ _ _ _ Hfresh).
Qed.

Lemma createMessage_run_keys insertMessage w :
  keys_inv w ->
  let s := storage w in
  let s1 :=
    set_messages s
      (messages s
       ++ [(messageIdCounter s, message_of env insertMessage w)])
      (messageIdCounter s + 1) in
  createMessage env insertMessage w =
    (Returned (message_of env insertMessage w),
     match JsMap.get (InsertMessage.documentId insertMessage) (sessions s) with
     | Some session =>
         later w 2
           (set_sessions s1
              (JsMap.set (InsertMessage.documentId insertMessage)
                 (touch session (wall_clock env (S (dates w))))
                 (sessions s))
              (sessionIdCounter s))
     | None => later w 1 s1
     end).
Proof.
  intros Hinv. pose proof (keys_sessions _ Hinv) as Hks.
  pose proof (keys_messages _ Hinv) as Hkm.
  pose proof (keyed_fresh _ _ _ _ _ Hkm (Z.le_refl _)) as Hfresh.
  pose proof (find_keyed _ Session.id _ _
                (InsertMessage.documentId insertMessage) Hks) as Hfind.
  destruct w as [s d p f c u]. destruct s. simpl in *.
  unfold createMessage, bind, get_storage, put_storage, new_Date, ret,
    with_storage, later, set_sessions, set_messages, message_of. simpl.
  rewrite Hfind, (set_fresh _ _ _ _ Hfresh).
  destruct (JsMap.get (InsertMessage.documentId insertMessage) sessions0)
    as [session|] eqn:Hg; simpl; [|reflexivity].
  unfold touch. destruct (keyed_get _ _ _ _ _ _ Hks Hg) as [-> _].
  reflexivity.
Qed.

Lemma keeps_keys_createUser insertUser : keeps_keys (createUser insertUser).
Proof.
  intros w [Hu Hd Hs Hm Hc]. constructor; simpl; try assumption.
  - apply keyed_set_fresh; [exact Hu | reflexivity | lia].
  - lia.
Qed.

Lemma keeps_keys_createDocument insertDocument :
  keeps_keys (createDocument env insertDocument).
Proof.
  intros w [Hu Hd Hs Hm Hc]. constructor; simpl; try assumption.
  - apply keyed_set_fresh; [exact Hd | reflexivity | lia].
  - lia.
Qed.

Lemma keeps_keys_deleteDocument id : keeps_keys (deleteDocument id).
Proof.
  intros w [Hu Hd Hs Hm Hc]. constructor; simpl; try assumption.
  now apply keyed_remove.
Qed.

Lemma keeps_keys_createSession insertSession :
  keeps_keys (createSession env insertSession).
Proof.
  intros w Hinv. rewrite (createSession_run_keys insertSession w Hinv).
  destruct Hinv as [Hu Hd Hs Hm Hc]. constructor; simpl; try assumption.
  - rewrite <- set_fresh
      by (eapply keyed_fresh; [exact Hs | apply Z.le_refl]).
    apply keyed_set_fresh; [exact Hs | reflexivity | lia].
  - lia.
Qed.

Lemma keeps_keys_updateSessionName id name :
  keeps_keys (updateSessionName id name).
Proof.
  intros w Hinv. pose proof Hinv as [Hu Hd Hs Hm Hc].
  unfold updateSessionName, bind, get_storage. simpl.
  destruct (JsMap.get id (sessions (storage w))) as [session|] eqn:Hg;
    simpl; [|exact Hinv].
  constructor; simpl; try assumption.
  eapply keyed_set_present; [exact Hs | exact Hg |].
  simpl. now destruct (keyed_get _ _ _ _ _ _ Hs Hg).
Qed.

Lemma keeps_keys_createMessage insertMessage :
  keeps_keys (createMessage env insertMessage).
Proof.
  intros w Hinv. rewrite (createMessage_run_keys insertMessage w Hinv).
  destruct Hinv as [Hu Hd Hs Hm Hc]. simpl.
  assert (Hm' :
    keyed Message.id
      (messages (storage w)
       ++ [(messageIdCounter (storage w), message_of env insertMessage w)])
      (messageIdCounter (storage w) + 1)).
  { rewrite <- set_fresh
      by (eapply keyed_fresh; [exact Hm | apply Z.le_refl]).
    apply keyed_set_fresh; [exact Hm | reflexivity | lia]. }
  destruct (JsMap.get (InsertMessage.documentId insertMessage)
              (sessions (storage w))) as [session|] eqn:Hg;
    constructor; simpl; try assumption; try lia.
  eapply keyed_set_present; [exact Hs | exact Hg |].
  simpl. now destruct (keyed_get _ _ _ _ _ _ Hs Hg).
Qed.

Lemma keeps_keys_ret {A} (a : A) : keeps_keys (ret a).
Proof. intros w H. exact H. Qed.

Lemma keeps_keys_throw {A} e : keeps_keys (@throw A e).
Proof. intros w H. exact H. Qed.

Lemma keeps_keys_bind {A B} (m : M A) (k : A -> M B) :
  keeps_keys m -> (forall a, keeps_keys (k a)) -> keeps_keys (bind m k).
Proof.
  intros Hm Hk w H. unfold bind. specialize (Hm w H).
  destruct (m w) as [[a|e] w1]; simpl in *; [now apply Hk | exact Hm].
Qed.

Lemma keeps_keys_try_catch {A} (m : M A) (h : JsError -> M A) :
  keeps_keys m -> (forall e, keeps_keys (h e)) -> keeps_keys (try_catch m h).
Proof.
  intros Hm Hh w H. unfold try_catch. specialize (Hm w H).
  destruct (m w) as [[a|e] w1]; simpl in *; [exact Hm | now apply Hh].
Qed.

Lemma keeps_keys_frames {A} (m : M A) : frames m -> keeps_keys m.
Proof.
  intros Hf w H. destruct (Hf w) as (Hs & _).
  exact (keys_inv_ext w _ Hs H).
Qed.

Lemma keeps_keys_groqChatCompletion messages :
  keeps_keys (groqChatCompletion env messages).
Proof.
  intros w H.
  destruct (groqChatCompletion_frame env messages w) as (Hs & _).
  exact (keys_inv_ext w _ Hs H).
Qed.

Lemma keeps_keys_getDocument id : keeps_keys (getDocument id).
Proof. intros w H. exact H. Qed.

Lemma keeps_keys_getSession id : keeps_keys (getSession id).
Proof. intros w H. exact H. Qed.

Lemma keeps_keys_getMessages sessionId : keeps_keys (getMessages sessionId).
Proof. intros w H. exact H. Qed.

Ltac keeps_the_keys :=
  repeat first
    [ apply keeps_keys_createDocument | apply keeps_keys_createSession
    | apply keeps_keys_createMessage | apply keeps_keys_getDocument
    | apply keeps_keys_getSession | apply keeps_keys_getMessages
    | apply keeps_keys_groqChatCompletion
    | (apply keeps_keys_frames; apply frames_processFile)
    | apply keeps_keys_ret | apply keeps_keys_throw
    | apply keeps_keys_try_catch | apply keeps_keys_bind
    | progress cbv zeta
    | match goal with
      | |- keeps_keys (if ?c then _ else _) => destruct c
      | |- keeps_keys (match ?c with _ => _ end) => destruct c
      | |- forall _, keeps_keys _ => intro
      end ].

Lemma keeps_keys_handleChat body : keeps_keys (handleChat env body).
Proof.
  unfold handleChat, get_or_create_session, chat_in_session. keeps_the_keys.
Qed.

Lemma keeps_keys_upload_route part : keeps_keys (upload_route env part).
Proof.
  unfold upload_route, upload_single, handleUpload, store_upload.
  keeps_the_keys.
Qed.

Lemma keeps_keys_perform op w :
  keys_inv w -> keys_inv (snd (perform env op w)).
Proof.
  intros Hinv. destruct op; unfold perform; rewrite snd_bind_ret.
  - now apply keeps_keys_createUser.
  - now apply keeps_keys_createDocument.
  - now apply keeps_keys_deleteDocument.
  - now apply keeps_keys_createSession.
  - now apply keeps_keys_updateSessionName.
  - now apply keeps_keys_createMessage.
Qed.

Lemma serve_keys request w : keys_inv w -> keys_inv (serve env request w).
Proof.
  destruct request; simpl.
  - apply keeps_keys_handleChat.
  - apply keeps_keys_upload_route.
  - now apply keeps_keys_perform.
Qed.

(** From start-up on, whatever is served and whatever the clock reads, the
    maps are keyed by id below their counters. *)
Lemma served_keys requests : keys_inv (serve_all env requests World_start).
Proof.
  unfold serve_all. generalize keys_inv_start. generalize World_start.
  induction requests as [|request requests IH]; intros w H; simpl.
  - exact H.
  - apply IH. now apply serve_keys.
Qed.
End KeysRuns.

(* ------------------------------------------------------------------------- *)
(** ** [getMessages] and [createMessage], whatever the clock reads *)

(** C4, where the code departs from it: with a clock that is set back by
    100 ms after the upload of [notes.txt], a message for session 1 moves
    the session's [lastMessageAt] from 1003 back to 905. *)
Lemma createMessage_lastMessageAt_moves_back :
  serve_all Sample.env_clock_back [PostUpload (Some Demo.notes_txt)]
    World_start
  = Demo.after_upload
  /\ JsMap.get 1 (sessions (storage Demo.after_upload)) = Some Demo.session1
  /\ Session.lastMessageAt Demo.session1 = 1003
  /\ exists message w',
       createMessage Sample.env_clock_back
         (InsertMessage.mk 1 "user" "Hello?") Demo.after_upload
       = (Returned message, w')
       /\ JsMap.get 1 (sessions (storage w'))
          = Some (touch Demo.session1 905)
       /\ 905 < 1003.
Proof.
  split; [vm_compute; reflexivity|]. split; [reflexivity|].
  split; [reflexivity|].
  do 2 eexists. split; [vm_compute; reflexivity|].
  split; [vm_compute|]; reflexivity.
Qed.

(** C4, as the code has it.  [getMessages(sessionId)] answers exactly the
    stored messages whose [documentId] field equals [sessionId] (as a
    permutation: none lost, none twice), ordered by timestamp ascending,
    and leaves the world as it is.  In every world the server reaches,
    whatever the clock reads, [createMessage] returns the message it has
    built and sets the [lastMessageAt] of the session the message refers to
    to the reading of the clock taken right after the one that stamps the
    message, touching no other session; when no session has that id the
    sessions are left exactly as they were.  Provided the clock has not run
    backwards, that reading is the old value of [lastMessageAt] or
    later. *)
Theorem getMessages_sorted_createMessage_touches
    env sessionId insertMessage requests :
  (forall w,
     exists l,
       getMessages sessionId w = (Returned l, w)
       /\ Permutation l
            (filter (fun message => Message.documentId message =? sessionId)
               (JsMap.values (messages (storage w))))
       /\ StronglySorted
            (fun a b => Message.timestamp a <= Message.timestamp b) l)
  /\ let w := serve_all env requests World_start in
     let touched := InsertMessage.documentId insertMessage in
     let now := wall_clock env (S (dates w)) in
     exists w',
       createMessage env insertMessage w
       = (Returned (message_of env insertMessage w), w')
       /\ match JsMap.get touched (sessions (storage w)) with
          | Some session =>
              sessions (storage w')
              = JsMap.set touched (touch session now) (sessions (storage w))
              /\ JsMap.get touched (sessions (storage w'))
                 = Some (touch session now)
              /\ (forall j,
                    j <> touched ->
                    JsMap.get j (sessions (storage w'))
                    = JsMap.get j (sessions (storage w)))
              /\ (clock_monotone env ->
                  Session.lastMessageAt session <= now)
          | None => sessions (storage w') = sessions (storage w)
          end.
Proof.
  split.
  - intros w. exists (history sessionId (storage w)).
    split; [reflexivity|].
    split; [apply history_perm | apply history_sorted].
  - intros w touched now.
    pose proof (served_keys env requests) as Hkeys. fold w in Hkeys.
    rewrite (createMessage_run_keys env insertMessage w Hkeys). cbv zeta.
    eexists. split; [reflexivity|]. fold touched.
    destruct (JsMap.get touched (sessions (storage w)))
      as [session|] eqn:Hg; simpl; [|reflexivity].
    split; [reflexivity|]. split; [apply get_set_eq|]. split.
    + intros j Hj. apply get_set_neq. congruence.
    + intros Hclock.
      pose proof (inv_lastMessageAt _ _ (served_inv env Hclock requests))
        as Hl.
      fold w in Hl. rewrite Forall_forall in Hl.
      assert (Hin : In session (JsMap.values (sessions (storage w)))).
      { apply in_map_iff. exists (touched, session).
        split; [reflexivity | now apply get_Some_In]. }
      specialize (Hl _ Hin). specialize (Hclock (dates w)).
      subst now. lia.
Qed.

(** A message for session 1 after the upload of [notes.txt], under the
    clock of [Demo.env]: [lastMessageAt] moves from 1003 to 1005. *)
Lemma getMessages_sorted_createMessage_touches_witness :
  exists w',
    createMessage Demo.env (InsertMessage.mk 1 "user" "Hello?")
      Demo.after_upload
    = (Returned (Message.mk 2 1 "user" "Hello?" 1004), w')
    /\ JsMap.get 1 (sessions (storage w')) = Some (touch Demo.session1 1005)
    /\ Session.lastMessageAt Demo.session1 <= 1005.
Proof.
  assert (Hreached :
    serve_all Demo.env [PostUpload (Some Demo.notes_txt)] World_start
    = Demo.after_upload) by (vm_compute; reflexivity).
  pose proof
    (proj2
       (getMessages_sorted_createMessage_touches Demo.env 1
          (InsertMessage.mk 1 "user" "Hello?")
          [PostUpload (Some Demo.notes_txt)])) as H.
  cbv zeta in H. rewrite Hreached in H.
  destruct H as (w' & Hrun & H).
  change (JsMap.get 1 (sessions (storage Demo.after_upload)))
    with (Some Demo.session1) in H.
  cbv beta iota in H. destruct H as (_ & Hget & _ & Hle).
  exists w'. split; [exact Hrun|]. split; [exact Hget|].
  exact (Hle Demo_clock).
Defined.

(* ------------------------------------------------------------------------- *)
(** ** The chat route, whatever the clock reads *)

Lemma set_set {V} k (v1 v2 : V) (m : JsMap.t V) :
  JsMap.set k v2 (JsMap.set k v1 m) = JsMap.set k v2 m.
Proof.
  induction m as [|[k' v'] m IH]; simpl.
  - now rewrite Z.eqb_refl.
  - destruct (k' =? k) eqn:E; simpl.
    + now rewrite Z.eqb_refl.
    + now rewrite E, IH.
Qed.

(** [createMessage] returns the message it has built, whatever the store
    holds. *)
Lemma createMessage_returns env insertMessage w :
  fst (createMessage env insertMessage w)
  = Returned (message_of env insertMessage w).
Proof.
  unfold createMessage, bind, get_storage, put_storage, new_Date, ret,
    message_of. simpl.
  destruct (Array_find _ _); reflexivity.
Qed.

(** The history of a session after entries have been added to the
    messages: the old history and the new messages of the session, in some
    order. *)
Lemma history_perm_app sessionId s s' l :
  messages s' = messages s ++ l ->
  Permutation (history sessionId s')
    (history sessionId s
     ++ filter (fun message => Message.documentId message =? sessionId)
          (JsMap.values l)).
Proof.
  intros H. etransitivity; [apply history_perm|].
  rewrite H. unfold JsMap.values. rewrite map_app, filter_app.
  apply Permutation_app_tail. symmetry. apply history_perm.
Qed.

Section CreateMessageKeys.
Variable env : Env.
Variable insertMessage : InsertMessage.t.
Variable w : World.
Hypothesis Hkeys : keys_inv w.

Local Abbreviation w' := (snd (createMessage env insertMessage w)).
Local Abbreviation sid := (InsertMessage.documentId insertMessage).

Lemma createMessage_keys_messages :
  messages (storage w')
  = messages (storage w)
    ++ [(messageIdCounter (storage w), message_of env insertMessage w)].
Proof.
  rewrite (createMessage_run_keys env insertMessage w Hkeys). simpl.
  now destruct (JsMap.get sid (sessions (storage w))).
Qed.

Lemma createMessage_keys_frame :
  documents (storage w') = documents (storage w)
  /\ sessionIdCounter (storage w') = sessionIdCounter (storage w)
  /\ posts w' = posts w.
Proof.
  rewrite (createMessage_run_keys env insertMessage w Hkeys). simpl.
  destruct (JsMap.get sid (sessions (storage w))); simpl; repeat split.
Qed.

Lemma createMessage_keys_sessions session :
  JsMap.get sid (sessions (storage w)) = Some session ->
  sessions (storage w')
  = JsMap.set sid (touch session (wall_clock env (S (dates w))))
      (sessions (storage w))
  /\ dates w' = S (S (dates w)).
Proof.
  intros Hg. rewrite (createMessage_run_keys env insertMessage w Hkeys).
  simpl. now rewrite Hg.
Qed.
End CreateMessageKeys.

(** From "Add user message" on, as the code runs: the user message is
    stored, the history read back is sent, and the reply, if one comes, is
    stored as well. *)
Lemma chat_in_session_unfolded env document message session w0 :
  let insertUser := InsertMessage.mk (Session.id session) "user" message in
  let u := message_of env insertUser w0 in
  let w1 := snd (createMessage env insertUser w0) in
  let sent :=
    formattedMessages document (history (Session.id session) (storage w1)) in
  chat_in_session env document message session w0 =
    match groqChatCompletion env sent w1 with
    | (Returned reply, w2) =>
        let insertAi :=
          InsertMessage.mk (Session.id session) "assistant" reply in
        (Returned
           (mkResponse 200
              (ChatReply session u (message_of env insertAi w2))),
         snd (createMessage env insertAi w2))
    | (Threw e, w2) => (Threw e, w2)
    end.
Proof.
  intros insertUser u w1 sent.
  pose proof (createMessage_returns env insertUser w0) as Hfst.
  unfold chat_in_session, bind. fold insertUser.
  subst sent w1 u.
  destruct (createMessage env insertUser w0) as [r w1'] eqn:Hrun.
  simpl in Hfst. subst r. rewrite getMessages_history. cbn [snd].
  destruct (groqChatCompletion env _ w1') as [[reply|e] w2]; [|reflexivity].
  pose proof (createMessage_returns env
                (InsertMessage.mk (Session.id session) "assistant" reply)
                w2) as Hfst2.
  destruct (createMessage env _ w2) as [r2 w3]. simpl in Hfst2. subst r2.
  reflexivity.
Qed.

Section ChatKeys.
Variable env : Env.
Variables (document : Document.t) (message : string) (session : Session.t).
Variable w0 : World.
Hypothesis Hkeys : keys_inv w0.
Hypothesis Hstored :
  JsMap.get (Session.id session) (sessions (storage w0)) = Some session.

Local Abbreviation sid := (Session.id session).
Local Abbreviation insertUser := (InsertMessage.mk sid "user" message).
Local Abbreviation u := (message_of env insertUser w0).
Local Abbreviation w1 := (snd (createMessage env insertUser w0)).
Local Abbreviation sent :=
  (formattedMessages document (history sid (storage w1))).

(** The world once the user message is stored. *)
Lemma chat_keys_user_stored :
  keys_inv w1
  /\ messages (storage w1) = messages (storage w0) ++ [(Message.id u, u)]
  /\ sessions (storage w1)
     = JsMap.set sid (touch session (wall_clock env (S (dates w0))))
         (sessions (storage w0))
  /\ dates w1 = S (S (dates w0))
  /\ posts w1 = posts w0
  /\ sessionIdCounter (storage w1) = sessionIdCounter (storage w0)
  /\ Permutation (history sid (storage w1)) (history sid (storage w0) ++ [u]).
Proof.
  pose proof (keeps_keys_createMessage env insertUser w0 Hkeys) as H1.
  pose proof (createMessage_keys_messages env insertUser w0 Hkeys) as H2.
  destruct (createMessage_keys_sessions env insertUser w0 Hkeys session
              Hstored) as [H3 H4].
  pose proof (createMessage_keys_frame env insertUser w0 Hkeys)
    as (_ & H5 & H6).
  split; [exact H1|]. split; [exact H2|]. split; [exact H3|].
  split; [exact H4|]. split; [exact H6|]. split; [exact H5|].
  pose proof (history_perm_app sid (storage w0) (storage w1) _ H2) as Hp.
  simpl in Hp. rewrite Z.eqb_refl in Hp. exact Hp.
Qed.

(** The completion call fails: the handler is left with the user message
    stored. *)
Lemma chat_keys_failed e w2 :
  groqChatCompletion env sent w1 = (Threw e, w2) ->
  chat_in_session env document message session w0 = (Threw e, w2)
  /\ storage w2 = storage w1 /\ dates w2 = dates w1.
Proof.
  intros Hgroq.
  pose proof (groqChatCompletion_frame env sent w1) as (Hs & Hd & _).
  rewrite Hgroq in Hs, Hd. simpl in Hs, Hd.
  split; [|split; assumption].
  rewrite (chat_in_session_unfolded env document message session w0).
  cbv zeta. now rewrite Hgroq.
Qed.

Variables (reply : string) (w2 : World).
Hypothesis Hreply : groqChatCompletion env sent w1 = (Returned reply, w2).

Local Abbreviation insertAi := (InsertMessage.mk sid "assistant" reply).
Local Abbreviation a := (message_of env insertAi w2).
Local Abbreviation w3 := (snd (createMessage env insertAi w2)).

(** The whole exchange: what is answered and what the store holds then. *)
Lemma chat_keys_replied :
  chat_in_session env document message session w0
  = (Returned (mkResponse 200 (ChatReply session u a)), w3)
  /\ messages (storage w3)
     = messages (storage w0) ++ [(Message.id u, u); (Message.id a, a)]
  /\ sessions (storage w3)
     = JsMap.set sid (touch session (wall_clock env (3 + dates w0)))
         (sessions (storage w0))
  /\ dates w3 = (4 + dates w0)%nat
  /\ sessionIdCounter (storage w3) = sessionIdCounter (storage w0)
  /\ Permutation (history sid (storage w3))
       (history sid (storage w0) ++ [u; a])
  /\ exists rest,
       axios_post env (List.length (posts w0)) sent
       = Returned (Some (reply :: rest)).
Proof.
  destruct chat_keys_user_stored as (H1 & Hm1 & Hs1 & Hd1 & Hp1 & Hc1 & _).
  pose proof (groqChatCompletion_frame env sent w1) as (Hs2 & Hd2 & _).
  rewrite Hreply in Hs2, Hd2. simpl in Hs2, Hd2.
  destruct (groqChatCompletion_returned env sent w1 reply w2 Hreply)
    as [_ [rest Haxios]].
  pose proof (keys_inv_ext w1 w2 Hs2 H1) as H2.
  pose proof (createMessage_keys_messages env insertAi w2 H2) as Hm3.
  assert (Hg2 : JsMap.get sid (sessions (storage w2))
                = Some (touch session (wall_clock env (S (dates w0))))).
  { rewrite Hs2, Hs1. apply get_set_eq. }
  destruct (createMessage_keys_sessions env insertAi w2 H2 _ Hg2)
    as [Hs3 Hd3].
  pose proof (createMessage_keys_frame env insertAi w2 H2) as (_ & Hc3 & _).
  assert (Hm : messages (storage w3)
               = messages (storage w0)
                 ++ [(Message.id u, u); (Message.id a, a)]).
  { change (messageIdCounter (storage w2)) with (Message.id a) in Hm3.
    rewrite Hm3, Hs2, Hm1, <- app_assoc. reflexivity. }
  split.
  { rewrite (chat_in_session_unfolded env document message session w0).
    cbv zeta. now rewrite Hreply. }
  split; [exact Hm|]. split.
  { rewrite Hs3, Hs2, Hs1, set_set, Hd2, Hd1. reflexivity. }
  split; [now rewrite Hd3, Hd2, Hd1|].
  split; [now rewrite Hc3, Hs2|]. split.
  { pose proof (history_perm_app sid (storage w0) (storage w3) _ Hm) as Hp.
    simpl in Hp. rewrite !Z.eqb_refl in Hp. exact Hp. }
  exists rest. now rewrite <- Hp1.
Qed.
End ChatKeys.

(** What "Get or create session" leaves behind when it yields a session,
    whatever the clock reads. *)
Lemma get_or_create_session_resolved_keys env document data w session w0 :
  keys_inv w ->
  get_or_create_session env document data w = (Returned (inr session), w0) ->
  keys_inv w0
  /\ JsMap.get (Session.id session) (sessions (storage w0)) = Some session
  /\ messages (storage w0) = messages (storage w)
  /\ posts w0 = posts w
  /\ ((exists sid,
         ChatData.sessionId data = Some sid /\ sid <> 0
         /\ JsMap.get sid (sessions (storage w)) = Some session
         /\ Session.id session = sid /\ w0 = w)
      \/ (truthy (ChatData.sessionId data) = false
          /\ session
             = Session.mk (sessionIdCounter (storage w))
                 (ChatData.documentId data)
                 ("Chat about " ++ Document.name document)%string
                 (wall_clock env (dates w)) (wall_clock env (dates w))
          /\ JsMap.get (Session.id session) (sessions (storage w)) = None
          /\ sessions (storage w0)
             = sessions (storage w) ++ [(Session.id session, session)]
          /\ sessionIdCounter (storage w0) = sessionIdCounter (storage w) + 1
          /\ dates w0 = S (dates w))).
Proof.
  intros Hinv Hrun.
  destruct (truthy (ChatData.sessionId data)) eqn:Ht.
  - destruct (ChatData.sessionId data) as [sid|] eqn:Hs; [|discriminate].
    simpl in Ht. apply negb_true_iff, Z.eqb_neq in Ht.
    rewrite (get_or_create_session_given env document data sid w Hs Ht)
      in Hrun.
    destruct (JsMap.get sid (sessions (storage w))) as [found|] eqn:Hg;
      [|discriminate].
    injection Hrun as -> ->.
    destruct (keyed_get _ _ _ _ _ _ (keys_sessions _ Hinv) Hg) as [Hid _].
    split; [exact Hinv|]. rewrite Hid.
    split; [exact Hg|]. do 2 (split; [reflexivity|]).
    left. exists sid. auto.
  - unfold get_or_create_session in Hrun. rewrite Ht in Hrun.
    unfold bind in Hrun.
    pose proof (keeps_keys_createSession env
                  (InsertSession.mk (ChatData.documentId data)
                     ("Chat about " ++ Document.name document)%string)
                  w Hinv) as Hinv0.
    rewrite (createSession_run_keys env _ w Hinv) in Hrun, Hinv0.
    simpl in Hinv0.
    pose proof (keyed_fresh _ _ _ _ _ (keys_sessions _ Hinv)
                  (Z.le_refl _)) as Hfresh.
    injection Hrun as <- <-. simpl.
    split; [exact Hinv0|]. split.
    + rewrite <- (set_fresh _ _ _ _ Hfresh). apply get_set_eq.
    + do 2 (split; [reflexivity|]). right. auto 10.
Qed.

(** The sessions after the chat handler has gone on with [session], given
    what the last [createMessage] has made of them: a session that the
    request named keeps the sessions' keys and counter, a session made for
    the request is the one new entry. *)
Lemma chat_sessions_settled env document data w session w0 w' :
  keys_inv w ->
  get_or_create_session env document data w = (Returned (inr session), w0) ->
  sessions (storage w')
  = JsMap.set (Session.id session)
      (touch session (wall_clock env (Nat.pred (dates w'))))
      (sessions (storage w0)) ->
  sessionIdCounter (storage w') = sessionIdCounter (storage w0) ->
  let created :=
    Session.mk (sessionIdCounter (storage w)) (ChatData.documentId data)
      ("Chat about " ++ Document.name document)%string
      (wall_clock env (dates w)) (wall_clock env (dates w)) in
  (forall sid existing,
     ChatData.sessionId data = Some sid ->
     JsMap.get sid (sessions (storage w)) = Some existing ->
     session = existing
     /\ JsMap.keys (sessions (storage w')) = JsMap.keys (sessions (storage w))
     /\ sessionIdCounter (storage w') = sessionIdCounter (storage w))
  /\ (ChatData.sessionId data = None ->
      session = created
      /\ JsMap.get (Session.id created) (sessions (storage w)) = None
      /\ sessions (storage w')
         = sessions (storage w)
           ++ [(Session.id created,
                touch created (wall_clock env (Nat.pred (dates w'))))]
      /\ sessionIdCounter (storage w') = sessionIdCounter (storage w) + 1).
Proof.
  intros Hkeys Hres Hs Hc created.
  destruct (get_or_create_session_resolved_keys env document data w session
              w0 Hkeys Hres)
    as (_ & Hst & _ & _ & [(sid & Hsid & Hnz & Hg & Hid & ->)
                          |(Hf & Heq & Hfresh & Hs0 & Hc0 & _)]).
  - split.
    + intros sid' existing Hsid' Hg'. rewrite Hsid in Hsid'.
      injection Hsid' as <-. split; [congruence|]. split; [|exact Hc].
      rewrite Hs. eapply keys_set_present. exact Hst.
    + intros Hnone. congruence.
  - split.
    + intros sid existing Hsid Hg. exfalso.
      rewrite Hsid in Hf. simpl in Hf.
      apply negb_false_iff, Z.eqb_eq in Hf. subst sid.
      destruct (keyed_get _ _ _ _ _ _ (keys_sessions _ Hkeys) Hg). lia.
    + intros _. fold created in Heq. subst session.
      split; [reflexivity|]. split; [exact Hfresh|].
      split; [|now rewrite Hc, Hc0].
      rewrite Hs, Hs0.
      exact (proj2 (set_app_last _ created _ _ Hfresh)).
Qed.

(* ------------------------------------------------------------------------- *)
(** ** The chat route: what a request adds to the store *)

(** C1. On a store whose maps are keyed by id below their counters (every
    store the server reaches, whatever the clock reads), for a chat request
    for a stored document that the handler answers:

    - when the request's [sessionId] names a stored session, the sessions
      keep their keys and their counter, whether the completion call
      succeeds or fails;
    - when the request carries no [sessionId], one session is added, under
      a key that was not in use and as the last entry, whether the
      completion call succeeds or fails: the session made for the request,
      with the [lastMessageAt] of the last message stored;
    - when the answer has status 200, it carries the session used (the one
      named, or the one made), a ["user"] message with the text of the
      request and an ["assistant"] message with the first choice of the
      completion API's answer to the one request sent; exactly these two
      have been added to the stored messages, in this order and both for
      that session, so that the session's history has gained exactly these
      two, and the history sent consists of the old history and the user
      message;
    - and when moreover the clock has not run backwards (so that no stored
      timestamp lies ahead of it), [getMessages] reads back the old
      history followed by the user message and then the assistant message,
      and the history sent is the old history followed by the user
      message. *)
Theorem handleChat_appends_two env body data document w r w' :
  keys_inv w ->
  chatSchema_safeParse body = Some data ->
  JsMap.get (ChatData.documentId data) (documents (storage w))
  = Some document ->
  handleChat env body w = (Returned r, w') ->
  let created :=
    Session.mk (sessionIdCounter (storage w)) (ChatData.documentId data)
      ("Chat about " ++ Document.name document)%string
      (wall_clock env (dates w)) (wall_clock env (dates w)) in
  (forall sid existing,
     ChatData.sessionId data = Some sid ->
     JsMap.get sid (sessions (storage w)) = Some existing ->
     JsMap.keys (sessions (storage w')) = JsMap.keys (sessions (storage w))
     /\ sessionIdCounter (storage w') = sessionIdCounter (storage w))
  /\ (ChatData.sessionId data = None ->
      JsMap.get (Session.id created) (sessions (storage w)) = None
      /\ sessions (storage w')
         = sessions (storage w)
           ++ [(Session.id created,
                touch created (wall_clock env (Nat.pred (dates w'))))]
      /\ sessionIdCounter (storage w') = sessionIdCounter (storage w) + 1)
  /\ (status r = 200 ->
      exists session u a reply rest sent,
        json r = ChatReply session u a
        /\ (forall sid existing,
              ChatData.sessionId data = Some sid ->
              JsMap.get sid (sessions (storage w)) = Some existing ->
              session = existing)
        /\ (ChatData.sessionId data = None -> session = created)
        /\ Message.role u = "user"
        /\ Message.content u = ChatData.message data
        /\ Message.role a = "assistant" /\ Message.content a = reply
        /\ Message.documentId u = Session.id session
        /\ Message.documentId a = Session.id session
        /\ messages (storage w')
           = messages (storage w) ++ [(Message.id u, u); (Message.id a, a)]
        /\ Permutation (history (Session.id session) (storage w'))
             (history (Session.id session) (storage w) ++ [u; a])
        /\ Permutation sent (history (Session.id session) (storage w) ++ [u])
        /\ axios_post env (List.length (posts w))
             (formattedMessages document sent)
           = Returned (Some (reply :: rest))
        /\ (clock_monotone env -> store_inv env w ->
            sent = history (Session.id session) (storage w) ++ [u]
            /\ getMessages (Session.id session) w'
               = (Returned
                    (history (Session.id session) (storage w) ++ [u; a]),
                  w'))).
Proof.
  intros Hkeys Hp Hd Hrun created.
  rewrite (handleChat_run env body data document w Hp Hd) in Hrun.
  destruct (get_or_create_session env document data w)
    as [[[response|session]|e] w0] eqn:Hres.
  - (* the session was not found: 404, and nothing has changed *)
    injection Hrun as <- <-.
    assert (Hcase :
      w0 = w /\ status response = 404
      /\ exists sid,
           ChatData.sessionId data = Some sid
           /\ JsMap.get sid (sessions (storage w)) = None).
    { unfold get_or_create_session in Hres.
      destruct (ChatData.sessionId data) as [sid|]; simpl in Hres.
      - destruct (negb (sid =? 0)).
        + unfold bind, getSession, get_storage, ret in Hres. simpl in Hres.
          destruct (JsMap.get sid (sessions (storage w))) eqn:Hg;
            [discriminate|].
          injection Hres as <- <-. eauto.
        + unfold bind in Hres.
          destruct (createSession env _ w) as [[?|?] ?]; discriminate.
      - unfold bind in Hres.
        destruct (createSession env _ w) as [[?|?] ?]; discriminate. }
    destruct Hcase as (-> & H404 & sid & Hs & Hg).
    split; [|split].
    + intros sid' existing Hs' Hg'. congruence.
    + intros Hnone. congruence.
    + intros H200. rewrite H404 in H200. discriminate.
  - destruct (get_or_create_session_resolved_keys env document data w
                session w0 Hkeys Hres)
      as (Hkeys0 & Hst & Hm0 & Hp0 & _).
    assert (Hhist : history (Session.id session) (storage w0)
                    = history (Session.id session) (storage w)).
    { unfold history. now rewrite Hm0. }
    destruct (chat_keys_user_stored env (ChatData.message data) session w0
                Hkeys0 Hst)
      as (_ & _ & Hs1 & Hd1 & _ & Hc1 & Hperm1).
    set (insertUser :=
           InsertMessage.mk (Session.id session) "user"
             (ChatData.message data)) in *.
    set (w1 := snd (createMessage env insertUser w0)) in *.
    destruct (groqChatCompletion env
                (formattedMessages document
                   (history (Session.id session) (storage w1))) w1)
      as [[reply|e] w2] eqn:Hgroq.
    + (* the completion API has answered *)
      destruct (chat_keys_replied env document (ChatData.message data)
                  session w0 Hkeys0 Hst reply w2 Hgroq)
        as (Hchat & Hm & Hs3 & Hd3 & Hc3 & Hperm & rest & Haxios).
      rewrite Hchat in Hrun. injection Hrun as <- <-.
      set (insertAi :=
             InsertMessage.mk (Session.id session) "assistant" reply) in *.
      set (w3 := snd (createMessage env insertAi w2)) in *.
      assert (Hs3' :
        sessions (storage w3)
        = JsMap.set (Session.id session)
            (touch session (wall_clock env (Nat.pred (dates w3))))
            (sessions (storage w0))).
      { rewrite Hs3, Hd3. reflexivity. }
      destruct (chat_sessions_settled env document data w session w0 w3
                  Hkeys Hres Hs3' Hc3) as [Hgiven Hnew].
      fold created in Hnew.
      split; [|split].
      * intros sid existing Hsid Hg.
        now destruct (Hgiven sid existing Hsid Hg) as (_ & Hk & Hc).
      * intros Hnone. now destruct (Hnew Hnone) as (_ & H).
      * intros _.
        exists session, (message_of env insertUser w0),
          (message_of env insertAi w2), reply, rest,
          (history (Session.id session) (storage w1)).
        split; [reflexivity|].
        split; [intros sid existing Hsid Hg;
                now destruct (Hgiven sid existing Hsid Hg)|].
        split; [intros Hnone; now destruct (Hnew Hnone)|].
        do 6 (split; [reflexivity|]).
        split; [now rewrite Hm, Hm0|].
        split; [now rewrite <- Hhist|].
        split; [now rewrite <- Hhist|].
        split; [now rewrite <- Hp0|].
        intros Hclock Hinv.
        destruct (get_or_create_session_resolved env document data w
                    session w0 Hclock Hinv Hres) as (Hinv0 & _).
        destruct (chat_user_stored env Hclock (ChatData.message data)
                    session w0 Hinv0 Hst) as (_ & _ & Hh1 & _).
        fold insertUser in Hh1. fold w1 in Hh1.
        rewrite Hh1 in Hgroq.
        destruct (chat_in_session_replied env Hclock document
                    (ChatData.message data) session w0 Hinv0 Hst reply w2
                    Hgroq) as (_ & Hh & _).
        fold insertUser in Hh. fold insertAi in Hh. fold w3 in Hh.
        rewrite getMessages_history, Hh, Hh1, Hhist. split; reflexivity.
    + (* the completion call has failed *)
      destruct (chat_keys_failed env document (ChatData.message data)
                  session w0 e w2 Hgroq)
        as (Hchat & Hs2 & Hd2).
      rewrite Hchat in Hrun. injection Hrun as <- <-.
      fold insertUser in Hs2, Hd2. fold w1 in Hs2, Hd2.
      assert (Hs2' :
        sessions (storage w2)
        = JsMap.set (Session.id session)
            (touch session (wall_clock env (Nat.pred (dates w2))))
            (sessions (storage w0))).
      { rewrite Hs2, Hs1, Hd2, Hd1. reflexivity. }
      assert (Hc2 : sessionIdCounter (storage w2)
                    = sessionIdCounter (storage w0))
        by now rewrite Hs2.
      destruct (chat_sessions_settled env document data w session w0 w2
                  Hkeys Hres Hs2' Hc2) as [Hgiven Hnew].
      fold created in Hnew.
      split; [|split].
      * intros sid existing Hsid Hg.
        now destruct (Hgiven sid existing Hsid Hg) as (_ & Hk & Hc).
      * intros Hnone. now destruct (Hnew Hnone) as (_ & H).
      * discriminate.
  - (* "Get or create session" does not throw *)
    exfalso. unfold get_or_create_session in Hres.
    destruct (truthy (ChatData.sessionId data)).
    + unfold bind, getSession, get_storage, ret in Hres. simpl in Hres.
      destruct (JsMap.get _ (sessions (storage w))); discriminate.
    + unfold bind in Hres.
      rewrite (createSession_run_keys env _ w Hkeys) in Hres. discriminate.
Qed.

(** Three requests about document 1 after the upload of [notes.txt].  In
    session 1: the two messages are read back after the old history and
    the sessions keep their keys.  Without a session id: session 2 is made
    and answered, and the two messages are stored.  Without a session id
    while the API is down: session 2 is made all the same. *)
Lemma handleChat_appends_two_witness :
  (exists u a,
     json Demo.response1 = ChatReply Demo.session1 u a
     /\ Message.role u = "user" /\ Message.role a = "assistant"
     /\ getMessages 1 Demo.after_chat1
        = (Returned (history 1 (storage Demo.after_upload) ++ [u; a]),
           Demo.after_chat1)
     /\ JsMap.keys (sessions (storage Demo.after_chat1)) = [1])
  /\ (exists u a,
        json Demo.response_new
        = ChatReply (Session.mk 2 1 "Chat about notes.txt" 1004 1004) u a
        /\ messages (storage Demo.after_chat_new)
           = messages (storage Demo.after_upload)
             ++ [(Message.id u, u); (Message.id a, a)]
        /\ JsMap.keys (sessions (storage Demo.after_chat_new)) = [1; 2])
  /\ status Demo.response_new_failed = 500
  /\ JsMap.keys (sessions (storage Demo.after_failed_chat_new)) = [1; 2].
Proof.
  pose proof (store_inv_keys Demo.env _
                (Demo_after_upload_inv Demo.env eq_refl)) as Hkeys.
  assert (Hrun1 :
    handleChat Demo.env (Demo.ask 1 (JNumber 1)) Demo.after_upload
    = (Returned Demo.response1, Demo.after_chat1))
    by (vm_compute; reflexivity).
  assert (Hrun2 :
    handleChat Demo.env (Demo.ask 1 JUndefined) Demo.after_upload
    = (Returned Demo.response_new, Demo.after_chat_new))
    by (vm_compute; reflexivity).
  assert (Hrun3 :
    handleChat Demo.env_down (Demo.ask 1 JUndefined) Demo.after_upload
    = (Returned Demo.response_new_failed, Demo.after_failed_chat_new))
    by (vm_compute; reflexivity).
  split; [|split; [|split; [reflexivity|]]].
  - destruct (handleChat_appends_two Demo.env (Demo.ask 1 (JNumber 1))
                (Demo.asked 1 (Some 1)) Demo.document1 Demo.after_upload
                Demo.response1 Demo.after_chat1 Hkeys eq_refl eq_refl Hrun1)
      as (Hgiven & _ & H200).
    destruct (H200 eq_refl)
      as (session & u & a & reply & rest & sent & Hj & Hsame & _ & Hru & _
          & Hra & _ & _ & _ & _ & _ & _ & _ & Hclock).
    destruct (Hclock Demo_clock (Demo_after_upload_inv Demo.env eq_refl))
      as [_ Hh].
    pose proof (Hsame 1 Demo.session1 eq_refl eq_refl) as Hs. subst session.
    destruct (Hgiven 1 Demo.session1 eq_refl eq_refl) as [Hk _].
    exists u, a. split; [exact Hj|]. split; [exact Hru|].
    split; [exact Hra|]. split; [exact Hh|]. rewrite Hk. reflexivity.
  - destruct (handleChat_appends_two Demo.env (Demo.ask 1 JUndefined)
                (Demo.asked 1 None) Demo.document1 Demo.after_upload
                Demo.response_new Demo.after_chat_new Hkeys eq_refl eq_refl
                Hrun2)
      as (_ & Hnew & H200).
    destruct (H200 eq_refl)
      as (session & u & a & reply & rest & sent & Hj & _ & Hcreated & _ & _
          & _ & _ & _ & _ & Hm & _).
    pose proof (Hcreated eq_refl) as Hs. subst session.
    destruct (Hnew eq_refl) as (_ & Hsessions & _).
    exists u, a. split; [exact Hj|]. split; [exact Hm|].
    rewrite Hsessions. reflexivity.
  - destruct (handleChat_appends_two Demo.env_down (Demo.ask 1 JUndefined)
                (Demo.asked 1 None) Demo.document1 Demo.after_upload
                Demo.response_new_failed Demo.after_failed_chat_new Hkeys
                eq_refl eq_refl Hrun3)
      as (_ & Hnew & _).
    destruct (Hnew eq_refl) as (_ & Hsessions & _).
    rewrite Hsessions. reflexivity.
Defined.

(* ------------------------------------------------------------------------- *)
(** ** The upload route, whatever the clock reads *)

(** From "Create document record" on: a document, a session for it and a
    system message for that session are appended, each to its own map. *)
Lemma store_upload_run_keys env file content w :
  keys_inv w ->
  exists document session message w',
    store_upload env file content w
    = (Returned (mkResponse 201 (Uploaded document session)), w')
    /\ document
       = Document.mk (documentIdCounter (storage w))
           (MulterFile.originalname file) (MulterFile.originalname file)
           (MulterFile.mimetype file) (MulterFile.size file) content
           (wall_clock env (dates w))
    /\ documents (storage w')
       = documents (storage w) ++ [(Document.id document, document)]
    /\ Session.documentId session = Document.id document
    /\ sessions (storage w')
       = sessions (storage w)
         ++ [(Session.id session,
              touch session (wall_clock env (3 + dates w)))]
    /\ messages (storage w')
       = messages (storage w) ++ [(Message.id message, message)]
    /\ Message.role message = "system"
    /\ Message.documentId message = Session.id session
    /\ users (storage w') = users (storage w).
Proof.
  intros Hinv. unfold store_upload, bind.
  set (insertDocument := InsertDocument.mk _ _ _ _ _).
  pose proof (keeps_keys_createDocument env insertDocument w Hinv) as Ha.
  rewrite (createDocument_run_keys env insertDocument w Hinv) in *.
  simpl in Ha. cbv zeta.
  set (document := Document.mk _ _ _ _ _ _ _) in *.
  set (wa := later w 1 _) in *.
  set (insertSession := InsertSession.mk _ _).
  pose proof (keeps_keys_createSession env insertSession wa Ha) as Hb.
  rewrite (createSession_run_keys env insertSession wa Ha) in *.
  simpl in Hb. cbv zeta.
  set (session := Session.mk _ _ _ _ _) in *.
  set (wb := later wa 1 _) in *.
  set (insertMessage := InsertMessage.mk _ _ _).
  rewrite (createMessage_run_keys env insertMessage wb Hb). cbv zeta.
  pose proof (keyed_fresh _ _ _ _ _ (keys_sessions _ Hinv) (Z.le_refl _))
    as Hfresh.
  destruct (set_app_last (sessionIdCounter (storage w)) session
              (touch session (wall_clock env (3 + dates w)))
              (sessions (storage w)) Hfresh) as [Hget Hset].
  change (JsMap.get (InsertMessage.documentId insertMessage)
            (sessions (storage wb)))
    with (JsMap.get (sessionIdCounter (storage w))
            (sessions (storage w)
             ++ [(sessionIdCounter (storage w), session)])).
  rewrite Hget.
  exists document, session, (message_of env insertMessage wb).
  eexists. split; [reflexivity|]. split; [reflexivity|].
  simpl. split; [reflexivity|]. split; [reflexivity|].
  split; [exact Hset|]. repeat split.
Qed.

(** Whatever is uploaded, the handler either answers 201 and has stored the
    document together with its session and system message, or answers
    something else and has left the store as it was. *)
Lemma handleUpload_all_or_nothing env req_file w r w' :
  keys_inv w ->
  handleUpload env req_file w = (Returned r, w') ->
  (status r = 201
   /\ exists document session,
        json r = Uploaded document session
        /\ upload_stored w w' document session)
  \/ (status r <> 201 /\ storage w' = storage w).
Proof.
  intros Hinv. unfold handleUpload, try_catch.
  destruct req_file as [file|].
  2:{ simpl. intros [= <- <-]. right. split; [discriminate | reflexivity]. }
  destruct (negb (includes validFileTypes (MulterFile.mimetype file))).
  { simpl. intros [= <- <-]. right. split; [discriminate | reflexivity]. }
  unfold bind.
  pose proof (frames_processFile env file w) as (Hs & _).
  destruct (processFile env file w) as [[content|e] w1]; simpl in Hs.
  2:{ simpl. intros [= <- <-]. right. split; [discriminate | exact Hs]. }
  destruct (String.eqb content "").
  { simpl. intros [= <- <-]. right. split; [discriminate | exact Hs]. }
  pose proof (keys_inv_ext w w1 Hs Hinv) as Hinv1.
  destruct (store_upload_run_keys env file content w1 Hinv1)
    as (document & session & message & w2 & Hrun & _ & Hdocs & Hsd & Hse
        & Hm & Hrole & Hmd & Hu).
  rewrite Hrun. intros [= <- <-]. left. split; [reflexivity|].
  exists document, session. split; [reflexivity|].
  exists message, (wall_clock env (3 + dates w1)).
  rewrite Hs in *. auto 10.
Qed.

(** A file the filter lets through is of one of the accepted types. *)
Lemma fileFilter_includes env file :
  fileFilter env file = true ->
  includes validFileTypes (MulterFile.mimetype file) = true.
Proof.
  intros H. unfold fileFilter in H.
  apply orb_true_iff in H as [H | H];
    [apply orb_true_iff in H as [H | H]|];
    apply andb_true_iff in H as [_ Hm].
  - apply String.eqb_eq in Hm. now rewrite Hm.
  - apply includes_eq in Hm. simpl in Hm.
    now destruct Hm as [<- | [<- | []]].
  - apply String.eqb_eq in Hm. now rewrite Hm.
Qed.

(** The middleware hands a file that passes the filter and is below the
    size limit to the handler, and changes nothing. *)
Lemma upload_single_accepts env file w :
  fileFilter env file = true ->
  MulterFile.size file < fileSize_limit ->
  upload_route env (Some file) w = handleUpload env (Some file) w.
Proof.
  intros Hf Hsize. unfold upload_route, upload_single, bind.
  rewrite Hf. simpl.
  destruct (fileSize_limit <=? MulterFile.size file) eqn:E;
    [apply Z.leb_le in E; lia | reflexivity].
Qed.

(** An accepted file from which no text comes out is answered with 400, and
    the store is as it was. *)
Lemma handleUpload_empty_content env file w w1 :
  includes validFileTypes (MulterFile.mimetype file) = true ->
  processFile env file w = (Returned "", w1) ->
  handleUpload env (Some file) w
  = (Returned (mkResponse 400 (Message_ "Failed to process file")), w1)
  /\ storage w1 = storage w.
Proof.
  intros Hvalid Hrun.
  pose proof (frames_processFile env file w) as (Hs & _).
  rewrite Hrun in Hs. simpl in Hs. split; [|exact Hs].
  unfold handleUpload, try_catch, bind. rewrite Hvalid. cbn [negb].
  rewrite Hrun. reflexivity.
Qed.

(** C5, as the code has it.  At every point the server reaches, whatever
    the clock reads:

    - a file with extension [.txt] and type [text/plain], of a size below
      the limit of the upload, whose temporary file can be written, read
      and removed, is answered with 201 when its decoded text is not
      empty, with a document whose size is the file's size and whose
      content is the decoded text; the document, a session of it and one
      system message of that session are then each the one new entry of
      its map.  When its decoded text is empty it is answered with 400
      "Failed to process file", and the store is as it was;
    - more generally, every file that the middleware accepts and from which
      no text comes out is answered with 400 "Failed to process file", and
      the store is as it was;
    - whatever is uploaded, an answer of the route other than 201 leaves
      the store as it was, while a 201 always comes with all three. *)
Theorem upload_txt env requests file :
  let w := serve_all env requests World_start in
  (toLowerCase env (path_extname env (MulterFile.originalname file)) = ".txt"
   -> MulterFile.mimetype file = "text/plain"
   -> MulterFile.size file < fileSize_limit
   -> (forall n, fs_fault env n = false)
   -> (utf8_decode env (MulterFile.buffer file) <> ""
       -> exists document session w',
            upload_route env (Some file) w
            = (Returned (mkResponse 201 (Uploaded document session)), w')
            /\ Document.size document = MulterFile.size file
            /\ Document.content document
               = utf8_decode env (MulterFile.buffer file)
            /\ upload_stored w w' document session)
      /\ (utf8_decode env (MulterFile.buffer file) = ""
          -> exists w',
               upload_route env (Some file) w
               = (Returned
                    (mkResponse 400 (Message_ "Failed to process file")),
                  w')
               /\ storage w' = storage w))
  /\ (forall uploaded w1,
        fileFilter env uploaded = true ->
        MulterFile.size uploaded < fileSize_limit ->
        processFile env uploaded w = (Returned "", w1) ->
        upload_route env (Some uploaded) w
        = (Returned (mkResponse 400 (Message_ "Failed to process file")),
           w1)
        /\ storage w1 = storage w)
  /\ (forall part r w',
        upload_route env part w = (Returned r, w') ->
        (status r = 201
         /\ exists document session,
              json r = Uploaded document session
              /\ upload_stored w w' document session)
        \/ (status r <> 201 /\ storage w' = storage w)).
Proof.
  intros w. pose proof (served_keys env requests) as Hkeys. fold w in Hkeys.
  clearbody w. split; [|split].
  - intros Hext Hmime Hsize Hfs.
    assert (Hfilter : fileFilter env file = true).
    { unfold fileFilter. rewrite Hext, Hmime. reflexivity. }
    rewrite (upload_single_accepts env file w Hfilter Hsize).
    pose proof (processFile_txt env file w Hmime Hfs) as Hcontent.
    pose proof (frames_processFile env file w) as (Hs & _).
    destruct (processFile env file w) as [o w1] eqn:Hrun.
    simpl in Hcontent, Hs. subst o. split.
    + intros Hne. unfold handleUpload, try_catch, bind.
      rewrite (fileFilter_includes env file Hfilter). cbn [negb].
      rewrite Hrun.
      destruct (String.eqb (utf8_decode env (MulterFile.buffer file)) "")
        eqn:E; [apply String.eqb_eq in E; contradiction|].
      pose proof (keys_inv_ext w w1 Hs Hkeys) as Hkeys1.
      destruct (store_upload_run_keys env file
                  (utf8_decode env (MulterFile.buffer file)) w1 Hkeys1)
        as (document & session & message & w2 & Hstore & Hdoc & Hdocs & Hsd
            & Hse & Hm & Hrole & Hmd & Hu).
      rewrite Hstore. exists document, session, w2.
      split; [reflexivity|]. rewrite Hdoc at 1 2. simpl.
      split; [reflexivity|]. split; [reflexivity|].
      exists message, (wall_clock env (3 + dates w1)).
      rewrite Hs in *. auto 10.
    + intros Hempty. rewrite Hempty in Hrun. exists w1.
      apply handleUpload_empty_content; [|exact Hrun].
      exact (fileFilter_includes env file Hfilter).
  - intros uploaded w1 Hfilter Hsize Hrun.
    rewrite (upload_single_accepts env uploaded w Hfilter Hsize).
    apply handleUpload_empty_content; [|exact Hrun].
    exact (fileFilter_includes env uploaded Hfilter).
  - intros part r w' Hrun. unfold upload_route, bind in Hrun.
    destruct (upload_single env part w) as [[req_file|e] w0] eqn:Hmw;
      [|discriminate].
    assert (w0 = w) as ->.
    { unfold upload_single in Hmw. destruct part as [f|].
      - destruct (negb (fileFilter env f)); [discriminate|].
        destruct (fileSize_limit <=? MulterFile.size f);
          [discriminate|].
        now injection Hmw.
      - now injection Hmw. }
    now apply (handleUpload_all_or_nothing env req_file).
Qed.

(** The upload of [notes.txt], eleven bytes of text, into the empty store;
    and the upload of the empty [empty.txt] after it, which is refused. *)
Lemma upload_txt_witness :
  (exists document session w',
     upload_route Demo.env (Some Demo.notes_txt) World_start
     = (Returned (mkResponse 201 (Uploaded document session)), w')
     /\ Document.size document = 11
     /\ Document.content document = "Hello world"
     /\ upload_stored World_start w' document session)
  /\ exists w',
       upload_route Demo.env (Some Demo.empty_txt) Demo.after_upload
       = (Returned (mkResponse 400 (Message_ "Failed to process file")), w')
       /\ storage w' = storage Demo.after_upload.
Proof.
  split.
  - apply (proj1 (upload_txt Demo.env [] Demo.notes_txt)).
    + reflexivity.
    + reflexivity.
    + reflexivity.
    + reflexivity.
    + discriminate.
  - assert (Hreached :
      serve_all Demo.env [PostUpload (Some Demo.notes_txt)] World_start
      = Demo.after_upload) by (vm_compute; reflexivity).
    pose proof
      (proj1 (upload_txt Demo.env [PostUpload (Some Demo.notes_txt)]
                Demo.empty_txt)) as H.
    cbv zeta in H. rewrite Hreached in H.
    apply H; reflexivity.
Defined.

(* ------------------------------------------------------------------------- *)
(** ** Text extraction: what makes it fail *)

Ltac run_processFile :=
  unfold processFile, pdfParse;
  unfold try_catch, bind, uuid_call, fs_writeFile, fs_readFile, fs_unlink,
    fs_call, lift_outcome, throw, ret; simpl.

Ltac step_processFile :=
  repeat
    (simpl; rewrite ?String.eqb_refl;
     match goal with
     | |- context [if fs_fault ?e ?n then _ else _] =>
         destruct (fs_fault e n) eqn:?
     | |- context [String.eqb (MulterFile.mimetype ?f) ?b] =>
         destruct (String.eqb (MulterFile.mimetype f) b) eqn:?
     | |- context [match pdf_parse ?e ?d with _ => _ end] =>
         destruct (pdf_parse e d)
     | |- context [match mammoth_extractRawText ?e ?d with _ => _ end] =>
         destruct (mammoth_extractRawText e d) eqn:?
     end);
  try reflexivity; try discriminate; try congruence.

(** A fault of the disk at one of the three calls [processFile] makes on a
    file that is read (write, read, unlink) makes it throw. *)
Lemma processFile_disk_fault env file w n :
  (n < 3)%nat -> fs_fault env (n + fs_calls w) = true ->
  fst (processFile env file w) = Threw (Error "Failed to process file").
Proof.
  intros Hn Hfault.
  destruct n as [|[|[|n]]]; [| | |lia]; simpl in Hfault;
    run_processFile; step_processFile.
Qed.

(** A type that is none of the four makes it throw. *)
Lemma processFile_unsupported env file w :
  includes validFileTypes (MulterFile.mimetype file) = false ->
  fst (processFile env file w) = Threw (Error "Failed to process file").
Proof.
  unfold includes. simpl. intros H.
  apply orb_false_iff in H as [H1 H].
  apply orb_false_iff in H as [H2 H].
  apply orb_false_iff in H as [H3 H].
  apply orb_false_iff in H as [H4 _].
  run_processFile. rewrite H1, H2, H3, H4. step_processFile.
Qed.

(** An error of the DOC/DOCX reader makes it throw. *)
Lemma processFile_reader_error env file w e :
  MulterFile.mimetype file = "application/msword"
  \/ MulterFile.mimetype file
     = "application/vnd.openxmlformats-officedocument.wordprocessingml.document" ->
  mammoth_extractRawText env (MulterFile.buffer file) = Threw e ->
  fst (processFile env file w) = Threw (Error "Failed to process file").
Proof.
  intros [Hmime | Hmime] Hreader; run_processFile; rewrite Hmime; simpl;
    step_processFile.
Qed.

(** X9. [processFile] never lets the cause of a failure out: whenever it
    throws, it throws the one error "Failed to process file".  And it does
    throw whenever the disk fails at one of its first three calls (writing
    the temporary file, reading it back, removing it), whenever the type is
    none of the four accepted ones, and whenever the DOC/DOCX reader
    throws.  (An error of the PDF parser is not among these: the local
    [pdfParse] replaces it by a text.) *)
Theorem processFile_error_is_opaque env file w :
  let failed : Outcome string := Threw (Error "Failed to process file") in
  (forall e w',
     processFile env file w = (Threw e, w') ->
     e = Error "Failed to process file")
  /\ (forall n,
        (n < 3)%nat -> fs_fault env (n + fs_calls w) = true ->
        fst (processFile env file w) = failed)
  /\ (includes validFileTypes (MulterFile.mimetype file) = false ->
      fst (processFile env file w) = failed)
  /\ (forall e,
        MulterFile.mimetype file = "application/msword"
        \/ MulterFile.mimetype file
           = "application/vnd.openxmlformats-officedocument.wordprocessingml.document" ->
        mammoth_extractRawText env (MulterFile.buffer file) = Threw e ->
        fst (processFile env file w) = failed).
Proof.
  intros failed. split; [|split; [|split]].
  - apply processFile_throws_only.
  - apply processFile_disk_fault.
  - apply processFile_unsupported.
  - intros e. apply processFile_reader_error.
Qed.

(** [notes.txt] on a disk on which every call fails. *)
Lemma processFile_error_is_opaque_witness :
  fst (processFile Sample.env_disk_full Demo.notes_txt World_start)
  = Threw (Error "Failed to process file").
Proof.
  apply (proj1 (proj2 (processFile_error_is_opaque Sample.env_disk_full
                         Demo.notes_txt World_start)) 0%nat).
  - lia.
  - reflexivity.
Defined.
